(** * Chunked upload: the chunk receiver and the two finalize handlers

    A shallow embedding of

    - [src/unnamed/part_000] (the upload-chunk route, after the README),
    - [src/app/api/finalize-upload/route.ts],
    - [src/unnamed/part_001] (the second finalize handler),

    over a small model of the file system the handlers run on. *)

From Stdlib Require Import Ascii String.
From stdpp Require Import gmap strings list fin_maps pretty.

Local Open Scope string_scope.
Local Open Scope Z_scope.
Local Open Scope list_scope.

(** ** Strings and paths *)

(** [String.prototype.replace(/[^...]/g, '')]: every character outside the
    class is dropped.  A character of a JS string that is not ASCII shows up
    here as bytes above 127, which are outside both classes used below. *)
Fixpoint replace_outside (keep : ascii → bool) (s : string) : string :=
  match s with
  | EmptyString => EmptyString
  | String c r =>
      if keep c then String c (replace_outside keep r) else replace_outside keep r
  end.

Definition in_range (lo hi : N) (c : ascii) : bool :=
  (lo <=? N_of_ascii c)%N && (N_of_ascii c <=? hi)%N.

(** The class [a-zA-Z0-9-_]. *)
Definition is_id_char (c : ascii) : bool :=
  in_range 97 122 c || in_range 65 90 c || in_range 48 57 c
  || (N_of_ascii c =? 45)%N || (N_of_ascii c =? 95)%N.

(** The class [0-9]. *)
Definition is_digit_char (c : ascii) : bool := in_range 48 57 c.

Definition is_slash (c : ascii) : bool := (N_of_ascii c =? 47)%N.

(** A path is kept as the list of its components below the root: both
    [os.tmpdir()] and [process.cwd()] are absolute and normalized, and
    [path.join] keeps a path in that form. *)
Abbreviation path := (list string).

(** [String.prototype.split('/')]. *)
Fixpoint split_slash (s : string) : list string :=
  match s with
  | EmptyString => [EmptyString]
  | String c r =>
      if is_slash c then EmptyString :: split_slash r
      else match split_slash r with
           | h :: t => String c h :: t
           | [] => [String c EmptyString]
           end
  end.

(** One step of Node's [normalizeString] on an absolute path: empty and
    [.] components are skipped, [..] drops the last component kept so far
    (and is dropped itself at the root). *)
Definition normalize_step (acc : path) (seg : string) : path :=
  if decide (seg = "" ∨ seg = ".") then acc
  else if decide (seg = "..") then removelast acc
  else acc ++ [seg].

(** [path.join(base, ...args)] for an absolute [base] (POSIX). *)
Definition path_join (base : path) (args : list string) : path :=
  foldl normalize_step base (concat (split_slash <$> args)).

(** [path.basename(p)] (POSIX) scans [p] from its end: trailing slashes
    are skipped, then characters are taken up to the next slash. *)
Fixpoint skip_slashes (l : list ascii) : list ascii :=
  match l with
  | c :: r => if is_slash c then skip_slashes r else l
  | [] => []
  end.

Fixpoint upto_slash (l : list ascii) : list ascii :=
  match l with
  | c :: r => if is_slash c then [] else c :: upto_slash r
  | [] => []
  end.

Definition basename (p : string) : string :=
  string_of_list_ascii
    (reverse (upto_slash (skip_slashes (reverse (list_ascii_of_string p))))).

(** ** The file system *)

Inductive node :=
  | Dir
  | File (data : list Byte.byte).

(** [files] maps the path of every entry below the root to its node; the
    root itself is always a directory.  [rm_faults] scripts the
    environment: the n-th call of [rm] throws, and removes nothing, when
    the n-th entry is [true] (no entry: no fault). *)
Record Disk := mkDisk {
  files : gmap path node;
  rm_faults : list bool
}.

Definition stat (fs : gmap path node) (p : path) : option node :=
  match p with
  | [] => Some Dir
  | _ => fs !! p
  end.

Definition parent (p : path) : path := removelast p.

(** ** Computations that may throw *)

(** How a computation ends without a value: it throws ([Error]), or it
    awaits a promise that never settles ([Unsettled]).  In the second
    case nothing after the [await] runs, neither a [catch] nor a
    [finally], and a handler that ends so gives the request no response. *)
Inductive Exn :=
  | Error (msg : string)
  | Unsettled.

Definition M (A : Type) : Type := Disk → (Exn + A) * Disk.

Definition ret {A} (a : A) : M A := λ s, (inr a, s).
Definition throw {A} (e : Exn) : M A := λ s, (inl e, s).
Definition bind {A B} (m : M A) (k : A → M B) : M B :=
  λ s, match m s with
       | (inl e, s') => (inl e, s')
       | (inr a, s') => k a s'
       end.

(** [await] on a promise that never settles. *)
Definition never {A} : M A := λ s, (inl Unsettled, s).

(** [try { body } catch (e) { handler e }] *)
Definition try_catch {A} (body : M A) (handler : Exn → M A) : M A :=
  λ s, match body s with
       | (inl Unsettled, s') => (inl Unsettled, s')
       | (inl e, s') => handler e s'
       | (inr a, s') => (inr a, s')
       end.

(** [try { body } finally { fin }]: an exception of [fin] replaces the
    outcome of [body]. *)
Definition try_finally {A} (body : M A) (fin : M unit) : M A :=
  λ s, match body s with
       | (inl Unsettled, s') => (inl Unsettled, s')
       | (r, s') =>
           match fin s' with
           | (inl e, s'') => (inl e, s'')
           | (inr _, s'') => (r, s'')
           end
       end.

#[global] Instance M_ret : MRet M := @ret.
#[global] Instance M_bind : MBind M := λ A B k m, bind m k.

(** ** File system operations (fs and fs/promises) *)

Definition existsSync (p : path) : M bool :=
  λ s, (inr (bool_decide (is_Some (stat (files s) p))), s).

(** [mkdir(p, { recursive: true })] walks the components of [p]; a
    component that is a regular file makes the call throw. *)
Fixpoint mkdir_go (pre : path) (rest : list string) (fs : gmap path node)
  : option (gmap path node) :=
  match rest with
  | [] => Some fs
  | c :: rest' =>
      match fs !! (pre ++ [c]) with
      | Some (File _) => None
      | Some Dir => mkdir_go (pre ++ [c]) rest' fs
      | None => mkdir_go (pre ++ [c]) rest' (<[pre ++ [c] := Dir]> fs)
      end
  end.

Definition mkdir (p : path) : M unit :=
  λ s, match mkdir_go [] p (files s) with
       | Some fs' => (inr (), mkDisk fs' (rm_faults s))
       | None => (inl (Error "ENOTDIR"), s)
       end.

(** Opening [p] for writing needs [p] to name something other than a
    directory, inside an existing directory. *)
Definition can_open (fs : gmap path node) (p : path) : bool :=
  match p with
  | [] => false
  | _ =>
      match stat fs (parent p), fs !! p with
      | Some Dir, Some Dir => false
      | Some Dir, _ => true
      | _, _ => false
      end
  end.

Definition writeFile (p : path) (data : list Byte.byte) : M unit :=
  λ s, if can_open (files s) p
       then (inr (), mkDisk (<[p := File data]> (files s)) (rm_faults s))
       else (inl (Error "open failed"), s).

Definition readFile (p : path) : M (list Byte.byte) :=
  λ s, match stat (files s) p with
       | Some (File d) => (inr d, s)
       | Some Dir => (inl (Error "EISDIR"), s)
       | None => (inl (Error "ENOENT"), s)
       end.

(** [rm(p, { recursive: true, force: true })]: [p] and everything below it
    goes; a path that is absent is no error. *)
Definition rm (p : path) : M unit :=
  λ s, match rm_faults s with
       | true :: fl => (inl (Error "rm failed"), mkDisk (files s) fl)
       | fl =>
           (inr (),
            mkDisk (filter (λ kv, ¬ p `prefix_of` kv.1) (files s)) (tail fl))
       end.

(** A write stream ([fs.createWriteStream], flags [w]).  The file is
    opened (created or truncated) when the stream is made, and every
    [write] reaches the file before the next statement.  When the open
    fails, the stream emits [error] as soon as the event loop runs, that
    is at the first [await] after the stream was made: [ws_unheard] says
    that this has happened with nobody listening.  Such a stream swallows
    its writes. *)
Record WriteStream := mkStream {
  ws_path : path;
  ws_opened : bool;
  ws_unheard : bool
}.

Definition createWriteStream (p : path) : M WriteStream :=
  λ s, if can_open (files s) p
       then (inr (mkStream p true false),
             mkDisk (<[p := File []]> (files s)) (rm_faults s))
       else (inr (mkStream p false false), s).

(** The stream after an [await] of the handler, which has no listener on
    it yet: the [error] of a failed open has gone unheard. *)
Definition ws_after_await (ws : WriteStream) : WriteStream :=
  if ws_opened ws then ws else mkStream (ws_path ws) false true.

Definition ws_write (ws : WriteStream) (data : list Byte.byte) : M unit :=
  λ s, if ws_opened ws
       then match files s !! ws_path ws with
            | Some (File old) =>
                (inr (),
                 mkDisk (<[ws_path ws := File (old ++ data)]> (files s))
                        (rm_faults s))
            | _ => (inr (), s)
            end
       else (inr (), s).

(** [await new Promise((resolve, reject) => { ws.end(); ws.on('finish',
    resolve); ws.on('error', reject); })].  The listeners are registered
    here and not before: an open stream finishes; a failed open whose
    [error] is still to come rejects the promise; one whose [error] has
    gone unheard leaves the promise unsettled. *)
Definition ws_end_and_wait (ws : WriteStream) : M unit :=
  if ws_opened ws then ret ()
  else if ws_unheard ws then never
  else throw (Error "stream error").

Definition ws_destroy (ws : WriteStream) : M unit := ret ().

(** ** Requests, numbers and responses *)

(** The number the comparisons read out of the [totalChunks] field:
    an integer, or [NaN] when the field is absent or has no numeric
    reading.  Fractions and infinities are left out. *)
Inductive JsNumber :=
  | Num (z : Z)
  | NaN.

Definition js_lt (a b : JsNumber) : bool :=
  match a, b with
  | Num x, Num y => x <? y
  | _, _ => false
  end.

Definition js_gt (a b : JsNumber) : bool := js_lt b a.

Inductive Body :=
  | BError (error : string)
  | BSuccess
  | BSuccessPath (public : string).

(** [NextResponse.json(body, { status })]; the status is 200 when none is
    given. *)
Record Response := mkResponse {
  status : Z;
  body : Body
}.

Definition json_error (msg : string) (st : Z) : Response :=
  mkResponse st (BError msg).

Record Env := mkEnv {
  os_tmpdir : path;
  process_cwd : path
}.

Record FinalizeRequest := mkFinalize {
  uploadId : string;
  fileName : string;
  totalChunks : JsNumber
}.

Definition MAX_CHUNKS : Z := 1000.

(** [`chunk_${i}`] *)
Definition chunk_name (i : Z) : string := "chunk_" +:+ pretty i.

(** ** The chunk receiver: [POST] of the upload-chunk route
    ([src/unnamed/part_000], lines 356-385) *)

Module UploadChunk.

(** What [formData.get(name)] returns: [null], a string or a [File]. *)
Inductive FormEntry :=
  | FNull
  | FString (s : string)
  | FFile (bytes : list Byte.byte).

Record Form := mkForm {
  file : FormEntry;
  chunkIndex : FormEntry;
  uploadId : FormEntry
}.

(** [!e] is false for [null] and for the empty string only. *)
Definition truthy (e : FormEntry) : bool :=
  match e with
  | FNull => false
  | FString EmptyString => false
  | FString _ => true
  | FFile _ => true
  end.

(** [e.replace(/[^...]/g, '')]; only a string has the method. *)
Definition replace_in (keep : ascii → bool) (e : FormEntry) : M string :=
  match e with
  | FString s => ret (replace_outside keep s)
  | _ => throw (Error "TypeError: replace is not a function")
  end.

(** [s !== e] *)
Definition differs (s : string) (e : FormEntry) : bool :=
  match e with
  | FString t => bool_decide (s ≠ t)
  | _ => true
  end.

(** [Buffer.from(await e.arrayBuffer())]; only a [File] has the method. *)
Definition arrayBuffer (e : FormEntry) : M (list Byte.byte) :=
  match e with
  | FFile b => ret b
  | _ => throw (Error "TypeError: arrayBuffer is not a function")
  end.

Definition POST (env : Env) (form : Form) : M Response :=
  try_catch
    (if negb (truthy (file form)) || negb (truthy (chunkIndex form))
        || negb (truthy (uploadId form))
     then ret (json_error "Missing fields" 400)
     else
       safeUploadId ← replace_in is_id_char (uploadId form);
       if differs safeUploadId (uploadId form)
       then ret (json_error "Invalid uploadId" 400)
       else
         safeChunkIndex ← replace_in is_digit_char (chunkIndex form);
         if differs safeChunkIndex (chunkIndex form)
         then ret (json_error "Invalid chunkIndex" 400)
         else
           buffer ← arrayBuffer (file form);
           let tempDir := path_join (os_tmpdir env) ["uploads"; safeUploadId] in
           mkdir tempDir;;
           writeFile (path_join tempDir ["chunk_" +:+ safeChunkIndex]) buffer;;
           ret (mkResponse 200 BSuccess))
    (λ _, ret (json_error "Upload failed" 500)).

End UploadChunk.

(** ** The assembly loop

    [for (let i = 0; i < totalChunks; i++) { ... }], the same statements
    in both finalize handlers (route.ts lines 34-40, part_001 lines
    39-48).  The recursion is on the number of iterations left, which is
    what the guard leaves when no chunk is missing; [for_chunks_unfold]
    below shows that the guard decides every step.  The stream is a
    mutable object: the loop hands it on from one iteration to the next
    and returns it as the [await]s have left it. *)

Definition trips (total : JsNumber) (i : Z) : nat :=
  match total with
  | Num z => Z.to_nat (z - i)
  | NaN => 0%nat
  end.

Fixpoint assemble_loop (fuel : nat) (tempDir : path) (totalChunks : JsNumber)
    (writeStream : WriteStream) (i : Z) : M WriteStream :=
  match fuel with
  | O => ret writeStream
  | S fuel' =>
      if js_lt (Num i) totalChunks then
        let chunkPath := path_join tempDir [chunk_name i] in
        present ← existsSync chunkPath;
        if negb present then throw (Error ("Missing chunk " +:+ pretty i))
        else
          chunkData ← readFile chunkPath;
          let writeStream := ws_after_await writeStream in
          ws_write writeStream chunkData;;
          assemble_loop fuel' tempDir totalChunks writeStream (i + 1)
      else ret writeStream
  end.

Definition for_chunks (tempDir : path) (totalChunks : JsNumber)
    (writeStream : WriteStream) (i : Z) : M WriteStream :=
  assemble_loop (trips totalChunks i) tempDir totalChunks writeStream i.

(** How the loop can end: with an exception, or handing back the stream,
    which has seen an [await] when the loop went round at least once. *)
Definition loop_outcome (ws : WriteStream) (iterated : bool)
    (r : Exn + WriteStream) : Prop :=
  (∃ msg, r = inl (Error msg)) ∨
  r = inr (if iterated then ws_after_await ws else ws).

(** ** [POST] of [src/app/api/finalize-upload/route.ts]

    [tempDir] is declared outside the [try] and assigned inside it; no
    statement before the assignment throws on a request of this type, so
    the handler of the outer [catch] always finds it set.  A run that
    ends in [inl Unsettled] is a request that never gets its response. *)

Module RouteTs.

Definition POST (env : Env) (request : FinalizeRequest) : M Response :=
  if js_gt (totalChunks request) (Num MAX_CHUNKS)
     || js_lt (totalChunks request) (Num 1)
  then ret (json_error "Invalid totalChunks" 400)
  else
    let safeUploadId := replace_outside is_id_char (uploadId request) in
    let safeFileName := basename (fileName request) in
    let tempDir := path_join (os_tmpdir env) ["uploads"; safeUploadId] in
    let uploadsDir := path_join (process_cwd env) ["public"; "uploads"] in
    try_catch
      (mkdir uploadsDir;;
       let finalFilePath := path_join uploadsDir [safeFileName] in
       present ← existsSync tempDir;
       if negb present
       then ret (json_error "Upload session not found" 404)
       else
         writeStream ← createWriteStream finalFilePath;
         try_finally
           (writeStream ← for_chunks tempDir (totalChunks request) writeStream 0;
            ws_end_and_wait writeStream)
           (ws_destroy writeStream;;
            rm tempDir);;
         ret (mkResponse 200 (BSuccessPath ("/uploads/" +:+ safeFileName))))
      (λ _,
         try_catch (rm tempDir) (λ _, ret ());;
         ret (json_error "Assembly failed" 500)).

End RouteTs.

(** ** [POST] of [src/unnamed/part_001]

    The same handler, with the deletion in the [finally] block wrapped in
    a [try]/[catch] of its own. *)

Module Part001.

Definition POST (env : Env) (request : FinalizeRequest) : M Response :=
  if js_gt (totalChunks request) (Num MAX_CHUNKS)
     || js_lt (totalChunks request) (Num 1)
  then ret (json_error "Invalid totalChunks" 400)
  else
    let safeUploadId := replace_outside is_id_char (uploadId request) in
    let safeFileName := basename (fileName request) in
    let tempDir := path_join (os_tmpdir env) ["uploads"; safeUploadId] in
    let uploadsDir := path_join (process_cwd env) ["public"; "uploads"] in
    try_catch
      (mkdir uploadsDir;;
       let finalFilePath := path_join uploadsDir [safeFileName] in
       present ← existsSync tempDir;
       if negb present
       then ret (json_error "Upload session not found" 404)
       else
         writeStream ← createWriteStream finalFilePath;
         try_finally
           (writeStream ← for_chunks tempDir (totalChunks request) writeStream 0;
            ws_end_and_wait writeStream)
           (ws_destroy writeStream;;
            try_catch (rm tempDir) (λ _, ret ()));;
         ret (mkResponse 200 (BSuccessPath ("/uploads/" +:+ safeFileName))))
      (λ _,
         try_catch (rm tempDir) (λ _, ret ());;
         ret (json_error "Assembly failed" 500)).

End Part001.

(** ** The two handlers as one

    [finalize_with] is the text both handlers share, with the statement
    that deletes the staging directory in the [finally] block left open. *)

Inductive cleanup_style :=
  | Bare      (* route.ts:    await rm(tempDir, ...)              *)
  | Guarded.  (* part_001:    try { await rm(tempDir, ...) } catch *)

Definition rm_quietly (p : path) : M unit :=
  try_catch (rm p) (λ _, ret ()).

Definition cleanup (c : cleanup_style) (p : path) : M unit :=
  match c with
  | Bare => rm p
  | Guarded => rm_quietly p
  end.

Definition tempDir_of (env : Env) (id : string) : path :=
  path_join (os_tmpdir env) ["uploads"; replace_outside is_id_char id].

Definition uploadsDir_of (env : Env) : path :=
  path_join (process_cwd env) ["public"; "uploads"].

Definition finalFilePath_of (env : Env) (name : string) : path :=
  path_join (uploadsDir_of env) [basename name].

Definition accepted (total : JsNumber) : bool :=
  negb (js_gt total (Num MAX_CHUNKS) || js_lt total (Num 1)).

Definition assemble (c : cleanup_style) (env : Env) (request : FinalizeRequest)
  : M Response :=
  mkdir (uploadsDir_of env);;
  present ← existsSync (tempDir_of env (uploadId request));
  if negb present
  then ret (json_error "Upload session not found" 404)
  else
    writeStream ← createWriteStream (finalFilePath_of env (fileName request));
    try_finally
      (writeStream ← for_chunks (tempDir_of env (uploadId request))
                       (totalChunks request) writeStream 0;
       ws_end_and_wait writeStream)
      (ws_destroy writeStream;;
       cleanup c (tempDir_of env (uploadId request)));;
    ret (mkResponse 200
           (BSuccessPath ("/uploads/" +:+ basename (fileName request)))).

Definition finalize_with (c : cleanup_style) (env : Env)
    (request : FinalizeRequest) : M Response :=
  if accepted (totalChunks request)
  then
    try_catch (assemble c env request)
      (λ _,
         rm_quietly (tempDir_of env (uploadId request));;
         ret (json_error "Assembly failed" 500))
  else ret (json_error "Invalid totalChunks" 400).

(** ** Predicates on strings *)

Fixpoint all_chars (P : ascii → bool) (s : string) : bool :=
  match s with
  | EmptyString => true
  | String c r => P c && all_chars P r
  end.

Definition no_slash (s : string) : Prop :=
  all_chars (λ c, negb (is_slash c)) s = true.

(** A single, ordinary path component. *)
Definition plain (seg : string) : Prop :=
  no_slash seg ∧ seg ≠ "" ∧ seg ≠ "." ∧ seg ≠ "..".

(** [^[A-Za-z0-9_-]+$] *)
Definition valid_id (s : string) : Prop :=
  s ≠ "" ∧ all_chars is_id_char s = true.


(** ** Predicates on the file system *)

(** [mkdir -p p] can succeed: no component of [p] is a regular file. *)
Definition creatable (fs : gmap path node) (p : path) : Prop :=
  ∀ q d, q `prefix_of` p → fs !! q ≠ Some (File d).

(** What a successful [mkdir -p p] turns [fs] into: the components of [p]
    are directories, and nothing else changed. *)
Definition made (p : path) (fs fs' : gmap path node) : Prop :=
  (∀ q, q ≠ [] → q `prefix_of` p → fs' !! q = Some Dir) ∧
  (∀ q, fs' !! q = fs !! q ∨
        (fs !! q = None ∧ fs' !! q = Some Dir ∧ q `prefix_of` p ∧ q ≠ [])).

(** Nothing is left at or below [p]. *)
Definition gone (p : path) (fs : gmap path node) : Prop :=
  ∀ q, p `prefix_of` q → fs !! q = None.

(** Every entry sits in a directory. *)
Definition well_formed (fs : gmap path node) : Prop :=
  ∀ p, is_Some (fs !! p) → p ≠ [] ∧ stat fs (parent p) = Some Dir.

(** [m] leaves a well-formed file system well-formed. *)
Definition keeps_well_formed {A} (m : M A) : Prop :=
  ∀ s, well_formed (files s) → well_formed (files (m s).2).

(** The first call of [rm] does not throw. *)
Definition first_rm_ok (s : Disk) : Prop := head (rm_faults s) ≠ Some true.

(** The staging directory of the request's session lies neither at or
    above the destination root nor at or above the destination file. *)
Definition apart (env : Env) (request : FinalizeRequest) : Prop :=
  ¬ tempDir_of env (uploadId request) `prefix_of` uploadsDir_of env ∧
  ¬ tempDir_of env (uploadId request)
      `prefix_of` finalFilePath_of env (fileName request).

(** The destination file can be written: its name is an ordinary one and
    no directory sits at its path. *)
Definition writable (env : Env) (request : FinalizeRequest)
    (fs : gmap path node) : Prop :=
  plain (basename (fileName request)) ∧
  fs !! finalFilePath_of env (fileName request) ≠ Some Dir.

(** ** Sessions: a client uploading chunks *)

(** The form the README's client sends for chunk [i]: the index goes out
    as [i.toString()]. *)
Definition chunk_form (id : string) (i : Z) (payload : list Byte.byte)
  : UploadChunk.Form :=
  UploadChunk.mkForm (UploadChunk.FFile payload)
                     (UploadChunk.FString (pretty i))
                     (UploadChunk.FString id).

(** One receive per entry of [order], in that order; the responses are
    collected. *)
Fixpoint upload_each (env : Env) (id : string) (payload : Z → list Byte.byte)
    (order : list Z) (s : Disk) : list (Exn + Response) * Disk :=
  match order with
  | [] => ([], s)
  | i :: rest =>
      let '(r, s1) := UploadChunk.POST env (chunk_form id i (payload i)) s in
      let '(rs, s2) := upload_each env id payload rest s1 in
      (r :: rs, s2)
  end.

(** The staging area can take the chunks of [order]: the session's
    directory can be made, and no directory sits where a chunk goes. *)
Definition staging_ready (env : Env) (id : string) (order : list Z)
    (fs : gmap path node) : Prop :=
  creatable fs (tempDir_of env id) ∧
  ∀ j, j ∈ order → fs !! (tempDir_of env id ++ [chunk_name j]) ≠ Some Dir.

(** The destination can take the file: the root can be made, the file can
    be written, and the file's path is not a directory on the way to the
    staging directory. *)
Definition destination_ready (env : Env) (request : FinalizeRequest)
    (fs : gmap path node) : Prop :=
  creatable fs (uploadsDir_of env) ∧
  writable env request fs ∧
  ¬ finalFilePath_of env (fileName request)
      `prefix_of` tempDir_of env (uploadId request).

(** ** A worked session

    The scenario of the design document: temporary files under [/tmp],
    the application in [/app], session [abc-1] with the chunks [AAAA] and
    [BB], assembled into [out.bin]. *)

Definition env0 : Env := mkEnv ["tmp"] ["app"].

Definition disk0 : Disk := mkDisk ∅ [].

Definition payload0 (j : Z) : list Byte.byte :=
  if j =? 0 then [Byte.x41; Byte.x41; Byte.x41; Byte.x41]
  else [Byte.x42; Byte.x42].

Definition request0 : FinalizeRequest := mkFinalize "abc-1" "out.bin" (Num 2).

(** Both chunks received. *)
Definition staged0 : Disk := (upload_each env0 "abc-1" payload0 [0; 1] disk0).2.

(** Only chunk 0 received. *)
Definition partly0 : Disk := (upload_each env0 "abc-1" payload0 [0] disk0).2.

(** Both chunks received, and the first deletion is going to fail. *)
Definition faulty0 : Disk := mkDisk (files staged0) [true].

(** A decidable reading of [creatable]. *)
Definition no_file_on (fs : gmap path node) (p : path) : bool :=
  forallb (λ n, match fs !! take n p with
                | Some (File _) => false
                | _ => true
                end)
          (seq 0 (S (length p))).

(** A finalize attempt with no session behind it. *)
Definition request_nosuch : FinalizeRequest := mkFinalize "nosuch" "out.bin" (Num 1).

(** ** Outcomes of a finalize handler *)

Definition success_response (request : FinalizeRequest) : Response :=
  mkResponse 200 (BSuccessPath ("/uploads/" +:+ basename (fileName request))).

(** [run] succeeds on [s]: it answers 200 with the public path, the
    destination file holds [content], and the staging directory of the
    session is gone. *)
Definition assembled (run : M Response) (env : Env) (request : FinalizeRequest)
    (content : list Byte.byte) (s : Disk) : Prop :=
  ∃ s', run s = (inr (success_response request), s') ∧
    files s' !! finalFilePath_of env (fileName request) = Some (File content) ∧
    gone (tempDir_of env (uploadId request)) (files s') ∧
    existsSync (tempDir_of env (uploadId request)) s' = (inr false, s').

(** [run] fails on [s] for want of a chunk: it answers 500 "Assembly
    failed", the staging directory of the session is gone, and, when
    chunks [0 .. m-1] were there and chunk [m] was not and the
    destination could be written, the destination file is left holding
    chunks [0 .. m-1]. *)
Definition truncated (run : M Response) (env : Env) (request : FinalizeRequest)
    (s : Disk) : Prop :=
  ∃ s', run s = (inr (json_error "Assembly failed" 500), s') ∧
    gone (tempDir_of env (uploadId request)) (files s') ∧
    existsSync (tempDir_of env (uploadId request)) s' = (inr false, s') ∧
    ∀ m (d : Z → list Byte.byte),
      (∀ j, 0 ≤ j < m →
         files s !! (tempDir_of env (uploadId request) ++ [chunk_name j])
           = Some (File (d j))) →
      files s !! (tempDir_of env (uploadId request) ++ [chunk_name m]) = None →
      0 ≤ m →
      creatable (files s) (uploadsDir_of env) →
      writable env request (files s) →
      files s' !! finalFilePath_of env (fileName request)
        = Some (File (concat (d <$> seqZ 0 m))).

(** Whatever [run] does on [s] and however it ends, every file found
    afterwards was there before, unchanged, or is the destination file,
    directly below the destination root under an ordinary name. *)
Definition confined (run : M Response) (env : Env) (request : FinalizeRequest)
    (s : Disk) : Prop :=
  ∀ q d, files (run s).2 !! q = Some (File d) →
    files s !! q = Some (File d) ∨
    (q = uploadsDir_of env ++ [basename (fileName request)] ∧
     plain (basename (fileName request))).

(** Requests used as examples. *)
Definition request_passwd : FinalizeRequest :=
  mkFinalize "abc-1" "../../etc/passwd" (Num 2).

Definition request_dotdot : FinalizeRequest :=
  mkFinalize "abc-1" ".." (Num 2).

Definition request_bad_id : FinalizeRequest :=
  mkFinalize "abc-1!" "out.bin" (Num 2).

Definition form_empty_payload : UploadChunk.Form :=
  UploadChunk.mkForm (UploadChunk.FFile []) (UploadChunk.FString "0")
                     (UploadChunk.FString "abc-1").

Definition form_bad_id : UploadChunk.Form :=
  UploadChunk.mkForm (UploadChunk.FFile [Byte.x41]) (UploadChunk.FString "0")
                     (UploadChunk.FString "abc-1!").

(** ** Further notions used by the properties beyond the claims *)

(** The bytes of chunk [j] of the session staged at [T]; nothing when the
    chunk is not a regular file. *)
Definition chunk_data (fs : gmap path node) (T : path) (j : Z)
  : list Byte.byte :=
  match fs !! (T ++ [chunk_name j]) with
  | Some (File d) => d
  | _ => []
  end.

(** One receive per entry of [ups], in that order: each entry is an index
    and the payload sent for it, so an index may come again with other
    bytes. *)
Fixpoint upload_seq (env : Env) (id : string)
    (ups : list (Z * list Byte.byte)) (s : Disk)
  : list (Exn + Response) * Disk :=
  match ups with
  | [] => ([], s)
  | (i, b) :: rest =>
      let '(r, s1) := UploadChunk.POST env (chunk_form id i b) s in
      let '(rs, s2) := upload_seq env id rest s1 in
      (r :: rs, s2)
  end.

(** The payload sent last for index [j], if any was. *)
Fixpoint latest (ups : list (Z * list Byte.byte)) (j : Z)
  : option (list Byte.byte) :=
  match ups with
  | [] => None
  | (i, b) :: rest =>
      match latest rest j with
      | Some b' => Some b'
      | None => if decide (i = j) then Some b else None
      end
  end.

(** The four answers of a finalize handler. *)
Definition finalize_answer (request : FinalizeRequest) (r : Response) : Prop :=
  r = success_response request ∨
  r = json_error "Invalid totalChunks" 400 ∨
  r = json_error "Upload session not found" 404 ∨
  r = json_error "Assembly failed" 500.

(** The handler comes to answer on [s]. *)
Definition answers (run : M Response) (s : Disk) : Prop :=
  ∃ r s', run s = (inr r, s').

(** How the run of a finalize handler on [s] ends: with one of the four
    answers; or never, which takes a total of at least one, every chunk
    below it in place and a destination that cannot be written, and
    leaves every entry of the disk where it was. *)
Definition finalize_outcome (run : M Response) (env : Env)
    (request : FinalizeRequest) (s : Disk) : Prop :=
  ∃ r s', run s = (r, s') ∧
    ((∃ resp, r = inr resp ∧ finalize_answer request resp) ∨
     (r = inl Unsettled ∧
      (∃ n, totalChunks request = Num n ∧ 1 ≤ n ≤ MAX_CHUNKS ∧
         ∀ j, 0 ≤ j < n →
           ∃ d, files s !! (tempDir_of env (uploadId request) ++ [chunk_name j])
                  = Some (File d)) ∧
      ¬ writable env request (files s) ∧
      (∀ q x, files s !! q = Some x → files s' !! q = Some x))).

(** The number of chunks the loop asks for on an accepted total: [n] for
    the number [n], none for [NaN], where the guard [i < totalChunks] is
    false from the start. *)
Definition asked (total : JsNumber) : Z :=
  match total with
  | Num z => z
  | NaN => 0
  end.

(** Whatever [run] does on [s] and however it ends, a path that is
    neither at or below the staging directory of the request nor the
    destination file holds afterwards what it held before, unless it is
    a directory newly made on the way to the destination root. *)
Definition framed (run : M Response) (env : Env) (request : FinalizeRequest)
    (s : Disk) : Prop :=
  ∀ q, ¬ tempDir_of env (uploadId request) `prefix_of` q →
       q ≠ finalFilePath_of env (fileName request) →
       files (run s).2 !! q = files s !! q ∨
       (files s !! q = None ∧ files (run s).2 !! q = Some Dir ∧
        q `prefix_of` uploadsDir_of env).

(** Both chunks staged, but a regular file sits at [/app/public]. *)
Definition blocked0 : Disk :=
  mkDisk (<[["app"; "public"] := File []]> (<[["app"] := Dir]> (files staged0)))
         [].

(** A regular file sits at [/tmp]. *)
Definition notmp0 : Disk := mkDisk {[ ["tmp"] := File [] ]} [].

(** A directory sits where chunk 0 of session [abc-1] goes. *)
Definition chunkdir0 : Disk :=
  mkDisk (<[["tmp"; "uploads"; "abc-1"; "chunk_0"] := Dir]>
            (<[["tmp"; "uploads"; "abc-1"] := Dir]>
               (<[["tmp"; "uploads"] := Dir]> {[ ["tmp"] := Dir ]})))
         [].

(** Chunk 0 sent twice, with different bytes, around chunk 1. *)
Definition resent0 : list (Z * list Byte.byte) :=
  [(0, [Byte.x58]); (1, [Byte.x42; Byte.x42]);
   (0, [Byte.x41; Byte.x41; Byte.x41; Byte.x41])].
(** * Properties *)

(** ** Facts about strings *)

Lemma RouteTs_POST_eq env request :
  RouteTs.POST env request = finalize_with Bare env request.
Proof.
  unfold RouteTs.POST, finalize_with, accepted.
  destruct (js_gt _ _ || js_lt _ _); reflexivity.
Qed.

Lemma Part001_POST_eq env request :
  Part001.POST env request = finalize_with Guarded env request.
Proof.
  unfold Part001.POST, finalize_with, accepted.
  destruct (js_gt _ _ || js_lt _ _); reflexivity.
Qed.

Lemma all_chars_app P s t :
  all_chars P (s +:+ t) = all_chars P s && all_chars P t.
Proof.
  induction s as [|c s IH]; simpl; [done|].
  rewrite IH. by rewrite andb_assoc.
Qed.

Lemma all_chars_impl (P Q : ascii → bool) s :
  (∀ c, P c = true → Q c = true) →
  all_chars P s = true → all_chars Q s = true.
Proof.
  intros HPQ. induction s as [|c s IH]; simpl; [done|].
  intros [Hc Hs]%andb_true_iff. rewrite (HPQ _ Hc), IH; done.
Qed.

Lemma replace_outside_all keep s :
  all_chars keep (replace_outside keep s) = true.
Proof.
  induction s as [|c s IH]; simpl; [done|].
  destruct (keep c) eqn:Hc; simpl; [by rewrite Hc|done].
Qed.

Lemma replace_outside_length keep s :
  (String.length (replace_outside keep s) ≤ String.length s)%nat.
Proof.
  induction s as [|c s IH]; simpl; [done|].
  destruct (keep c); simpl; lia.
Qed.

Lemma replace_outside_fixed keep s :
  replace_outside keep s = s ↔ all_chars keep s = true.
Proof.
  induction s as [|c s IH]; simpl; [done|].
  destruct (keep c) eqn:Hc; simpl.
  - rewrite <- IH. split; [by intros [= ?]|by intros ->].
  - split; [|done]. intros Heq.
    pose proof (replace_outside_length keep s) as Hlen.
    rewrite Heq in Hlen. simpl in Hlen. lia.
Qed.

Lemma replace_outside_idemp keep s :
  replace_outside keep (replace_outside keep s) = replace_outside keep s.
Proof. apply replace_outside_fixed, replace_outside_all. Qed.

Lemma id_char_not_slash c : is_id_char c = true → negb (is_slash c) = true.
Proof.
  destruct c as [[] [] [] [] [] [] [] []]; vm_compute; congruence.
Qed.

Lemma digit_char_is_id c : is_digit_char c = true → is_id_char c = true.
Proof.
  destruct c as [[] [] [] [] [] [] [] []]; vm_compute; congruence.
Qed.

Lemma id_chars_no_slash s : all_chars is_id_char s = true → no_slash s.
Proof. apply all_chars_impl, id_char_not_slash. Qed.

Lemma id_chars_not_dots s :
  all_chars is_id_char s = true → s ≠ "." ∧ s ≠ "..".
Proof. split; intros ->; discriminate. Qed.

Lemma split_slash_no_slash s : no_slash s → split_slash s = [s].
Proof.
  unfold no_slash. induction s as [|c s IH]; simpl; [done|].
  intros [Hc Hs]%andb_true_iff.
  destruct (is_slash c); [done|]. by rewrite (IH Hs).
Qed.

Lemma path_join_one base seg :
  no_slash seg → path_join base [seg] = normalize_step base seg.
Proof.
  intros H. unfold path_join. simpl. rewrite (split_slash_no_slash _ H). done.
Qed.

Lemma normalize_step_plain base seg :
  plain seg → normalize_step base seg = base ++ [seg].
Proof.
  intros (_ & ? & ? & ?). unfold normalize_step.
  rewrite decide_False by (intros [?|?]; done).
  by rewrite decide_False.
Qed.

Lemma path_join_plain base segs :
  Forall plain segs → path_join base segs = base ++ segs.
Proof.
  unfold path_join. intros H. revert base.
  induction H as [|seg segs Hseg _ IH]; intros base; simpl.
  - by rewrite app_nil_r.
  - rewrite (split_slash_no_slash seg) by apply Hseg. simpl.
    rewrite normalize_step_plain by done.
    rewrite IH. by rewrite <- app_assoc.
Qed.

(** Decimal numerals. *)

Lemma pretty_N_char_digit x : is_digit_char (pretty_N_char x) = true.
Proof. unfold pretty_N_char. by repeat case_match. Qed.

Lemma pretty_N_go_digits x s :
  all_chars is_digit_char s = true →
  all_chars is_digit_char (pretty_N_go x s) = true.
Proof.
  revert s. induction (N.lt_wf_0 x) as [x _ IH]; intros s Hs.
  destruct (decide (x = 0)%N) as [->|Hx].
  - by rewrite pretty_N_go_0.
  - rewrite pretty_N_go_step by lia. apply IH.
    + apply N.div_lt; lia.
    + simpl. by rewrite pretty_N_char_digit, Hs.
Qed.

Lemma pretty_N_go_nonempty x s : s ≠ "" → pretty_N_go x s ≠ "".
Proof.
  revert s. induction (N.lt_wf_0 x) as [x _ IH]; intros s Hs.
  destruct (decide (x = 0)%N) as [->|Hx].
  - by rewrite pretty_N_go_0.
  - rewrite pretty_N_go_step by lia. apply IH; [apply N.div_lt; lia|done].
Qed.

Lemma pretty_N_digits (x : N) :
  all_chars is_digit_char (pretty x) = true ∧ pretty x ≠ "".
Proof.
  unfold pretty, pretty_N. case_decide; [done|]. split.
  - by apply pretty_N_go_digits.
  - rewrite pretty_N_go_step by lia. by apply pretty_N_go_nonempty.
Qed.

Lemma pretty_Z_digits (i : Z) :
  0 ≤ i → all_chars is_digit_char (pretty i) = true ∧ pretty i ≠ "".
Proof.
  intros Hi. destruct i as [|p|p]; [done| |lia].
  apply (pretty_N_digits (N.pos p)).
Qed.

Lemma chunk_prefix_plain s :
  all_chars is_digit_char s = true → plain ("chunk_" +:+ s).
Proof.
  intros Hs. repeat split; try discriminate.
  unfold no_slash. rewrite all_chars_app. apply andb_true_iff. split; [done|].
  eapply all_chars_impl; [|exact Hs].
  intros c Hc. by apply id_char_not_slash, digit_char_is_id.
Qed.

Lemma chunk_name_plain i : 0 ≤ i → plain (chunk_name i).
Proof. intros Hi. apply chunk_prefix_plain, pretty_Z_digits, Hi. Qed.

Lemma chunk_name_inj i j : chunk_name i = chunk_name j → i = j.
Proof.
  unfold chunk_name. intros H. simpl in H.
  injection H as H. by apply (inj pretty).
Qed.

Lemma chunk_path i tempDir :
  0 ≤ i → path_join tempDir [chunk_name i] = tempDir ++ [chunk_name i].
Proof.
  intros Hi. apply path_join_plain. constructor; [|done].
  by apply chunk_name_plain.
Qed.

(** The staging directory of a session. *)

Lemma tempDir_of_eq env id :
  tempDir_of env id =
    os_tmpdir env ++ "uploads" ::
      (if decide (replace_outside is_id_char id = "") then []
       else [replace_outside is_id_char id]).
Proof.
  unfold tempDir_of, path_join. simpl.
  pose proof (replace_outside_all is_id_char id) as Hall.
  rewrite (split_slash_no_slash (replace_outside _ _))
    by by apply id_chars_no_slash.
  simpl. rewrite (normalize_step_plain _ "uploads") by (repeat split; done).
  unfold normalize_step.
  destruct (id_chars_not_dots _ Hall) as [Hdot Hdots].
  destruct (decide (replace_outside is_id_char id = "")) as [Hempty|Hfull].
  - rewrite decide_True by by left. done.
  - rewrite decide_False by (intros [?|?]; done).
    rewrite decide_False by done. by rewrite <- app_assoc.
Qed.

Lemma tempDir_of_valid env id :
  valid_id id → tempDir_of env id = os_tmpdir env ++ ["uploads"; id].
Proof.
  intros [Hne Hall]. rewrite tempDir_of_eq.
  rewrite (proj2 (replace_outside_fixed _ _) Hall).
  by case_decide.
Qed.

Lemma tempDir_of_nonempty env id : tempDir_of env id ≠ [].
Proof. rewrite tempDir_of_eq. by destruct (os_tmpdir env). Qed.

Lemma uploadsDir_of_eq env :
  uploadsDir_of env = process_cwd env ++ ["public"; "uploads"].
Proof.
  apply path_join_plain. repeat constructor; done.
Qed.

(** [path.basename] never returns a slash. *)

Lemma upto_slash_no_slash l :
  Forall (λ c, is_slash c = false) (upto_slash l).
Proof.
  induction l as [|c l IH]; simpl; [constructor|].
  destruct (is_slash c) eqn:Hc; by constructor.
Qed.

Lemma no_slash_of_list l :
  Forall (λ c, is_slash c = false) l → no_slash (string_of_list_ascii l).
Proof.
  unfold no_slash. induction 1 as [|c l Hc _ IH]; simpl; [done|].
  by rewrite Hc, IH.
Qed.

Lemma basename_no_slash p : no_slash (basename p).
Proof.
  apply no_slash_of_list. unfold reverse.
  apply Forall_reverse, upto_slash_no_slash.
Qed.

Lemma finalFilePath_of_eq env name :
  finalFilePath_of env name = normalize_step (uploadsDir_of env) (basename name).
Proof. apply path_join_one, basename_no_slash. Qed.

Lemma finalFilePath_of_plain env name :
  plain (basename name) →
  finalFilePath_of env name = uploadsDir_of env ++ [basename name].
Proof.
  intros H. rewrite finalFilePath_of_eq. by apply normalize_step_plain.
Qed.

(** ** Facts about the file system operations *)

Lemma prefix_snoc_inv {A} (q l : list A) (x : A) :
  q `prefix_of` l ++ [x] → q `prefix_of` l ∨ q = l ++ [x].
Proof.
  intros [k Hk].
  destruct k as [|y k _] using rev_ind.
  - right. by rewrite app_nil_r in Hk.
  - left. rewrite app_assoc in Hk. apply app_inj_tail in Hk as [-> _].
    by apply prefix_app_r.
Qed.

(** [mkdir -p] only ever adds directories, along the path it is given. *)
Lemma mkdir_go_grows rest : ∀ pre fs fs',
  mkdir_go pre rest fs = Some fs' →
  ∀ q, fs' !! q = fs !! q ∨
       (fs !! q = None ∧ fs' !! q = Some Dir ∧
        ∃ r, r ≠ [] ∧ r `prefix_of` rest ∧ q = pre ++ r).
Proof.
  induction rest as [|c rest IH]; intros pre fs fs'; simpl.
  - intros [= ->] q. by left.
  - assert (Hlift : ∀ r, r ≠ [] ∧ r `prefix_of` rest →
              c :: r ≠ [] ∧ c :: r `prefix_of` c :: rest ∧
              (pre ++ [c]) ++ r = pre ++ c :: r).
    { intros r [? ?]. split; [done|]. split; [by apply prefix_cons|].
      by rewrite <- app_assoc. }
    destruct (fs !! (pre ++ [c])) as [[|d]|] eqn:Hc; [|done|].
    + intros Hgo q.
      destruct (IH _ _ _ Hgo q) as [?|(? & ? & r & Hr & Hpre & ->)]; [by left|].
      right. split; [done|]. split; [done|]. exists (c :: r).
      destruct (Hlift r) as (? & ? & ?); done.
    + intros Hgo q.
      destruct (IH _ _ _ Hgo q) as [Heq|(Hnone & Hd & r & Hr & Hpre & ->)].
      * destruct (decide (q = pre ++ [c])) as [->|Hne].
        -- right. rewrite Heq, lookup_insert_eq. split; [done|]. split; [done|].
           exists [c]. split; [done|]. split; [|done].
           by apply prefix_cons, prefix_nil.
        -- left. by rewrite Heq, lookup_insert_ne.
      * right. rewrite lookup_insert_ne in Hnone.
        -- split; [done|]. split; [done|]. exists (c :: r).
           destruct (Hlift r) as (? & ? & ?); done.
        -- intros Heq. apply (f_equal length) in Heq.
           rewrite !length_app in Heq. destruct r; [done|]. simpl in Heq. lia.
Qed.

Lemma mkdir_go_dirs rest : ∀ pre fs fs',
  mkdir_go pre rest fs = Some fs' →
  ∀ r, r ≠ [] → r `prefix_of` rest → fs' !! (pre ++ r) = Some Dir.
Proof.
  induction rest as [|c rest IH]; intros pre fs fs'; simpl.
  - intros _ r Hr Hpre. by apply prefix_nil_inv in Hpre.
  - intros Hgo r Hr Hpre. destruct r as [|c' r]; [done|].
    pose proof (prefix_cons_inv_1 _ _ _ _ Hpre) as ->.
    apply prefix_cons_inv_2 in Hpre.
    assert (∃ fs1, mkdir_go (pre ++ [c]) rest fs1 = Some fs' ∧
                   fs1 !! (pre ++ [c]) = Some Dir) as (fs1 & Hgo1 & Hc1).
    { destruct (fs !! (pre ++ [c])) as [[|d]|] eqn:Hc; [by eauto|done|].
      eexists. split; [done|]. by rewrite lookup_insert_eq. }
    destruct r as [|c'' r].
    + destruct (mkdir_go_grows _ _ _ _ Hgo1 (pre ++ [c])) as [?|(? & ? & _)];
        congruence.
    + specialize (IH _ _ _ Hgo1 (c'' :: r)). rewrite <- app_assoc in IH.
      by apply IH.
Qed.

Lemma mkdir_go_succeeds rest : ∀ pre fs,
  (∀ r d, r ≠ [] → r `prefix_of` rest → fs !! (pre ++ r) ≠ Some (File d)) →
  is_Some (mkdir_go pre rest fs).
Proof.
  induction rest as [|c rest IH]; intros pre fs Hfree; simpl; [by eauto|].
  assert (Hnext : ∀ fs1,
    (∀ q d, fs1 !! q = Some (File d) → fs !! q = Some (File d)) →
    is_Some (mkdir_go (pre ++ [c]) rest fs1)).
  { intros fs1 Hfs1. apply IH. intros r d Hr Hpre Hfile.
    apply Hfs1 in Hfile. rewrite <- app_assoc in Hfile.
    revert Hfile. apply Hfree; [done|]. by apply prefix_cons. }
  destruct (fs !! (pre ++ [c])) as [[|d]|] eqn:Hc.
  - by apply Hnext.
  - exfalso. apply (Hfree [c] d); [done| |done].
    by apply prefix_cons, prefix_nil.
  - apply Hnext. intros q d Hq.
    destruct (decide (q = pre ++ [c])) as [->|Hne].
    + by rewrite lookup_insert_eq in Hq.
    + by rewrite lookup_insert_ne in Hq.
Qed.

Lemma mkdir_cases p s :
  mkdir p s = (inl (Error "ENOTDIR"), s) ∨
  ∃ fs', mkdir p s = (inr (), mkDisk fs' (rm_faults s)) ∧ made p (files s) fs'.
Proof.
  unfold mkdir. destruct (mkdir_go [] p (files s)) as [fs'|] eqn:Hgo.
  - right. exists fs'. split; [done|]. split.
    + intros q Hq Hpre. by apply (mkdir_go_dirs _ _ _ _ Hgo q).
    + intros q.
      destruct (mkdir_go_grows _ _ _ _ Hgo q)
        as [?|(? & ? & r & ? & ? & ->)]; [by left|by right].
  - by left.
Qed.

Lemma mkdir_ok p s :
  creatable (files s) p →
  ∃ fs', mkdir p s = (inr (), mkDisk fs' (rm_faults s)) ∧ made p (files s) fs'.
Proof.
  intros Hfree.
  destruct (mkdir_go_succeeds p [] (files s)) as [fs' Hgo].
  { intros r d _ Hpre. by apply Hfree. }
  destruct (mkdir_cases p s) as [Hfail|?]; [|done].
  unfold mkdir in Hfail. by rewrite Hgo in Hfail.
Qed.

Lemma stat_snoc fs (p : path) c : stat fs (p ++ [c]) = fs !! (p ++ [c]).
Proof. by destruct p. Qed.

Lemma stat_nonempty fs (p : path) : p ≠ [] → stat fs p = fs !! p.
Proof. by destruct p. Qed.

Lemma bind_run {A B} (m : M A) (k : A → M B) s :
  (m ≫= k) s =
    match m s with
    | (inl e, s') => (inl e, s')
    | (inr a, s') => k a s'
    end.
Proof. reflexivity. Qed.

Lemma ws_write_run ws d s :
  ∃ s', ws_write ws d s = (inr (), s') ∧ rm_faults s' = rm_faults s ∧
    (∀ q, q ≠ ws_path ws → files s' !! q = files s !! q) ∧
    (ws_opened ws = false → s' = s) ∧
    (∀ old, ws_opened ws = true → files s !! ws_path ws = Some (File old) →
       files s' !! ws_path ws = Some (File (old ++ d))) ∧
    (∀ x, files s' !! ws_path ws = Some (File x) →
       ∃ y, files s !! ws_path ws = Some (File y)) ∧
    (∀ q, files s' !! q = Some Dir ↔ files s !! q = Some Dir).
Proof.
  unfold ws_write. destruct (ws_opened ws) eqn:Hop.
  - destruct (files s !! ws_path ws) as [[|old]|] eqn:Hp.
    + exists s. repeat split; eauto; congruence.
    + eexists. split; [done|]. simpl. split; [done|]. split.
      { intros q Hq. by rewrite lookup_insert_ne. }
      split; [done|]. split.
      { intros old' _ [= ->]. by rewrite lookup_insert_eq. }
      split; [by eauto|].
      intros q. destruct (decide (q = ws_path ws)) as [->|Hne].
      * rewrite lookup_insert_eq, Hp. split; congruence.
      * by rewrite lookup_insert_ne.
    + exists s. repeat split; eauto; congruence.
  - exists s. repeat split; eauto; congruence.
Qed.

Lemma ws_after_await_path ws : ws_path (ws_after_await ws) = ws_path ws.
Proof. unfold ws_after_await. by destruct (ws_opened ws). Qed.

Lemma ws_after_await_opened ws :
  ws_opened (ws_after_await ws) = ws_opened ws.
Proof. unfold ws_after_await. by destruct (ws_opened ws) eqn:H. Qed.

Lemma ws_after_await_open ws : ws_opened ws = true → ws_after_await ws = ws.
Proof. unfold ws_after_await. by intros ->. Qed.

Lemma ws_after_await_twice ws :
  ws_after_await (ws_after_await ws) = ws_after_await ws.
Proof. unfold ws_after_await. by destruct (ws_opened ws) eqn:H; rewrite ?H. Qed.

(** The loop is the [for] statement: the guard decides every step. *)
Lemma for_chunks_unfold tempDir total ws i s :
  for_chunks tempDir total ws i s =
    (if js_lt (Num i) total then
       present ← existsSync (path_join tempDir [chunk_name i]);
       if negb present then throw (Error ("Missing chunk " +:+ pretty i))
       else
         chunkData ← readFile (path_join tempDir [chunk_name i]);
         ws_write (ws_after_await ws) chunkData;;
         for_chunks tempDir total (ws_after_await ws) (i + 1)
     else ret ws) s.
Proof.
  unfold for_chunks. destruct total as [z|]; simpl.
  - destruct (i <? z) eqn:Hlt.
    + apply Z.ltb_lt in Hlt.
      replace (Z.to_nat (z - i)) with (S (Z.to_nat (z - (i + 1)))) by lia.
      simpl. apply Z.ltb_lt in Hlt. by rewrite Hlt.
    + apply Z.ltb_ge in Hlt.
      by replace (Z.to_nat (z - i)) with O by lia.
  - done.
Qed.

Lemma for_chunks_done tempDir total ws i s :
  js_lt (Num i) total = false → for_chunks tempDir total ws i s = (inr ws, s).
Proof. intros H. rewrite for_chunks_unfold, H. done. Qed.

Lemma for_chunks_missing tempDir total ws i s :
  js_lt (Num i) total = true → 0 ≤ i →
  files s !! (tempDir ++ [chunk_name i]) = None →
  for_chunks tempDir total ws i s =
    (inl (Error ("Missing chunk " +:+ pretty i)), s).
Proof.
  intros Hlt Hi Hnone. rewrite for_chunks_unfold, Hlt.
  rewrite chunk_path by done. rewrite bind_run. unfold existsSync.
  rewrite stat_snoc, Hnone.
  rewrite bool_decide_eq_false_2 by (by intros [? ?]). done.
Qed.

Lemma for_chunks_directory tempDir total ws i s :
  js_lt (Num i) total = true → 0 ≤ i →
  files s !! (tempDir ++ [chunk_name i]) = Some Dir →
  for_chunks tempDir total ws i s = (inl (Error "EISDIR"), s).
Proof.
  intros Hlt Hi Hdir. rewrite for_chunks_unfold, Hlt.
  rewrite chunk_path by done. rewrite bind_run. unfold existsSync.
  rewrite stat_snoc, Hdir.
  rewrite bool_decide_eq_true_2 by eauto. simpl.
  rewrite bind_run. unfold readFile. by rewrite stat_snoc, Hdir.
Qed.

Lemma for_chunks_step tempDir total ws i s d :
  js_lt (Num i) total = true → 0 ≤ i →
  files s !! (tempDir ++ [chunk_name i]) = Some (File d) →
  for_chunks tempDir total ws i s =
    for_chunks tempDir total (ws_after_await ws) (i + 1)
      (ws_write (ws_after_await ws) d s).2.
Proof.
  intros Hlt Hi Hfile. rewrite for_chunks_unfold, Hlt.
  rewrite chunk_path by done. rewrite bind_run. unfold existsSync.
  rewrite stat_snoc, Hfile.
  rewrite bool_decide_eq_true_2 by eauto. simpl.
  rewrite bind_run. unfold readFile at 1. rewrite stat_snoc, Hfile.
  rewrite bind_run.
  destruct (ws_write_run (ws_after_await ws) d s) as (s' & -> & _). done.
Qed.

(** The loop touches nothing but the file of its stream. *)
Lemma for_chunks_frame tempDir total ws n : ∀ i s,
  0 ≤ i → Z.to_nat (n - i) = trips total i →
  ∃ r s', for_chunks tempDir total ws i s = (r, s') ∧
    loop_outcome ws (js_lt (Num i) total) r ∧
    rm_faults s' = rm_faults s ∧
    (∀ q, q ≠ ws_path ws → files s' !! q = files s !! q) ∧
    (ws_opened ws = false → s' = s) ∧
    (∀ x, files s' !! ws_path ws = Some (File x) →
       ∃ y, files s !! ws_path ws = Some (File y)) ∧
    (∀ q, files s' !! q = Some Dir ↔ files s !! q = Some Dir).
Proof.
  intros i. remember (trips total i) as k eqn:Hk. revert ws i Hk.
  induction k as [|k IH]; intros ws i Hk s Hi Hn.
  - assert (js_lt (Num i) total = false) as Hlt.
    { destruct total as [z|]; simpl in *; [|done]. apply Z.ltb_ge. lia. }
    exists (inr ws), s. rewrite for_chunks_done by done. rewrite Hlt.
    split; [done|]. split; [by right|]. by eauto 10.
  - assert (js_lt (Num i) total = true) as Hlt.
    { destruct total as [z|]; simpl in *; [|done]. apply Z.ltb_lt. lia. }
    rewrite Hlt.
    destruct (files s !! (tempDir ++ [chunk_name i])) as [[|d]|] eqn:Hc.
    + rewrite for_chunks_directory by done.
      eexists _, _. split; [done|]. split; [left; by eauto|]. by eauto 10.
    + rewrite (for_chunks_step _ _ _ _ _ d) by done.
      destruct (ws_write_run (ws_after_await ws) d s)
        as (s1 & -> & Hf1 & Hq1 & Hcl1 & _ & Hx1 & Hd1).
      rewrite ws_after_await_path, ws_after_await_opened in *.
      simpl.
      destruct (IH (ws_after_await ws) (i + 1)) with (s := s1)
        as (r & s' & -> & Hout & Hf & Hq & Hcl & Hx & Hd).
      { destruct total as [z|]; simpl in *; lia. }
      { lia. }
      { destruct total as [z|]; simpl in *; lia. }
      rewrite ws_after_await_path, ws_after_await_opened in *.
      exists r, s'. split; [done|]. split.
      { destruct Hout as [?| ->]; [by left|right].
        rewrite ws_after_await_twice. by destruct (js_lt (Num (i + 1)) total). }
      split; [congruence|]. split.
      { intros q Hne. rewrite Hq, Hq1; done. }
      split.
      { intros Hop. rewrite Hcl, Hcl1; done. }
      split.
      { intros x Hxs. apply Hx in Hxs as [y Hy]. by apply Hx1 in Hy. }
      intros q. by rewrite Hd, Hd1.
    + rewrite for_chunks_missing by done.
      eexists _, _. split; [done|]. split; [left; by eauto|]. by eauto 10.
Qed.

Lemma trips_exists total i : ∃ n, Z.to_nat (n - i) = trips total i.
Proof.
  destruct total as [z|]; simpl; [by exists z|]. exists i. lia.
Qed.

(** Chunks [i .. m-1] are there: the loop appends them, in order, and
    goes on from [m]. *)
Lemma for_chunks_run tempDir total p (d : Z → list Byte.byte) m : ∀ k i s old,
  k = Z.to_nat (m - i) → 0 ≤ i ≤ m →
  (∀ j, i ≤ j < m → js_lt (Num j) total = true) →
  ¬ tempDir `prefix_of` p →
  files s !! p = Some (File old) →
  (∀ j, i ≤ j < m → files s !! (tempDir ++ [chunk_name j]) = Some (File (d j))) →
  ∃ s', for_chunks tempDir total (mkStream p true false) i s
          = for_chunks tempDir total (mkStream p true false) m s' ∧
    rm_faults s' = rm_faults s ∧
    files s' !! p = Some (File (old ++ concat (d <$> seqZ i (m - i)))) ∧
    (∀ q, q ≠ p → files s' !! q = files s !! q).
Proof.
  induction k as [|k IH]; intros i s old Hk Him Hlt Hsep Hp Hchunks.
  - assert (i = m) as -> by lia. exists s.
    rewrite Z.sub_diag. simpl. rewrite app_nil_r. done.
  - rewrite (for_chunks_step _ _ _ _ _ (d i)); [|apply Hlt; lia|lia|apply Hchunks; lia].
    rewrite ws_after_await_open by done.
    destruct (ws_write_run (mkStream p true false) (d i) s)
      as (s1 & -> & Hf1 & Hq1 & _ & Hw1 & _).
    simpl in *.
    destruct (IH (i + 1) s1 (old ++ d i)) as (s' & -> & Hf & Hcontent & Hq).
    { lia. } { lia. } { intros j Hj. apply Hlt. lia. } { done. }
    { by apply Hw1. }
    { intros j Hj. rewrite Hq1; [apply Hchunks; lia|].
      intros <-. apply Hsep. by apply prefix_app_r. }
    exists s'. split; [done|]. split; [congruence|]. split.
    + rewrite Hcontent. f_equal. f_equal.
      rewrite (seqZ_cons i) by lia. simpl.
      rewrite <- app_assoc.
      replace (Z.succ i) with (i + 1) by lia.
      replace (Z.pred (m - i)) with (m - (i + 1)) by lia. done.
    + intros q Hne. rewrite Hq, Hq1; done.
Qed.

(** A chunk below the claimed total is absent: the loop throws. *)
Lemma for_chunks_throws tempDir n ws k0 : ∀ k i s,
  k = Z.to_nat (k0 - i) → 0 ≤ i ≤ k0 → k0 < n →
  ws_path ws ≠ tempDir ++ [chunk_name k0] →
  files s !! (tempDir ++ [chunk_name k0]) = None →
  ∃ msg s', for_chunks tempDir (Num n) ws i s = (inl (Error msg), s') ∧
    rm_faults s' = rm_faults s ∧
    (∀ q, q ≠ ws_path ws → files s' !! q = files s !! q) ∧
    (ws_opened ws = false → s' = s) ∧
    (∀ x, files s' !! ws_path ws = Some (File x) →
       ∃ y, files s !! ws_path ws = Some (File y)) ∧
    (∀ q, files s' !! q = Some Dir ↔ files s !! q = Some Dir).
Proof.
  intros k. revert ws.
  induction k as [|k IH]; intros ws i s Hk Hi Hn Hsep Hnone.
  - assert (i = k0) as -> by lia.
    rewrite for_chunks_missing; [by eauto 10| |lia|done].
    simpl. apply Z.ltb_lt. lia.
  - assert (js_lt (Num i) (Num n) = true) as Hlt.
    { simpl. apply Z.ltb_lt. lia. }
    destruct (files s !! (tempDir ++ [chunk_name i])) as [[|d]|] eqn:Hc.
    + rewrite for_chunks_directory by (done || lia). by eauto 10.
    + rewrite (for_chunks_step _ _ _ _ _ d) by (done || lia).
      destruct (ws_write_run (ws_after_await ws) d s)
        as (s1 & -> & Hf1 & Hq1 & Hcl1 & _ & Hx1 & Hd1).
      rewrite ws_after_await_path, ws_after_await_opened in *.
      simpl.
      destruct (IH (ws_after_await ws) (i + 1) s1)
        as (e & s' & -> & Hf & Hq & Hcl & Hx & Hd).
      { lia. } { lia. } { done. } { by rewrite ws_after_await_path. }
      { rewrite Hq1; [done|]. congruence. }
      rewrite ws_after_await_path, ws_after_await_opened in *.
      exists e, s'. split; [done|]. split; [congruence|]. split.
      { intros q Hne. rewrite Hq, Hq1; done. }
      split.
      { intros Hop. rewrite Hcl, Hcl1; done. }
      split.
      { intros x Hxs. apply Hx in Hxs as [y Hy]. by apply Hx1 in Hy. }
      intros q. by rewrite Hd, Hd1.
    + rewrite for_chunks_missing by (done || lia). by eauto 10.
Qed.

(** On a stream that failed to open the loop writes nothing; when it
    comes to its end, every chunk the guard let through was there. *)
Lemma for_chunks_closed tempDir total ws n : ∀ i s ws' s',
  0 ≤ i → Z.to_nat (n - i) = trips total i →
  ws_opened ws = false →
  for_chunks tempDir total ws i s = (inr ws', s') →
  ∀ j, i ≤ j → js_lt (Num j) total = true →
    ∃ d, files s !! (tempDir ++ [chunk_name j]) = Some (File d).
Proof.
  intros i. remember (trips total i) as k eqn:Hk. revert ws i Hk.
  induction k as [|k IH]; intros ws i Hk s ws' s' Hi Hn Hop Hrun j Hj Hlt.
  - destruct total as [z|]; simpl in *; [|done].
    apply Z.ltb_lt in Hlt. lia.
  - assert (js_lt (Num i) total = true) as Hlti.
    { destruct total as [z|]; simpl in *; [|done]. apply Z.ltb_lt. lia. }
    destruct (files s !! (tempDir ++ [chunk_name i])) as [[|d]|] eqn:Hc.
    + by rewrite for_chunks_directory in Hrun.
    + destruct (decide (j = i)) as [->|Hne]; [by eauto|].
      rewrite (for_chunks_step _ _ _ _ _ d) in Hrun by done.
      destruct (ws_write_run (ws_after_await ws) d s)
        as (s1 & Hw & _ & _ & Hcl1 & _).
      rewrite Hw in Hrun. cbn [snd] in Hrun.
      rewrite ws_after_await_opened in Hcl1. rewrite Hcl1 in Hrun by done.
      apply (IH (ws_after_await ws) (i + 1)) with (j := j) in Hrun;
        [done| | | |by rewrite ws_after_await_opened| |done].
      * destruct total as [z|]; simpl in *; lia.
      * lia.
      * destruct total as [z|]; simpl in *; lia.
      * lia.
    + by rewrite for_chunks_missing in Hrun.
Qed.

(** ... and with every chunk there it does come to its end, the [error]
    of the stream gone unheard on the way. *)
Lemma for_chunks_closed_run tempDir n : ∀ k ws i s,
  k = Z.to_nat (n - i) → 0 ≤ i →
  ws_opened ws = false →
  (∀ j, i ≤ j < n →
     ∃ d, files s !! (tempDir ++ [chunk_name j]) = Some (File d)) →
  for_chunks tempDir (Num n) ws i s
    = (inr (if i <? n then ws_after_await ws else ws), s).
Proof.
  induction k as [|k IH]; intros ws i s Hk Hi Hop Hchunks.
  - rewrite for_chunks_done by (simpl; apply Z.ltb_ge; lia).
    by rewrite (proj2 (Z.ltb_ge i n)) by lia.
  - rewrite (proj2 (Z.ltb_lt i n)) by lia.
    destruct (Hchunks i) as [d Hd]; [lia|].
    rewrite (for_chunks_step _ _ _ _ _ d);
      [|simpl; apply Z.ltb_lt; lia|done|done].
    destruct (ws_write_run (ws_after_await ws) d s)
      as (s1 & -> & _ & _ & Hcl1 & _).
    rewrite ws_after_await_opened in Hcl1. rewrite Hcl1 by done.
    cbn [snd]. rewrite (IH (ws_after_await ws) (i + 1) s);
      [|lia|lia|by rewrite ws_after_await_opened|].
    + rewrite ws_after_await_twice. by destruct (i + 1 <? n).
    + intros j Hj. apply Hchunks. lia.
Qed.

(** ** Deleting the staging directory *)

Lemma rm_ok p s :
  first_rm_ok s →
  rm p s = (inr (), mkDisk (filter (λ kv, ¬ p `prefix_of` kv.1) (files s))
                           (tail (rm_faults s))).
Proof.
  unfold first_rm_ok, rm. destruct (rm_faults s) as [|[] fl]; simpl; done.
Qed.

Lemma rm_fault p s fl :
  rm_faults s = true :: fl →
  rm p s = (inl (Error "rm failed"), mkDisk (files s) fl).
Proof. unfold rm. by intros ->. Qed.

Lemma removed_lookup (p q : path) (fs : gmap path node) :
  filter (λ kv : path * node, ¬ p `prefix_of` kv.1) fs !! q =
    if decide (p `prefix_of` q) then None else fs !! q.
Proof.
  rewrite map_lookup_filter. destruct (fs !! q) as [x|] eqn:Hq; simpl.
  - case_decide.
    + rewrite option_guard_False; [done|]. simpl. by intros ?.
    + by rewrite option_guard_True.
  - by case_decide.
Qed.

Lemma removed_gone (p : path) (fs : gmap path node) :
  gone p (filter (λ kv : path * node, ¬ p `prefix_of` kv.1) fs).
Proof. intros q Hq. rewrite removed_lookup. by case_decide. Qed.

Lemma removed_subseteq (p : path) (fs : gmap path node) :
  filter (λ kv : path * node, ¬ p `prefix_of` kv.1) fs ⊆ fs.
Proof. apply map_filter_subseteq. Qed.

(** [rm], with or without a handler around it, only ever removes. *)
Lemma rm_shrinks p s :
  ∃ r s', rm p s = (r, s') ∧ files s' ⊆ files s ∧
    (r = inr () ∨ r = inl (Error "rm failed")).
Proof.
  unfold rm. destruct (rm_faults s) as [|[] fl]; simpl;
    eauto 6 using removed_subseteq.
Qed.

Lemma rm_quietly_shrinks p s :
  ∃ s', rm_quietly p s = (inr (), s') ∧ files s' ⊆ files s.
Proof.
  unfold rm_quietly, try_catch.
  destruct (rm_shrinks p s) as (r & s' & -> & Hsub & [->| ->]); eauto.
Qed.

Lemma rm_quietly_ok p s :
  first_rm_ok s →
  rm_quietly p s =
    (inr (), mkDisk (filter (λ kv, ¬ p `prefix_of` kv.1) (files s))
                    (tail (rm_faults s))).
Proof. intros H. unfold rm_quietly, try_catch. by rewrite rm_ok. Qed.

Lemma cleanup_ok c p s :
  first_rm_ok s →
  cleanup c p s =
    (inr (), mkDisk (filter (λ kv, ¬ p `prefix_of` kv.1) (files s))
                    (tail (rm_faults s))).
Proof. intros H. destruct c; simpl; [by apply rm_ok|by apply rm_quietly_ok]. Qed.

Lemma cleanup_shrinks c p s :
  ∃ r s', cleanup c p s = (r, s') ∧ files s' ⊆ files s ∧
    (r = inr () ∨ r = inl (Error "rm failed")).
Proof.
  destruct c; simpl; [apply rm_shrinks|].
  destruct (rm_quietly_shrinks p s) as (s' & -> & ?). eauto 6.
Qed.

(** When no deletion throws, a second deletion finds nothing to do. *)
Lemma removed_twice (p : path) (fs : gmap path node) :
  filter (λ kv : path * node, ¬ p `prefix_of` kv.1)
    (filter (λ kv : path * node, ¬ p `prefix_of` kv.1) fs)
  = filter (λ kv : path * node, ¬ p `prefix_of` kv.1) fs.
Proof.
  apply map_eq. intros q. rewrite !removed_lookup. by case_decide.
Qed.

Lemma rm_quietly_cases p s :
  ∃ s', rm_quietly p s = (inr (), s') ∧
    (files s' = files s ∨
     files s' = filter (λ kv, ¬ p `prefix_of` kv.1) (files s)).
Proof.
  unfold rm_quietly, try_catch, rm.
  destruct (rm_faults s) as [|[] fl]; simpl; eauto.
Qed.

Lemma handler_run (T : path) (resp : Response) s4 :
  ∃ s5, (rm_quietly T;; ret resp) s4 = (inr resp, s5) ∧
    (files s5 = files s4 ∨
     files s5 = filter (λ kv, ¬ T `prefix_of` kv.1) (files s4)).
Proof.
  destruct (rm_quietly_cases T s4) as (s5 & Hrm & Hfiles).
  exists s5. by rewrite bind_run, Hrm.
Qed.

(** ** Running the finalize handlers *)

Lemma accepted_Num z : accepted (Num z) = true ↔ 1 ≤ z ≤ MAX_CHUNKS.
Proof.
  unfold accepted, js_gt, js_lt, MAX_CHUNKS.
  rewrite negb_true_iff, orb_false_iff, !Z.ltb_ge. lia.
Qed.

Lemma accepted_NaN : accepted NaN = true.
Proof. reflexivity. Qed.

Lemma finalize_rejected c env request s :
  accepted (totalChunks request) = false →
  finalize_with c env request s = (inr (json_error "Invalid totalChunks" 400), s).
Proof. intros H. unfold finalize_with. by rewrite H. Qed.

(** The statements after the stream is made, given what the loop and the
    wait for [finish] came to. *)
Lemma finish_run c (T : path) ws (resp : Response) (work : M unit) s2 r s3 :
  work s2 = (r, s3) → r ≠ inl Unsettled →
  (try_finally work (ws_destroy ws;; cleanup c T);; ret resp) s2 =
    match cleanup c T s3 with
    | (inl e, s4) => (inl e, s4)
    | (inr _, s4) =>
        match r with
        | inl e => (inl e, s4)
        | inr _ => (inr resp, s4)
        end
    end.
Proof.
  intros Hwork Hr. rewrite bind_run. unfold try_finally. rewrite Hwork.
  assert (∀ X (a b : X),
            match r with inl Unsettled => a | _ => b end = b) as ->.
  { intros X a b. by destruct r as [[]|]. }
  rewrite bind_run. unfold ws_destroy at 1, ret at 1.
  destruct (cleanup c T s3) as [[e|[]] s4]; [done|].
  by destruct r.
Qed.

(** The wait for [finish] never ends: neither the [finally] block nor
    anything after it runs. *)
Lemma finish_unsettled c (T : path) ws (resp : Response) (work : M unit) s2 s3 :
  work s2 = (inl Unsettled, s3) →
  (try_finally work (ws_destroy ws;; cleanup c T);; ret resp) s2 =
    (inl Unsettled, s3).
Proof.
  intros Hwork. rewrite bind_run. unfold try_finally. by rewrite Hwork.
Qed.

(** The handler up to the point where the stream is made. *)
Lemma assemble_open c env request s fs1 :
  mkdir (uploadsDir_of env) s = (inr (), mkDisk fs1 (rm_faults s)) →
  is_Some (stat fs1 (tempDir_of env (uploadId request))) →
  assemble c env request s =
    (try_finally
       (ws ← for_chunks (tempDir_of env (uploadId request))
               (totalChunks request)
               (mkStream (finalFilePath_of env (fileName request))
                  (can_open fs1 (finalFilePath_of env (fileName request)))
                  false) 0;
        ws_end_and_wait ws)
       (ws_destroy
          (mkStream (finalFilePath_of env (fileName request))
             (can_open fs1 (finalFilePath_of env (fileName request)))
             false);;
        cleanup c (tempDir_of env (uploadId request)));;
     ret (mkResponse 200
            (BSuccessPath ("/uploads/" +:+ basename (fileName request)))))
      (if can_open fs1 (finalFilePath_of env (fileName request))
       then mkDisk (<[finalFilePath_of env (fileName request) := File []]> fs1)
                   (rm_faults s)
       else mkDisk fs1 (rm_faults s)).
Proof.
  intros Hmk Hex. unfold assemble.
  rewrite bind_run, Hmk. rewrite bind_run. unfold existsSync at 1.
  cbn [files]. rewrite bool_decide_eq_true_2 by done.
  cbn [negb]. rewrite bind_run. unfold createWriteStream at 1. cbn [files rm_faults].
  by destruct (can_open fs1 _).
Qed.

Lemma assemble_not_found c env request s fs1 :
  mkdir (uploadsDir_of env) s = (inr (), mkDisk fs1 (rm_faults s)) →
  stat fs1 (tempDir_of env (uploadId request)) = None →
  assemble c env request s =
    (inr (json_error "Upload session not found" 404), mkDisk fs1 (rm_faults s)).
Proof.
  intros Hmk Hex. unfold assemble.
  rewrite bind_run, Hmk. rewrite bind_run. unfold existsSync at 1.
  cbn [files]. rewrite bool_decide_eq_false_2; [done|].
  rewrite Hex. by intros [? ?].
Qed.

Lemma assemble_mkdir_fails c env request s :
  mkdir (uploadsDir_of env) s = (inl (Error "ENOTDIR"), s) →
  assemble c env request s = (inl (Error "ENOTDIR"), s).
Proof. intros Hmk. unfold assemble. by rewrite bind_run, Hmk. Qed.

(** The loop followed by the wait for [finish].  The wait has three
    outcomes; it stays unsettled only on a stream that failed to open
    and a loop that went round and came to its end. *)
Lemma work_frame tempDir total ws s :
  ws_unheard ws = false →
  ∃ r s', (ws' ← for_chunks tempDir total ws 0; ws_end_and_wait ws') s
            = (r, s') ∧
    (r = inr () ∨ (∃ msg, r = inl (Error msg)) ∨
     (r = inl Unsettled ∧ ws_opened ws = false ∧
      js_lt (Num 0) total = true ∧
      ∀ j, 0 ≤ j → js_lt (Num j) total = true →
        ∃ d, files s !! (tempDir ++ [chunk_name j]) = Some (File d))) ∧
    rm_faults s' = rm_faults s ∧
    (∀ q, q ≠ ws_path ws → files s' !! q = files s !! q) ∧
    (ws_opened ws = false → s' = s) ∧
    (∀ x, files s' !! ws_path ws = Some (File x) →
       ∃ y, files s !! ws_path ws = Some (File y)) ∧
    (∀ q, files s' !! q = Some Dir ↔ files s !! q = Some Dir).
Proof.
  intros Hun.
  destruct (trips_exists total 0) as [n Hn].
  destruct (for_chunks_frame tempDir total ws n 0 s)
    as (r & s' & Hrun & Hout & Hrest); [done|done|].
  rewrite bind_run, Hrun. destruct Hout as [[msg ->]| ->].
  { exists (inl (Error msg)), s'. split; [done|]. split; [|done].
    right; left. by eauto. }
  pose proof (λ ws', for_chunks_closed tempDir total ws n 0 s ws' s')
    as Hclosed.
  unfold ws_end_and_wait, ws_after_await.
  destruct (js_lt (Num 0) total), (ws_opened ws) eqn:Hop;
    rewrite ?Hop, ?Hun; cbn [ws_opened ws_unheard].
  - exists (inr ()), s'. split; [done|]. split; [by left|done].
  - exists (inl Unsettled), s'. split; [done|]. split; [|done].
    right; right. split; [done|]. split; [done|]. split; [done|].
    by eapply (Hclosed _ ltac:(done) Hn eq_refl Hrun).
  - exists (inr ()), s'. split; [done|]. split; [by left|done].
  - exists (inl (Error "stream error")), s'. split; [done|].
    split; [|done]. right; left. by eauto.
Qed.

Lemma work_throws tempDir n ws k s :
  0 ≤ k < n →
  ws_path ws ≠ tempDir ++ [chunk_name k] →
  files s !! (tempDir ++ [chunk_name k]) = None →
  ∃ msg s', (ws' ← for_chunks tempDir (Num n) ws 0; ws_end_and_wait ws') s
              = (inl (Error msg), s') ∧
    rm_faults s' = rm_faults s ∧
    (∀ q, q ≠ ws_path ws → files s' !! q = files s !! q).
Proof.
  intros Hk Hsep Hnone.
  destruct (for_chunks_throws tempDir n ws k (Z.to_nat (k - 0)) 0 s)
    as (e & s' & Hrun & Hf & Hq & _); [done|lia|lia|done|done|].
  exists e, s'. by rewrite bind_run, Hrun.
Qed.

Lemma made_stays p fs fs' q :
  made p fs fs' → is_Some (stat fs q) → is_Some (stat fs' q).
Proof.
  intros [_ Hrest] Hq. destruct q as [|c q]; [done|]. simpl in *.
  destruct (Hrest (c :: q)) as [->|(? & -> & _)]; eauto.
Qed.

Lemma made_same p fs fs' q :
  made p fs fs' → ¬ q `prefix_of` p → fs' !! q = fs !! q.
Proof.
  intros [_ Hrest] Hq. destruct (Hrest q) as [?|(_ & _ & ? & _)]; done.
Qed.

Lemma made_file p fs fs' q x :
  made p fs fs' → fs !! q = Some x → fs' !! q = Some x.
Proof.
  intros [_ Hrest] Hq. destruct (Hrest q) as [?|(? & _)]; congruence.
Qed.

Lemma can_open_eq fs (p : path) :
  p ≠ [] →
  can_open fs p =
    match stat fs (parent p), fs !! p with
    | Some Dir, Some Dir => false
    | Some Dir, _ => true
    | _, _ => false
    end.
Proof. by destruct p. Qed.

Lemma can_open_snoc fs (dir : path) name :
  dir ≠ [] → fs !! dir = Some Dir → fs !! (dir ++ [name]) ≠ Some Dir →
  can_open fs (dir ++ [name]) = true.
Proof.
  intros Hne Hdir Hfile. rewrite can_open_eq by by destruct dir.
  unfold parent. rewrite removelast_last. rewrite stat_nonempty, Hdir by done.
  by destruct (fs !! (dir ++ [name])) as [[|?]|].
Qed.

Lemma uploadsDir_of_nonempty env : uploadsDir_of env ≠ [].
Proof. rewrite uploadsDir_of_eq. by destruct (process_cwd env). Qed.

Lemma gone_subseteq (p : path) (fs fs' : gmap path node) :
  fs' ⊆ fs → gone p fs → gone p fs'.
Proof. intros Hsub Hg q Hq. eapply lookup_weaken_None; eauto. Qed.

(** Every chunk the loop asks for is there: the loop and the wait for
    [finish] succeed, the destination holds the chunks in order, and what
    is left is the deletion of the staging directory.  [m] is the number
    of iterations the guard allows. *)
Lemma assemble_success c env request s (d : Z → list Byte.byte) m :
  0 ≤ m →
  (∀ j, 0 ≤ j < m → js_lt (Num j) (totalChunks request) = true) →
  js_lt (Num m) (totalChunks request) = false →
  creatable (files s) (uploadsDir_of env) →
  is_Some (stat (files s) (tempDir_of env (uploadId request))) →
  writable env request (files s) →
  apart env request →
  (∀ j, 0 ≤ j < m →
     files s !! (tempDir_of env (uploadId request) ++ [chunk_name j])
       = Some (File (d j))) →
  ∃ s3,
    assemble c env request s =
      match cleanup c (tempDir_of env (uploadId request)) s3 with
      | (inl e, s4) => (inl e, s4)
      | (inr _, s4) => (inr (success_response request), s4)
      end ∧
    rm_faults s3 = rm_faults s ∧
    files s3 !! finalFilePath_of env (fileName request)
      = Some (File (concat (d <$> seqZ 0 m))).
Proof.
  intros Hm Hlt Hend Hfree Hstage [Hplain Hnodir] [Hsep0 Hsep] Hchunks.
  destruct (mkdir_ok _ _ Hfree) as (fs1 & Hmk & Hmade).
  rewrite (assemble_open _ _ _ _ fs1 Hmk) by by eapply made_stays.
  set (T := tempDir_of env (uploadId request)) in *.
  pose proof (finalFilePath_of_plain env _ Hplain) as HF.
  set (F := finalFilePath_of env (fileName request)) in *.
  assert (can_open fs1 F = true) as ->.
  { rewrite HF. apply can_open_snoc.
    - apply uploadsDir_of_nonempty.
    - apply Hmade; [apply uploadsDir_of_nonempty|done].
    - rewrite <- HF. rewrite (made_same _ _ _ _ Hmade); [done|].
      rewrite HF. apply prefix_snoc_not. }
  set (s2 := mkDisk (<[F := File []]> fs1) (rm_faults s)).
  destruct (for_chunks_run T (totalChunks request) F d m (Z.to_nat (m - 0)) 0 s2 [])
    as (s3 & Hrun & Hf3 & Hcontent & Hq3).
  { done. } { lia. } { done. } { done. }
  { unfold s2. cbn [files]. by rewrite lookup_insert_eq. }
  { intros j Hj. unfold s2. cbn [files]. rewrite lookup_insert_ne.
    - eapply made_file; [done|]. by apply Hchunks.
    - intros Heq. apply Hsep. rewrite Heq. by apply prefix_app_r. }
  exists s3. split; [|split; [done|]].
  - erewrite (finish_run _ _ _ _ _ _ (inr ()) s3); [reflexivity| |done].
    rewrite bind_run, Hrun. rewrite for_chunks_done by done.
    unfold ws_end_and_wait. cbn [ws_opened]. reflexivity.
  - rewrite Hcontent. by rewrite Z.sub_0_r.
Qed.

(** ... and when the deletion does not fail, the handler succeeds and
    the staging directory is gone. *)
Lemma finalize_success c env request s (d : Z → list Byte.byte) m :
  accepted (totalChunks request) = true →
  0 ≤ m →
  (∀ j, 0 ≤ j < m → js_lt (Num j) (totalChunks request) = true) →
  js_lt (Num m) (totalChunks request) = false →
  creatable (files s) (uploadsDir_of env) →
  is_Some (stat (files s) (tempDir_of env (uploadId request))) →
  writable env request (files s) →
  apart env request →
  (∀ j, 0 ≤ j < m →
     files s !! (tempDir_of env (uploadId request) ++ [chunk_name j])
       = Some (File (d j))) →
  first_rm_ok s →
  ∃ s', finalize_with c env request s = (inr (success_response request), s') ∧
    files s' !! finalFilePath_of env (fileName request)
      = Some (File (concat (d <$> seqZ 0 m))) ∧
    gone (tempDir_of env (uploadId request)) (files s').
Proof.
  intros Hacc Hm Hlt Hend Hfree Hstage Hwr Hsep Hchunks Hrm.
  destruct (assemble_success c env request s d m)
    as (s3 & Hrun & Hf3 & Hcontent); try done.
  unfold finalize_with. rewrite Hacc. unfold try_catch. rewrite Hrun.
  rewrite cleanup_ok by (unfold first_rm_ok; by rewrite Hf3).
  eexists. split; [done|]. cbn [files]. split.
  - rewrite removed_lookup. rewrite decide_False by apply Hsep. done.
  - apply removed_gone.
Qed.

(** ... and when it does fail, route.ts turns the success into a 500,
    while part_001 still reports it. *)
Lemma finalize_cleanup_fault env request s (d : Z → list Byte.byte) m fl :
  accepted (totalChunks request) = true →
  0 ≤ m →
  (∀ j, 0 ≤ j < m → js_lt (Num j) (totalChunks request) = true) →
  js_lt (Num m) (totalChunks request) = false →
  creatable (files s) (uploadsDir_of env) →
  is_Some (stat (files s) (tempDir_of env (uploadId request))) →
  writable env request (files s) →
  apart env request →
  (∀ j, 0 ≤ j < m →
     files s !! (tempDir_of env (uploadId request) ++ [chunk_name j])
       = Some (File (d j))) →
  rm_faults s = true :: fl →
  (∃ s', finalize_with Bare env request s
           = (inr (json_error "Assembly failed" 500), s') ∧
     files s' !! finalFilePath_of env (fileName request)
       = Some (File (concat (d <$> seqZ 0 m)))) ∧
  (∃ s', finalize_with Guarded env request s
           = (inr (success_response request), s') ∧
     files s' !! finalFilePath_of env (fileName request)
       = Some (File (concat (d <$> seqZ 0 m)))).
Proof.
  intros Hacc Hm Hlt Hend Hfree Hstage Hwr Hsep Hchunks Hfault.
  split.
  - destruct (assemble_success Bare env request s d m)
      as (s3 & Hrun & Hf3 & Hcontent); try done.
    unfold finalize_with. rewrite Hacc. unfold try_catch. rewrite Hrun.
    cbn [cleanup]. rewrite (rm_fault _ _ fl) by congruence.
    destruct (handler_run (tempDir_of env (uploadId request))
                (json_error "Assembly failed" 500) (mkDisk (files s3) fl))
      as (s5 & -> & Hfiles).
    exists s5. split; [done|]. cbn [files] in Hfiles.
    destruct Hfiles as [->| ->]; [done|].
    rewrite removed_lookup. by rewrite decide_False by apply Hsep.
  - destruct (assemble_success Guarded env request s d m)
      as (s3 & Hrun & Hf3 & Hcontent); try done.
    unfold finalize_with. rewrite Hacc. unfold try_catch. rewrite Hrun.
    cbn [cleanup]. unfold rm_quietly, try_catch.
    rewrite (rm_fault _ _ fl) by congruence.
    eexists. split; [done|]. done.
Qed.

(** ** Running the chunk receiver *)

Lemma upload_run env id idx b s :
  valid_id id → all_chars is_digit_char idx = true → idx ≠ "" →
  creatable (files s) (tempDir_of env id) →
  files s !! (tempDir_of env id ++ ["chunk_" +:+ idx]) ≠ Some Dir →
  ∃ fs1,
    UploadChunk.POST env
      (UploadChunk.mkForm (UploadChunk.FFile b) (UploadChunk.FString idx)
                          (UploadChunk.FString id)) s
    = (inr (mkResponse 200 BSuccess),
       mkDisk (<[tempDir_of env id ++ ["chunk_" +:+ idx] := File b]> fs1)
              (rm_faults s)) ∧
    made (tempDir_of env id) (files s) fs1.
Proof.
  intros [Hne Hid] Hdig Hidx Hfree Hnodir.
  unfold UploadChunk.POST, try_catch. cbn [UploadChunk.file
    UploadChunk.chunkIndex UploadChunk.uploadId].
  change (UploadChunk.truthy (UploadChunk.FFile b)) with true.
  assert (UploadChunk.truthy (UploadChunk.FString idx) = true) as ->
    by by destruct idx.
  assert (UploadChunk.truthy (UploadChunk.FString id) = true) as ->
    by by destruct id.
  cbn [negb orb]. rewrite bind_run.
  unfold UploadChunk.replace_in at 1, ret at 1.
  unfold UploadChunk.differs at 1.
  rewrite (proj2 (replace_outside_fixed _ _) Hid).
  rewrite bool_decide_eq_false_2 by (by intros ?).
  rewrite bind_run. unfold UploadChunk.replace_in at 1, ret at 1.
  unfold UploadChunk.differs at 1.
  rewrite (proj2 (replace_outside_fixed _ _) Hdig).
  rewrite bool_decide_eq_false_2 by (by intros ?).
  rewrite bind_run. unfold UploadChunk.arrayBuffer at 1, ret at 1.
  assert (path_join (os_tmpdir env) ["uploads"; id] = tempDir_of env id) as ->.
  { unfold tempDir_of. by rewrite (proj2 (replace_outside_fixed _ _) Hid). }
  destruct (mkdir_ok _ _ Hfree) as (fs1 & Hmk & Hmade).
  rewrite bind_run, Hmk.
  rewrite path_join_plain
    by (constructor; [by apply chunk_prefix_plain|constructor]).
  rewrite bind_run. unfold writeFile at 1. cbn [files rm_faults].
  rewrite can_open_snoc; cycle 1.
  { apply tempDir_of_nonempty. }
  { apply Hmade; [apply tempDir_of_nonempty|done]. }
  { rewrite (made_same _ _ _ _ Hmade); [done|]. apply prefix_snoc_not. }
  exists fs1. done.
Qed.

Lemma chunk_form_run env id i b s :
  valid_id id → 0 ≤ i →
  creatable (files s) (tempDir_of env id) →
  files s !! (tempDir_of env id ++ [chunk_name i]) ≠ Some Dir →
  ∃ fs1,
    UploadChunk.POST env (chunk_form id i b) s
    = (inr (mkResponse 200 BSuccess),
       mkDisk (<[tempDir_of env id ++ [chunk_name i] := File b]> fs1)
              (rm_faults s)) ∧
    made (tempDir_of env id) (files s) fs1.
Proof.
  intros Hid Hi Hfree Hnodir.
  destruct (pretty_Z_digits i Hi) as [Hdig Hne].
  by apply upload_run.
Qed.

(** What one accepted chunk does to the conditions the session relies on. *)
Lemma upload_keeps env request i b fs fs1 order :
  apart env request →
  made (tempDir_of env (uploadId request)) fs fs1 →
  staging_ready env (uploadId request) order fs →
  destination_ready env request fs →
  staging_ready env (uploadId request) order
    (<[tempDir_of env (uploadId request) ++ [chunk_name i] := File b]> fs1) ∧
  destination_ready env request
    (<[tempDir_of env (uploadId request) ++ [chunk_name i] := File b]> fs1).
Proof.
  unfold staging_ready, destination_ready, writable, apart.
  set (T := tempDir_of env (uploadId request)).
  intros [Hsep0 Hsep] Hmade [Hfree Hnodir] (Hroot & [Hplain Hfile] & Hsep').
  assert (Hlook : ∀ q, q ≠ T ++ [chunk_name i] →
            (<[T ++ [chunk_name i] := File b]> fs1) !! q = fs !! q ∨
            (fs !! q = None ∧
             (<[T ++ [chunk_name i] := File b]> fs1) !! q = Some Dir ∧
             q `prefix_of` T)).
  { intros q Hq. rewrite lookup_insert_ne by done.
    destruct (proj2 Hmade q) as [?|(? & ? & ? & _)]; eauto. }
  split; [split|split; [|split; [split; [done|]|done]]].
  - intros q x Hq. destruct (Hlook q) as [->|(_ & -> & _)]; [|by apply Hfree|done].
    intros ->. by apply prefix_snoc_not in Hq.
  - intros j Hj. destruct (decide (chunk_name j = chunk_name i)) as [->|Hne].
    + by rewrite lookup_insert_eq.
    + destruct (Hlook (T ++ [chunk_name j])) as [->|(_ & _ & Habs)].
      * intros Heq. by apply app_inj_tail in Heq as [_ ?].
      * by apply Hnodir.
      * by apply prefix_snoc_not in Habs.
  - intros q x Hq. destruct (Hlook q) as [->|(_ & -> & _)]; [|by apply Hroot|done].
    intros ->. apply Hsep0. by eapply prefix_app_l.
  - destruct (decide (finalFilePath_of env (fileName request)
                      = T ++ [chunk_name i])) as [Heq|Hne].
    + rewrite Heq. by rewrite lookup_insert_eq.
    + destruct (Hlook _ Hne) as [->|(_ & _ & Habs)]; done.
Qed.

Lemma upload_each_run env request payload : ∀ order s,
  valid_id (uploadId request) →
  apart env request →
  (∀ j, j ∈ order → 0 ≤ j) →
  staging_ready env (uploadId request) order (files s) →
  destination_ready env request (files s) →
  ∃ s1,
    upload_each env (uploadId request) payload order s
      = (replicate (length order) (inr (mkResponse 200 BSuccess)), s1) ∧
    rm_faults s1 = rm_faults s ∧
    destination_ready env request (files s1) ∧
    (∀ j, j ∈ order →
       files s1 !! (tempDir_of env (uploadId request) ++ [chunk_name j])
         = Some (File (payload j))) ∧
    (∀ q x, files s !! q = Some x →
       (∀ j, j ∈ order →
          q ≠ tempDir_of env (uploadId request) ++ [chunk_name j]) →
       files s1 !! q = Some x) ∧
    (order ≠ [] →
       files s1 !! tempDir_of env (uploadId request) = Some Dir).
Proof.
  set (T := tempDir_of env (uploadId request)).
  induction order as [|i rest IH]; intros s Hid Hsep Hpos Hstage Hdest.
  - exists s. simpl. split; [done|]. split; [done|]. split; [done|].
    split; [|done]. intros j Hj. by apply elem_of_nil in Hj.
  - assert (0 ≤ i) as Hi by (apply Hpos; left).
    destruct (chunk_form_run env (uploadId request) i (payload i) s)
      as (fs1 & Hrun & Hmade); [done|done|apply Hstage|apply Hstage; left|].
    fold T in Hrun, Hmade.
    destruct (upload_keeps env request i (payload i) _ fs1 (i :: rest)
                Hsep Hmade Hstage Hdest) as [Hstage1 Hdest1].
    fold T in Hstage1, Hdest1.
    set (s' := mkDisk (<[T ++ [chunk_name i] := File (payload i)]> fs1)
                      (rm_faults s)) in *.
    destruct (IH s') as (s1 & Hrest & Hf & Hd1 & Hchunks & Hkeep & _).
    { done. } { done. } { intros j Hj. apply Hpos. by right. }
    { split; [apply Hstage1|]. intros j Hj. apply Hstage1. by right. }
    { done. }
    exists s1. cbn [upload_each]. rewrite Hrun. fold s'. rewrite Hrest.
    split; [done|]. split; [done|]. split; [done|]. split; [|split].
    + intros j Hj. destruct (decide (j ∈ rest)) as [Hin|Hnin]; [by apply Hchunks|].
      apply elem_of_cons in Hj as [->|?]; [|done].
      apply Hkeep; [unfold s'; cbn [files]; by rewrite lookup_insert_eq|].
      intros j Hj Heq. apply app_inj_tail in Heq as [_ Heq].
      apply chunk_name_inj in Heq as ->. done.
    + intros q x Hq Hne. apply Hkeep.
      * unfold s'. cbn [files]. rewrite lookup_insert_ne.
        -- by eapply made_file.
        -- intros <-. by apply (Hne i); [left|].
      * intros j Hj. apply Hne. by right.
    + intros _. apply Hkeep.
      * unfold s'. cbn [files]. rewrite lookup_insert_ne.
        -- apply Hmade; [apply tempDir_of_nonempty|done].
        -- intros Heq. apply (f_equal length) in Heq.
           rewrite length_app in Heq. simpl in Heq. lia.
      * intros j Hj Heq. apply (f_equal length) in Heq.
        rewrite length_app in Heq. simpl in Heq. lia.
Qed.

(** ** The failure paths of the finalize handlers *)

(** A chunk below the claimed total is absent. *)
Lemma finalize_missing c env request s n k :
  totalChunks request = Num n → 1 ≤ n ≤ MAX_CHUNKS → 0 ≤ k < n →
  is_Some (stat (files s) (tempDir_of env (uploadId request))) →
  files s !! (tempDir_of env (uploadId request) ++ [chunk_name k]) = None →
  apart env request →
  first_rm_ok s →
  ∃ s', finalize_with c env request s =
          (inr (json_error "Assembly failed" 500), s') ∧
    gone (tempDir_of env (uploadId request)) (files s').
Proof.
  intros Htotal Hn Hk Hstage Hnone [Hsep0 Hsep] Hrm.
  unfold finalize_with. rewrite Htotal.
  rewrite (proj2 (accepted_Num n) Hn). unfold try_catch.
  set (T := tempDir_of env (uploadId request)) in *.
  destruct (mkdir_cases (uploadsDir_of env) s) as [Hmk|(fs1 & Hmk & Hmade)].
  - rewrite (assemble_mkdir_fails _ _ _ _ Hmk).
    rewrite bind_run, rm_quietly_ok by done.
    eexists. split; [done|]. apply removed_gone.
  - rewrite (assemble_open _ _ _ _ fs1 Hmk) by by eapply made_stays.
    fold T. rewrite Htotal.
    set (F := finalFilePath_of env (fileName request)) in *.
    set (ws := mkStream F (can_open fs1 F) false).
    set (s2 := if can_open fs1 F
               then mkDisk (<[F := File []]> fs1) (rm_faults s)
               else mkDisk fs1 (rm_faults s)).
    assert (F ≠ T ++ [chunk_name k]) as HF.
    { intros Heq. apply Hsep. rewrite Heq. by apply prefix_app_r. }
    assert (rm_faults s2 = rm_faults s) as Hf2
      by (unfold s2; by destruct (can_open fs1 F)).
    destruct (work_throws T n ws k s2) as (e & s3 & Hwork & Hf3 & _).
    { done. } { done. }
    { assert (fs1 !! (T ++ [chunk_name k]) = None) as Hfs1.
      { rewrite (made_same _ _ _ _ Hmade); [done|].
        intros Hpre. apply Hsep0. by eapply prefix_app_l. }
      unfold s2. destruct (can_open fs1 F); cbn [files]; [|done].
      by rewrite lookup_insert_ne. }
    erewrite finish_run; [|exact Hwork|done].
    rewrite cleanup_ok by (unfold first_rm_ok; by rewrite Hf3, Hf2).
    destruct (handler_run T (json_error "Assembly failed" 500)
                (mkDisk (filter (λ kv, ¬ T `prefix_of` kv.1) (files s3))
                        (tail (rm_faults s3))))
      as (s5 & -> & Hfiles).
    exists s5. split; [done|]. cbn [files] in Hfiles.
    destruct Hfiles as [->| ->]; [|rewrite removed_twice]; apply removed_gone.
Qed.

(** The first absent chunk is [m]: what was appended before stays in the
    destination. *)
Lemma finalize_truncated c env request s n m (d : Z → list Byte.byte) :
  totalChunks request = Num n → 1 ≤ n ≤ MAX_CHUNKS → 0 ≤ m < n →
  is_Some (stat (files s) (tempDir_of env (uploadId request))) →
  (∀ j, 0 ≤ j < m →
     files s !! (tempDir_of env (uploadId request) ++ [chunk_name j])
       = Some (File (d j))) →
  files s !! (tempDir_of env (uploadId request) ++ [chunk_name m]) = None →
  apart env request →
  creatable (files s) (uploadsDir_of env) →
  writable env request (files s) →
  first_rm_ok s →
  ∃ s', finalize_with c env request s =
          (inr (json_error "Assembly failed" 500), s') ∧
    files s' !! finalFilePath_of env (fileName request)
      = Some (File (concat (d <$> seqZ 0 m))).
Proof.
  intros Htotal Hn Hm Hstage Hchunks Hnone [Hsep0 Hsep] Hfree [Hplain Hnodir] Hrm.
  unfold finalize_with. rewrite Htotal.
  rewrite (proj2 (accepted_Num n) Hn). unfold try_catch.
  destruct (mkdir_ok _ _ Hfree) as (fs1 & Hmk & Hmade).
  rewrite (assemble_open _ _ _ _ fs1 Hmk) by by eapply made_stays.
  rewrite Htotal.
  set (T := tempDir_of env (uploadId request)) in *.
  pose proof (finalFilePath_of_plain env _ Hplain) as HF.
  set (F := finalFilePath_of env (fileName request)) in *.
  assert (can_open fs1 F = true) as ->.
  { rewrite HF. apply can_open_snoc.
    - apply uploadsDir_of_nonempty.
    - apply Hmade; [apply uploadsDir_of_nonempty|done].
    - rewrite <- HF. rewrite (made_same _ _ _ _ Hmade); [done|].
      rewrite HF. apply prefix_snoc_not. }
  set (s2 := mkDisk (<[F := File []]> fs1) (rm_faults s)).
  assert (Hcp : ∀ j, F ≠ T ++ [chunk_name j]).
  { intros j Heq. apply Hsep. rewrite Heq. by apply prefix_app_r. }
  destruct (for_chunks_run T (Num n) F d m (Z.to_nat (m - 0)) 0 s2 [])
    as (s3 & Hrun & Hf3 & Hcontent & Hq3).
  { done. } { lia. } { intros j Hj. simpl. apply Z.ltb_lt. lia. } { done. }
  { unfold s2. cbn [files]. by rewrite lookup_insert_eq. }
  { intros j Hj. unfold s2. cbn [files]. rewrite lookup_insert_ne by done.
    eapply made_file; [done|]. by apply Hchunks. }
  erewrite finish_run; [| |shelve].
  2:{ rewrite bind_run, Hrun. rewrite for_chunks_missing; [reflexivity| |lia|].
    - simpl. apply Z.ltb_lt. lia.
    - rewrite Hq3 by (intros Heq; by apply (Hcp m)).
      unfold s2. cbn [files]. rewrite lookup_insert_ne by done.
      rewrite (made_same _ _ _ _ Hmade); [done|].
      intros Hpre. apply Hsep0. by eapply prefix_app_l. }
  Unshelve. 2: done.
  rewrite cleanup_ok by (unfold first_rm_ok; by rewrite Hf3).
  destruct (handler_run T (json_error "Assembly failed" 500)
              (mkDisk (filter (λ kv, ¬ T `prefix_of` kv.1) (files s3))
                      (tail (rm_faults s3))))
    as (s5 & -> & Hfiles).
  exists s5. split; [done|]. cbn [files] in Hfiles.
  destruct Hfiles as [->| ->]; [|rewrite removed_twice];
    rewrite removed_lookup, decide_False by done;
    rewrite Hcontent; by rewrite Z.sub_0_r.
Qed.

(** ** The two handlers against each other *)

Lemma assemble_agree env request s :
  first_rm_ok s →
  assemble Bare env request s = assemble Guarded env request s.
Proof.
  intros Hrm.
  destruct (mkdir_cases (uploadsDir_of env) s) as [Hmk|(fs1 & Hmk & Hmade)].
  - by rewrite !(assemble_mkdir_fails _ _ _ _ Hmk).
  - destruct (stat fs1 (tempDir_of env (uploadId request))) as [x|] eqn:Hst.
    + rewrite !(assemble_open _ _ _ _ fs1 Hmk) by (rewrite Hst; eauto).
      match goal with
      | |- context [try_finally ?w _] =>
          match goal with
          | |- _ ?s2 = _ =>
              destruct (work_frame (tempDir_of env (uploadId request))
                          (totalChunks request)
                          (mkStream (finalFilePath_of env (fileName request))
                             (can_open fs1
                                (finalFilePath_of env (fileName request)))
                             false)
                          s2)
                as (r & s3 & Hwork & Hout & Hf3 & _); [done|]
          end
      end.
      assert (r = inl Unsettled ∨ r ≠ inl Unsettled) as [->|Hr].
      { destruct Hout as [->|[[msg ->]|(-> & _)]]; by eauto. }
      { by rewrite !(finish_unsettled _ _ _ _ _ _ _ Hwork). }
      rewrite !(finish_run _ _ _ _ _ _ _ _ Hwork Hr).
      assert (first_rm_ok s3) as Hrm3.
      { unfold first_rm_ok. rewrite Hf3. by destruct (can_open fs1 _). }
      by rewrite !cleanup_ok.
    + by rewrite !(assemble_not_found _ _ _ _ fs1 Hmk).
Qed.

Lemma finalize_agree env request s :
  first_rm_ok s →
  finalize_with Bare env request s = finalize_with Guarded env request s.
Proof.
  intros Hrm. unfold finalize_with.
  destruct (accepted _); [|done].
  unfold try_catch. by rewrite assemble_agree.
Qed.

(** ** Where the finalize handlers write *)

Lemma can_open_dir fs (p : path) : fs !! p = Some Dir → can_open fs p = false.
Proof.
  intros Hp. destruct p as [|c p]; [done|].
  unfold can_open. rewrite Hp. by destruct (stat fs _) as [[|?]|].
Qed.

Lemma removelast_uploadsDir env :
  removelast (uploadsDir_of env) = process_cwd env ++ ["public"].
Proof.
  rewrite uploadsDir_of_eq.
  change ["public"; "uploads"] with (["public"] ++ ["uploads"]).
  by rewrite app_assoc, removelast_last.
Qed.

(** A stream that opened was given an ordinary name below the root. *)
Lemma opened_plain env name fs fs1 :
  made (uploadsDir_of env) fs fs1 →
  can_open fs1 (finalFilePath_of env name) = true →
  plain (basename name).
Proof.
  intros [Hdirs _] Hopen. rewrite finalFilePath_of_eq in Hopen.
  unfold normalize_step in Hopen.
  destruct (decide (basename name = "" ∨ basename name = ".")) as [Hd|Hd].
  { rewrite can_open_dir in Hopen; [done|].
    apply Hdirs; [apply uploadsDir_of_nonempty|done]. }
  destruct (decide (basename name = "..")) as [Hdd|Hdd].
  { rewrite can_open_dir in Hopen; [done|].
    rewrite removelast_uploadsDir. apply Hdirs.
    - by destruct (process_cwd env).
    - rewrite uploadsDir_of_eq. by apply prefix_app, prefix_cons, prefix_nil. }
  split; [apply basename_no_slash|].
  split; [|split]; intros Heq; [apply Hd; by left|apply Hd; by right|done].
Qed.

Lemma finalize_confined c env request s :
  confined (finalize_with c env request) env request s.
Proof.
  unfold confined, finalize_with. destruct (accepted _); [|by eauto 10].
  unfold try_catch.
  set (T := tempDir_of env (uploadId request)).
  set (F := finalFilePath_of env (fileName request)).
  assert (Hhandler : ∀ s4,
    (∀ q d, files s4 !! q = Some (File d) →
       files s !! q = Some (File d) ∨
       (q = uploadsDir_of env ++ [basename (fileName request)] ∧
        plain (basename (fileName request)))) →
    ∀ q d,
      files ((rm_quietly T;; ret (json_error "Assembly failed" 500)) s4).2
        !! q = Some (File d) →
      files s !! q = Some (File d) ∨
      (q = uploadsDir_of env ++ [basename (fileName request)] ∧
       plain (basename (fileName request)))).
  { intros s4 H4.
    destruct (handler_run T (json_error "Assembly failed" 500) s4)
      as (s5 & -> & Hfiles).
    intros q d Hq. apply H4. cbn [snd] in Hq.
    destruct Hfiles as [Heq|Heq]; rewrite Heq in Hq; [done|].
    rewrite removed_lookup in Hq. by case_decide. }
  destruct (mkdir_cases (uploadsDir_of env) s) as [Hmk|(fs1 & Hmk & Hmade)].
  { rewrite (assemble_mkdir_fails _ _ _ _ Hmk).
    apply Hhandler. by left. }
  assert (Hfs1 : ∀ q d, fs1 !! q = Some (File d) → files s !! q = Some (File d)).
  { intros q d Hq. destruct (proj2 Hmade q) as [<-|(_ & ? & _)]; congruence. }
  destruct (stat fs1 T) as [x|] eqn:Hst; cycle 1.
  { rewrite (assemble_not_found _ _ _ _ fs1 Hmk) by done.
    intros q d Hq. left. by apply Hfs1. }
  rewrite (assemble_open _ _ _ _ fs1 Hmk) by (fold T; rewrite Hst; eauto).
  fold T F.
  set (ws := mkStream F (can_open fs1 F) false).
  set (s2 := if can_open fs1 F
             then mkDisk (<[F := File []]> fs1) (rm_faults s)
             else mkDisk fs1 (rm_faults s)).
  destruct (work_frame T (totalChunks request) ws s2)
    as (r & s3 & Hwork & Hout & _ & Hq3 & Hcl3 & _); [done|].
  assert (H3 : ∀ q d, files s3 !! q = Some (File d) →
            files s !! q = Some (File d) ∨
            (q = uploadsDir_of env ++ [basename (fileName request)] ∧
             plain (basename (fileName request)))).
  { intros q d Hq. destruct (can_open fs1 F) eqn:Hopen.
    - pose proof (opened_plain _ _ _ _ Hmade Hopen) as Hplain.
      destruct (decide (q = F)) as [->|Hne].
      + right. split; [|done]. by apply finalFilePath_of_plain.
      + left. apply Hfs1. rewrite Hq3 in Hq by done.
        unfold s2 in Hq. cbn [files] in Hq.
        by rewrite lookup_insert_ne in Hq.
    - left. apply Hfs1. rewrite Hcl3 in Hq by done. done. }
  destruct (cleanup_shrinks c T s3) as (rc & s4 & Hrc & Hsub & Hrcs).
  assert (H4 : ∀ q d, files s4 !! q = Some (File d) →
            files s !! q = Some (File d) ∨
            (q = uploadsDir_of env ++ [basename (fileName request)] ∧
             plain (basename (fileName request)))).
  { intros q d Hq. apply H3. by eapply lookup_weaken. }
  destruct Hout as [->|[[msg ->]|(-> & _)]].
  - erewrite finish_run; [|exact Hwork|done]. rewrite Hrc.
    destruct Hrcs as [->| ->]; [done|by apply Hhandler].
  - erewrite finish_run; [|exact Hwork|done]. rewrite Hrc.
    destruct Hrcs as [->| ->]; by apply Hhandler.
  - by rewrite (finish_unsettled _ _ _ _ _ _ _ Hwork).
Qed.

Lemma no_file_on_creatable fs p : no_file_on fs p = true → creatable fs p.
Proof.
  unfold no_file_on. rewrite forallb_forall. intros Hall q d [k ->] Hq.
  specialize (Hall (length q)). rewrite take_app_length in Hall.
  rewrite Hq in Hall. discriminate Hall.
  apply in_seq. rewrite length_app. lia.
Qed.

Lemma gone_absent (p : path) fs s :
  p ≠ [] → gone p fs → files s = fs → existsSync p s = (inr false, s).
Proof.
  intros Hne Hgone <-. unfold existsSync.
  rewrite stat_nonempty by done. rewrite (Hgone p) by done.
  rewrite bool_decide_eq_false_2; [done|]. by intros [? ?].
Qed.

(** ** The handlers keep the file system well-formed *)

Lemma parent_prefix (p : path) : parent p `prefix_of` p.
Proof.
  unfold parent. destruct p as [|c p _] using rev_ind; [done|].
  rewrite removelast_last. by apply prefix_app_r.
Qed.

Lemma well_formed_insert fs (p : path) x :
  well_formed fs → p ≠ [] → stat fs (parent p) = Some Dir →
  (x = Dir ∨ fs !! p ≠ Some Dir) →
  well_formed (<[p := x]> fs).
Proof.
  intros Hwf Hne Hpar Hx q Hq.
  assert (q ≠ [] ∧ stat fs (parent q) = Some Dir) as [Hq1 Hq2].
  { destruct (decide (q = p)) as [->|Hqp]; [done|].
    rewrite lookup_insert_ne in Hq by done. by apply Hwf. }
  split; [done|].
  destruct (parent q) as [|c r] eqn:Hpq; [done|]. simpl in *.
  destruct (decide (p = c :: r)) as [->|Hpc].
  - rewrite lookup_insert_eq. destruct Hx as [->|Hx]; [done|]. congruence.
  - by rewrite lookup_insert_ne.
Qed.

Lemma well_formed_removed fs (T : path) :
  well_formed fs →
  well_formed (filter (λ kv : path * node, ¬ T `prefix_of` kv.1) fs).
Proof.
  intros Hwf q Hq. rewrite removed_lookup in Hq.
  destruct (decide (T `prefix_of` q)) as [|Hn]; [by destruct Hq|].
  destruct (Hwf q Hq) as [Hq1 Hq2]. split; [done|].
  destruct (parent q) as [|c r] eqn:Hpq; [done|]. simpl in *.
  rewrite removed_lookup. rewrite decide_False; [done|].
  intros Hpre. apply Hn. etrans; [done|]. rewrite <- Hpq. apply parent_prefix.
Qed.

Lemma mkdir_go_well_formed rest : ∀ pre fs fs',
  well_formed fs → stat fs pre = Some Dir →
  mkdir_go pre rest fs = Some fs' → well_formed fs'.
Proof.
  induction rest as [|c rest IH]; intros pre fs fs' Hwf Hpre; simpl.
  - by intros [= <-].
  - assert (pre ++ [c] ≠ []) as Hne by by destruct pre.
    destruct (fs !! (pre ++ [c])) as [[|d]|] eqn:Hc; [|done|].
    + apply IH; [done|]. by rewrite stat_nonempty.
    + apply IH.
      * apply well_formed_insert; [done|done| |by left].
        unfold parent. by rewrite removelast_last.
      * by rewrite stat_nonempty, lookup_insert_eq.
Qed.

Lemma keeps_ret {A} (a : A) : keeps_well_formed (ret a).
Proof. by intros s. Qed.

Lemma keeps_throw {A} e : keeps_well_formed (@throw A e).
Proof. by intros s. Qed.

Lemma keeps_never {A} : keeps_well_formed (@never A).
Proof. by intros s. Qed.

Lemma keeps_bind {A B} (m : M A) (k : A → M B) :
  keeps_well_formed m → (∀ a, keeps_well_formed (k a)) →
  keeps_well_formed (m ≫= k).
Proof.
  intros Hm Hk s Hwf. rewrite bind_run. specialize (Hm s Hwf).
  destruct (m s) as [[e|a] s1]; [done|]. by apply Hk.
Qed.

Lemma keeps_try_catch {A} (m : M A) (h : Exn → M A) :
  keeps_well_formed m → (∀ e, keeps_well_formed (h e)) →
  keeps_well_formed (try_catch m h).
Proof.
  intros Hm Hh s Hwf. unfold try_catch. specialize (Hm s Hwf).
  destruct (m s) as [[[msg|]|a] s1]; [|done|done]. by apply Hh.
Qed.

Lemma keeps_try_finally {A} (m : M A) (fin : M unit) :
  keeps_well_formed m → keeps_well_formed fin →
  keeps_well_formed (try_finally m fin).
Proof.
  intros Hm Hfin s Hwf. unfold try_finally. specialize (Hm s Hwf).
  destruct (m s) as [r s1]. specialize (Hfin s1 Hm).
  destruct r as [[msg|]|a]; [|done|]; by destruct (fin s1) as [[e|[]] s2].
Qed.

Lemma keeps_existsSync p : keeps_well_formed (existsSync p).
Proof. by intros s. Qed.

Lemma keeps_readFile p : keeps_well_formed (readFile p).
Proof. intros s Hwf. unfold readFile. by destruct (stat _ _) as [[|?]|]. Qed.

Lemma keeps_mkdir p : keeps_well_formed (mkdir p).
Proof.
  intros s Hwf. unfold mkdir.
  destruct (mkdir_go [] p (files s)) as [fs'|] eqn:Hgo; [|done].
  simpl. by eapply (mkdir_go_well_formed p []).
Qed.

Lemma can_open_true fs (p : path) :
  can_open fs p = true →
  p ≠ [] ∧ stat fs (parent p) = Some Dir ∧ fs !! p ≠ Some Dir.
Proof.
  intros Hopen. assert (p ≠ []) as Hne by (by intros ->).
  rewrite can_open_eq in Hopen by done. split; [done|].
  destruct (stat fs (parent p)) as [[|?]|]; [|done..].
  split; [done|]. by destruct (fs !! p) as [[|?]|].
Qed.

Lemma keeps_writeFile p d : keeps_well_formed (writeFile p d).
Proof.
  intros s Hwf. unfold writeFile.
  destruct (can_open (files s) p) eqn:Hopen; [|done].
  apply can_open_true in Hopen as (? & ? & ?).
  apply well_formed_insert; eauto.
Qed.

Lemma keeps_createWriteStream p : keeps_well_formed (createWriteStream p).
Proof.
  intros s Hwf. unfold createWriteStream.
  destruct (can_open (files s) p) eqn:Hopen; [|done].
  apply can_open_true in Hopen as (? & ? & ?).
  apply well_formed_insert; eauto.
Qed.

Lemma keeps_ws_write ws d : keeps_well_formed (ws_write ws d).
Proof.
  intros s Hwf. unfold ws_write. destruct (ws_opened ws); [|done].
  destruct (files s !! ws_path ws) as [[|old]|] eqn:Hp; [done| |done].
  destruct (Hwf (ws_path ws)) as [? ?]; [by eauto|].
  apply well_formed_insert; [done..|]. right. congruence.
Qed.

Lemma keeps_rm p : keeps_well_formed (rm p).
Proof.
  intros s Hwf. unfold rm.
  destruct (rm_faults s) as [|[] fl]; [|done|]; by apply well_formed_removed.
Qed.

Lemma keeps_cleanup c p : keeps_well_formed (cleanup c p).
Proof.
  destruct c; [apply keeps_rm|].
  apply keeps_try_catch; [apply keeps_rm|]. intros e. apply keeps_ret.
Qed.

Lemma keeps_assemble_loop fuel tempDir total : ∀ ws i,
  keeps_well_formed (assemble_loop fuel tempDir total ws i).
Proof.
  induction fuel as [|fuel IH]; intros ws i; cbn [assemble_loop];
    [apply keeps_ret|].
  destruct (js_lt (Num i) total); [|apply keeps_ret].
  apply keeps_bind; [apply keeps_existsSync|]. intros present.
  destruct present; cbn [negb]; [|apply keeps_throw].
  apply keeps_bind; [apply keeps_readFile|]. intros d.
  apply keeps_bind; [apply keeps_ws_write|]. intros _. apply IH.
Qed.

Lemma keeps_finalize c env request :
  keeps_well_formed (finalize_with c env request).
Proof.
  unfold finalize_with. destruct (accepted _); [|apply keeps_ret].
  apply keeps_try_catch.
  - unfold assemble.
    apply keeps_bind; [apply keeps_mkdir|]. intros _.
    apply keeps_bind; [apply keeps_existsSync|]. intros present.
    destruct present; cbn [negb]; [|apply keeps_ret].
    apply keeps_bind; [apply keeps_createWriteStream|]. intros ws.
    apply keeps_bind; [|intros _; apply keeps_ret].
    apply keeps_try_finally.
    + apply keeps_bind; [apply keeps_assemble_loop|]. intros ws'.
      unfold ws_end_and_wait.
      destruct (ws_opened ws'); [apply keeps_ret|].
      destruct (ws_unheard ws'); [apply keeps_never|apply keeps_throw].
    + apply keeps_bind; [apply keeps_ret|]. intros _. apply keeps_cleanup.
  - intros e. apply keeps_bind; [|intros _; apply keeps_ret].
    apply (keeps_cleanup Guarded).
Qed.

(** All three handlers take a well-formed file system to a well-formed
    one; the disks of the examples, made from the empty disk by the
    handlers, are well-formed. *)
Theorem handlers_keep_well_formed env :
  (∀ form, keeps_well_formed (UploadChunk.POST env form)) ∧
  (∀ request, keeps_well_formed (RouteTs.POST env request)) ∧
  (∀ request, keeps_well_formed (Part001.POST env request)).
Proof.
  split; [|split].
  - intros form. unfold UploadChunk.POST.
    apply keeps_try_catch; [|intros e; apply keeps_ret].
    destruct (_ || _); [apply keeps_ret|].
    apply keeps_bind.
    { unfold UploadChunk.replace_in.
      destruct (UploadChunk.uploadId form); (apply keeps_ret || apply keeps_throw). }
    intros safeUploadId. destruct (UploadChunk.differs _ _); [apply keeps_ret|].
    apply keeps_bind.
    { unfold UploadChunk.replace_in.
      destruct (UploadChunk.chunkIndex form); (apply keeps_ret || apply keeps_throw). }
    intros safeChunkIndex. destruct (UploadChunk.differs _ _); [apply keeps_ret|].
    apply keeps_bind.
    { unfold UploadChunk.arrayBuffer.
      destruct (UploadChunk.file form); (apply keeps_ret || apply keeps_throw). }
    intros buffer.
    apply keeps_bind; [apply keeps_mkdir|]. intros _.
    apply keeps_bind; [apply keeps_writeFile|]. intros _. apply keeps_ret.
  - intros request. rewrite RouteTs_POST_eq. apply keeps_finalize.
  - intros request. rewrite Part001_POST_eq. apply keeps_finalize.
Qed.

Lemma upload_each_well_formed env id payload order : ∀ s,
  well_formed (files s) →
  well_formed (files (upload_each env id payload order s).2).
Proof.
  induction order as [|i rest IH]; intros s Hwf; cbn [upload_each]; [done|].
  pose proof (proj1 (handlers_keep_well_formed env)
                (chunk_form id i (payload i)) s Hwf) as H1.
  destruct (UploadChunk.POST env (chunk_form id i (payload i)) s) as [r s1].
  specialize (IH s1 H1).
  by destruct (upload_each env id payload rest s1) as [rs s2].
Qed.

Example sample_disks_well_formed :
  well_formed (files disk0) ∧ well_formed (files staged0) ∧
  well_formed (files partly0) ∧ well_formed (files faulty0).
Proof.
  assert (well_formed (files disk0)) as H0.
  { intros p [x Hx]. simpl in Hx. by rewrite lookup_empty in Hx. }
  split; [done|]. split; [|split].
  - by apply upload_each_well_formed.
  - by apply upload_each_well_formed.
  - by apply upload_each_well_formed.
Qed.

(** * The claims *)

(** C7.  For every integer [totalChunks] below 1 or above [MAX_CHUNKS]
    (1000), both finalize handlers answer 400 "Invalid totalChunks" and
    return the disk they were given: nothing is created, changed or
    deleted, whatever staging directory the session has. *)
Theorem C7_invalid_chunk_count env id name z s :
  z < 1 ∨ z > MAX_CHUNKS →
  MAX_CHUNKS = 1000 ∧
  RouteTs.POST env (mkFinalize id name (Num z)) s
    = (inr (json_error "Invalid totalChunks" 400), s) ∧
  Part001.POST env (mkFinalize id name (Num z)) s
    = (inr (json_error "Invalid totalChunks" 400), s).
Proof.
  intros Hz. split; [done|].
  assert (accepted (Num z) = false) as Hrej.
  { destruct (accepted (Num z)) eqn:Hacc; [|done].
    apply accepted_Num in Hacc. lia. }
  rewrite RouteTs_POST_eq, Part001_POST_eq.
  split; by apply finalize_rejected.
Qed.

Lemma C7_invalid_chunk_count_witness :
  MAX_CHUNKS = 1000 ∧
  RouteTs.POST env0 (mkFinalize "abc-1" "out.bin" (Num 0)) staged0
    = (inr (json_error "Invalid totalChunks" 400), staged0) ∧
  Part001.POST env0 (mkFinalize "abc-1" "out.bin" (Num 0)) staged0
    = (inr (json_error "Invalid totalChunks" 400), staged0).
Proof. apply C7_invalid_chunk_count. left. lia. Defined.

(** C9, on the code.  With both chunks of session [abc-1] in place and a
    deletion in the [finally] block that fails, route.ts answers 500
    "Assembly failed" and part_001 answers 200 with the public path: the
    two handlers are not equivalent.  It is the one place where they part
    (see X5 below), and the defect of route.ts shown under C3. *)
Lemma C9_handlers_differ :
  (RouteTs.POST env0 request0 faulty0).1
    = inr (json_error "Assembly failed" 500) ∧
  (Part001.POST env0 request0 faulty0).1
    = inr (mkResponse 200 (BSuccessPath "/uploads/out.bin")) ∧
  RouteTs.POST env0 request0 faulty0 ≠ Part001.POST env0 request0 faulty0.
Proof.
  split; [by vm_compute|]. split; [by vm_compute|].
  intros H. apply (f_equal fst) in H. vm_compute in H. discriminate.
Qed.

(** C10.  When [totalChunks] reads as [NaN] (the field is absent or not a
    number) both comparisons of the range check are false and the request
    is accepted; the loop makes no iteration; on a session whose staging
    directory exists, with a destination that can be written, the handler
    leaves an empty destination file (whatever file was there before),
    deletes the staging directory and answers 200 with the public path. *)
Theorem C10_nan_total env id name s :
  let request := mkFinalize id name NaN in
  is_Some (stat (files s) (tempDir_of env id)) →
  creatable (files s) (uploadsDir_of env) →
  writable env request (files s) →
  apart env request →
  first_rm_ok s →
  js_gt NaN (Num MAX_CHUNKS) = false ∧ js_lt NaN (Num 1) = false ∧
  (∀ ws s1, for_chunks (tempDir_of env id) NaN ws 0 s1 = (inr ws, s1)) ∧
  assembled (RouteTs.POST env request) env request [] s ∧
  assembled (Part001.POST env request) env request [] s.
Proof.
  intros request Hstage Hfree Hwr Hsep Hrm.
  split; [done|]. split; [done|]. split.
  { intros ws s1. by apply for_chunks_done. }
  unfold assembled. rewrite RouteTs_POST_eq, Part001_POST_eq.
  split.
  - destruct (finalize_success Bare env request s (λ _, []) 0)
      as (s' & Hrun & Hfile & Hgone); try done; try (intros j Hj; lia).
    exists s'. repeat split; try done.
    eapply gone_absent; [apply tempDir_of_nonempty|done..].
  - destruct (finalize_success Guarded env request s (λ _, []) 0)
      as (s' & Hrun & Hfile & Hgone); try done; try (intros j Hj; lia).
    exists s'. repeat split; try done.
    eapply gone_absent; [apply tempDir_of_nonempty|done..].
Qed.

Lemma C10_nan_total_witness :
  js_gt NaN (Num MAX_CHUNKS) = false ∧ js_lt NaN (Num 1) = false ∧
  (∀ ws s1, for_chunks (tempDir_of env0 "abc-1") NaN ws 0 s1 = (inr ws, s1)) ∧
  assembled (RouteTs.POST env0 (mkFinalize "abc-1" "out.bin" NaN))
    env0 (mkFinalize "abc-1" "out.bin" NaN) [] staged0 ∧
  assembled (Part001.POST env0 (mkFinalize "abc-1" "out.bin" NaN))
    env0 (mkFinalize "abc-1" "out.bin" NaN) [] staged0.
Proof.
  apply (C10_nan_total env0 "abc-1" "out.bin" staged0).
  - vm_compute. eauto.
  - apply no_file_on_creatable. by vm_compute.
  - split; [repeat split; by vm_compute|by vm_compute].
  - split; intros [k Hk]; vm_compute in Hk; discriminate.
  - by vm_compute.
Defined.

(** C5, as amended.  When [totalChunks] is accepted, the session has no
    staging directory and the destination root can be made, both handlers
    answer 404 "Upload session not found"; the one effect is that the
    destination root and the directories leading to it exist afterwards:
    every entry of the disk is kept as it was, no file is created, and
    nothing is deleted. *)
Theorem C5_session_not_found env request s :
  accepted (totalChunks request) = true →
  stat (files s) (tempDir_of env (uploadId request)) = None →
  ¬ tempDir_of env (uploadId request) `prefix_of` uploadsDir_of env →
  creatable (files s) (uploadsDir_of env) →
  ∃ fs1,
    RouteTs.POST env request s =
      (inr (json_error "Upload session not found" 404),
       mkDisk fs1 (rm_faults s)) ∧
    Part001.POST env request s =
      (inr (json_error "Upload session not found" 404),
       mkDisk fs1 (rm_faults s)) ∧
    (∀ q x, files s !! q = Some x → fs1 !! q = Some x) ∧
    (∀ q d, fs1 !! q = Some (File d) → files s !! q = Some (File d)) ∧
    (∀ q, fs1 !! q = Some Dir →
       files s !! q = Some Dir ∨ q `prefix_of` uploadsDir_of env).
Proof.
  intros Hacc Hstage Hsep Hfree.
  rewrite RouteTs_POST_eq, Part001_POST_eq.
  destruct (mkdir_ok _ _ Hfree) as (fs1 & Hmk & Hmade).
  assert (stat fs1 (tempDir_of env (uploadId request)) = None) as Hst.
  { rewrite stat_nonempty in * by apply tempDir_of_nonempty.
    by rewrite (made_same _ _ _ _ Hmade). }
  unfold finalize_with. rewrite Hacc. unfold try_catch.
  rewrite !(assemble_not_found _ _ _ _ fs1 Hmk) by done.
  exists fs1. split; [done|]. split; [done|]. split; [|split].
  - intros q x Hq. by eapply made_file.
  - intros q d Hq. destruct (proj2 Hmade q) as [<-|(_ & ? & _)]; congruence.
  - intros q Hq. destruct (proj2 Hmade q) as [<-|(_ & _ & ? & _)]; eauto.
Qed.

Lemma C5_session_not_found_witness :
  ∃ fs1,
    RouteTs.POST env0 request_nosuch disk0 =
      (inr (json_error "Upload session not found" 404),
       mkDisk fs1 (rm_faults disk0)) ∧
    Part001.POST env0 request_nosuch disk0 =
      (inr (json_error "Upload session not found" 404),
       mkDisk fs1 (rm_faults disk0)) ∧
    (∀ q x, files disk0 !! q = Some x → fs1 !! q = Some x) ∧
    (∀ q d, fs1 !! q = Some (File d) → files disk0 !! q = Some (File d)) ∧
    (∀ q, fs1 !! q = Some Dir →
       files disk0 !! q = Some Dir ∨ q `prefix_of` uploadsDir_of env0).
Proof.
  apply (C5_session_not_found env0 request_nosuch disk0).
  - by vm_compute.
  - by vm_compute.
  - intros [k Hk]; vm_compute in Hk; discriminate.
  - apply no_file_on_creatable. by vm_compute.
Defined.

(** C5 as stated fails: on an empty disk the 404 comes with the
    destination root freshly made. *)
Lemma C5_not_found_makes_root :
  accepted (totalChunks request_nosuch) = true ∧
  stat (files disk0) (tempDir_of env0 (uploadId request_nosuch)) = None ∧
  (RouteTs.POST env0 request_nosuch disk0).1
    = inr (json_error "Upload session not found" 404) ∧
  files disk0 !! ["app"; "public"; "uploads"] = None ∧
  files (RouteTs.POST env0 request_nosuch disk0).2
    !! ["app"; "public"; "uploads"] = Some Dir ∧
  (RouteTs.POST env0 request_nosuch disk0).2 ≠ disk0.
Proof.
  repeat split; by vm_compute.
Qed.

(** C1.  For every session id matching [^[A-Za-z0-9_-]+$], every [n]
    between 1 and [MAX_CHUNKS] and every choice of payloads, on a disk
    where the staging area and the destination are usable and no deletion
    fails: the receives for the indices of [order] (every index below
    [n], in any order) all answer 200; finalize with total [n] then
    answers 200 with the public path, the destination file holds the
    payloads of chunks [0 .. n-1] in that order, and the staging
    directory of the session no longer exists.  Both finalize handlers. *)
Theorem C1_round_trip env id name n (payload : Z → list Byte.byte) order s0 :
  let request := mkFinalize id name (Num n) in
  valid_id id →
  1 ≤ n ≤ MAX_CHUNKS →
  (∀ j, 0 ≤ j < n → j ∈ order) →
  (∀ j, j ∈ order → 0 ≤ j) →
  staging_ready env id order (files s0) →
  destination_ready env request (files s0) →
  apart env request →
  first_rm_ok s0 →
  ∃ s1,
    upload_each env id payload order s0
      = (replicate (length order) (inr (mkResponse 200 BSuccess)), s1) ∧
    assembled (RouteTs.POST env request) env request
      (concat (payload <$> seqZ 0 n)) s1 ∧
    assembled (Part001.POST env request) env request
      (concat (payload <$> seqZ 0 n)) s1.
Proof.
  intros request Hid Hn Hall Hpos Hstage Hdest Hsep Hrm.
  destruct (upload_each_run env request payload order s0)
    as (s1 & Hup & Hf & Hdest1 & Hchunks & _ & Hdir); try done.
  exists s1. split; [done|].
  assert (order ≠ []) as Hne.
  { intros ->. assert (0 ∈ @nil Z) as Habs by (apply Hall; lia).
    by apply elem_of_nil in Habs. }
  assert (∀ c, ∃ s', finalize_with c env request s1 =
                       (inr (success_response request), s') ∧
            files s' !! finalFilePath_of env (fileName request)
              = Some (File (concat (payload <$> seqZ 0 n))) ∧
            gone (tempDir_of env (uploadId request)) (files s')) as Hfin.
  { intros c. apply finalize_success.
    - by apply accepted_Num.
    - lia.
    - intros j Hj. simpl. apply Z.ltb_lt. lia.
    - simpl. apply Z.ltb_irrefl.
    - apply Hdest1.
    - rewrite stat_nonempty by apply tempDir_of_nonempty.
      rewrite (Hdir Hne). eauto.
    - apply Hdest1.
    - done.
    - intros j Hj. apply Hchunks, Hall. lia.
    - unfold first_rm_ok. by rewrite Hf. }
  unfold assembled. rewrite RouteTs_POST_eq, Part001_POST_eq.
  split.
  - destruct (Hfin Bare) as (s' & ? & ? & ?). exists s'. repeat split; try done.
    eapply gone_absent; [apply tempDir_of_nonempty|done..].
  - destruct (Hfin Guarded) as (s' & ? & ? & ?). exists s'. repeat split; try done.
    eapply gone_absent; [apply tempDir_of_nonempty|done..].
Qed.

Lemma C1_round_trip_witness :
  ∃ s1,
    upload_each env0 "abc-1" payload0 [0; 1] disk0
      = (replicate 2 (inr (mkResponse 200 BSuccess)), s1) ∧
    assembled (RouteTs.POST env0 request0) env0 request0
      (concat (payload0 <$> seqZ 0 2)) s1 ∧
    assembled (Part001.POST env0 request0) env0 request0
      (concat (payload0 <$> seqZ 0 2)) s1.
Proof.
  apply (C1_round_trip env0 "abc-1" "out.bin" 2 payload0 [0; 1] disk0).
  - split; [done|by vm_compute].
  - unfold MAX_CHUNKS. lia.
  - intros j Hj. assert (j = 0 ∨ j = 1) as [-> | ->] by lia.
    + by left.
    + right. by left.
  - intros j Hj. apply elem_of_cons in Hj as [->|Hj]; [lia|].
    apply elem_of_cons in Hj as [->|Hj]; [lia|]. by apply elem_of_nil in Hj.
  - split; [apply no_file_on_creatable; by vm_compute|].
    intros j _. simpl. by rewrite lookup_empty.
  - split; [apply no_file_on_creatable; by vm_compute|]. split.
    + split; [repeat split; by vm_compute|by vm_compute].
    + intros [k Hk]; vm_compute in Hk; discriminate.
  - split; intros [k Hk]; vm_compute in Hk; discriminate.
  - by vm_compute.
Defined.

(** The scenario of the design document, evaluated. *)
Example round_trip_scenario :
  ∃ s2, RouteTs.POST env0 request0 staged0
          = (inr (mkResponse 200 (BSuccessPath "/uploads/out.bin")), s2) ∧
    files s2 !! ["app"; "public"; "uploads"; "out.bin"]
      = Some (File [Byte.x41; Byte.x41; Byte.x41; Byte.x41; Byte.x42; Byte.x42]) ∧
    files s2 !! ["tmp"; "uploads"; "abc-1"] = None.
Proof. eexists. split; [by vm_compute|]. split; by vm_compute. Qed.

Lemma for_chunks_first_missing tempDir n m : ∀ k ws i s,
  k = Z.to_nat (m - i) → 0 ≤ i ≤ m → m < n →
  ¬ tempDir `prefix_of` ws_path ws →
  (∀ j, i ≤ j < m →
     ∃ x, files s !! (tempDir ++ [chunk_name j]) = Some (File x)) →
  files s !! (tempDir ++ [chunk_name m]) = None →
  ∃ s', for_chunks tempDir (Num n) ws i s
          = (inl (Error ("Missing chunk " +:+ pretty m)), s').
Proof.
  assert (Hcp : ∀ ws, ¬ tempDir `prefix_of` ws_path ws →
                ∀ j, tempDir ++ [chunk_name j] ≠ ws_path ws).
  { intros ws Hsep j Heq. apply Hsep. rewrite <- Heq. by apply prefix_app_r. }
  induction k as [|k IH]; intros ws i s Hk Hi Hn Hsep Hchunks Hnone.
  - assert (i = m) as -> by lia.
    rewrite for_chunks_missing; [by eauto| |lia|done].
    simpl. apply Z.ltb_lt. lia.
  - destruct (Hchunks i) as [x Hx]; [lia|].
    rewrite (for_chunks_step _ _ _ _ _ x); [|simpl; apply Z.ltb_lt; lia|lia|done].
    destruct (ws_write_run (ws_after_await ws) x s) as (s1 & -> & _ & Hq1 & _).
    rewrite ws_after_await_path in Hq1. simpl.
    apply IH; [lia|lia|done|by rewrite ws_after_await_path| |].
    + intros j Hj. rewrite Hq1 by by apply Hcp. apply Hchunks. lia.
    + rewrite Hq1 by by apply Hcp. done.
Qed.

(** C4.  On a session whose staging directory exists but lacks chunk [k]
    for some [k] below an accepted [totalChunks], with no failing
    deletion, both finalize handlers answer the generic 500 "Assembly
    failed"; the staging directory no longer exists afterwards; the bytes
    appended before the first absent chunk [m] stay in the destination
    file (chunks [0 .. m-1], nothing rolled back); and the error the loop
    throws is "Missing chunk m". *)
Theorem C4_missing_chunk env request s n k :
  totalChunks request = Num n → 1 ≤ n ≤ MAX_CHUNKS → 0 ≤ k < n →
  is_Some (stat (files s) (tempDir_of env (uploadId request))) →
  files s !! (tempDir_of env (uploadId request) ++ [chunk_name k]) = None →
  apart env request →
  first_rm_ok s →
  truncated (RouteTs.POST env request) env request s ∧
  truncated (Part001.POST env request) env request s ∧
  ∀ m ws,
    0 ≤ m →
    (∀ j, 0 ≤ j < m →
       ∃ x, files s !! (tempDir_of env (uploadId request) ++ [chunk_name j])
              = Some (File x)) →
    files s !! (tempDir_of env (uploadId request) ++ [chunk_name m]) = None →
    ¬ tempDir_of env (uploadId request) `prefix_of` ws_path ws →
    ∃ s3, for_chunks (tempDir_of env (uploadId request)) (Num n) ws 0 s
            = (inl (Error ("Missing chunk " +:+ pretty m)), s3).
Proof.
  intros Htotal Hn Hk Hstage Hnone Hsep Hrm.
  set (T := tempDir_of env (uploadId request)) in *.
  assert (Hfirst : ∀ m, 0 ≤ m →
            (∀ j, 0 ≤ j < m → ∃ x, files s !! (T ++ [chunk_name j]) = Some (File x)) →
            m ≤ k).
  { intros m Hm Hchunks. destruct (decide (m ≤ k)) as [|Hgt]; [done|].
    destruct (Hchunks k) as [x Hx]; [lia|congruence]. }
  assert (Hboth : ∀ c, truncated (finalize_with c env request) env request s).
  { intros c.
    destruct (finalize_missing c env request s n k) as (s' & Hrun & Hgone);
      try done.
    exists s'. split; [done|]. split; [done|]. split.
    { eapply gone_absent; [apply tempDir_of_nonempty|done..]. }
    intros m d Hchunks Hm Hm0 Hfree Hwr.
    assert (m ≤ k) by (apply Hfirst; [done|]; intros j Hj; eauto).
    destruct (finalize_truncated c env request s n m d)
      as (s'' & Hrun' & Hcontent); try done; [lia|].
    congruence. }
  rewrite RouteTs_POST_eq, Part001_POST_eq.
  split; [apply Hboth|]. split; [apply Hboth|].
  intros m ws Hm0 Hchunks Hm Hws.
  pose proof (Hfirst m Hm0 Hchunks) as Hmk.
  apply (for_chunks_first_missing T n m (Z.to_nat (m - 0)) ws);
    try done; lia.
Qed.

Lemma C4_missing_chunk_witness :
  truncated (RouteTs.POST env0 request0) env0 request0 partly0 ∧
  truncated (Part001.POST env0 request0) env0 request0 partly0 ∧
  ∀ m ws,
    0 ≤ m →
    (∀ j, 0 ≤ j < m →
       ∃ x, files partly0 !! (tempDir_of env0 (uploadId request0) ++ [chunk_name j])
              = Some (File x)) →
    files partly0 !! (tempDir_of env0 (uploadId request0) ++ [chunk_name m]) = None →
    ¬ tempDir_of env0 (uploadId request0) `prefix_of` ws_path ws →
    ∃ s3, for_chunks (tempDir_of env0 (uploadId request0)) (Num 2) ws 0 partly0
            = (inl (Error ("Missing chunk " +:+ pretty m)), s3).
Proof.
  apply (C4_missing_chunk env0 request0 partly0 2 1).
  - done.
  - unfold MAX_CHUNKS. lia.
  - lia.
  - vm_compute. eauto.
  - by vm_compute.
  - split; intros [k Hk]; vm_compute in Hk; discriminate.
  - by vm_compute.
Defined.

(** The truncated destination, evaluated: chunk 0 of two is there, chunk 1
    is not. *)
Example truncated_scenario :
  (RouteTs.POST env0 request0 partly0).1
    = inr (json_error "Assembly failed" 500) ∧
  files (RouteTs.POST env0 request0 partly0).2
    !! ["app"; "public"; "uploads"; "out.bin"]
    = Some (File [Byte.x41; Byte.x41; Byte.x41; Byte.x41]) ∧
  files (RouteTs.POST env0 request0 partly0).2
    !! ["tmp"; "uploads"; "abc-1"] = None.
Proof. repeat split; by vm_compute. Qed.

(** C6, as amended.  [path.basename] never returns a slash; when the last
    segment of [destinationName] is an ordinary name the destination path
    is that one segment directly below the destination root; and on every
    request and every disk, every file on the disk that either finalize
    handler leaves, whether or not it comes to answer, was there before,
    unchanged, or is that destination file, directly below the root: no
    file outside the root is created or changed. *)
Theorem C6_confinement env request :
  no_slash (basename (fileName request)) ∧
  (plain (basename (fileName request)) →
   finalFilePath_of env (fileName request)
     = process_cwd env ++ ["public"; "uploads"; basename (fileName request)]) ∧
  ∀ s, confined (RouteTs.POST env request) env request s ∧
       confined (Part001.POST env request) env request s.
Proof.
  split; [apply basename_no_slash|]. split.
  - intros Hplain. rewrite finalFilePath_of_plain by done.
    rewrite uploadsDir_of_eq. by rewrite <- app_assoc.
  - intros s. unfold confined. rewrite RouteTs_POST_eq, Part001_POST_eq.
    split; apply finalize_confined.
Qed.

Lemma C6_confinement_witness :
  finalFilePath_of env0 (fileName request_passwd)
    = ["app"; "public"; "uploads"; "passwd"] ∧
  confined (RouteTs.POST env0 request_passwd) env0 request_passwd staged0 ∧
  confined (Part001.POST env0 request_passwd) env0 request_passwd staged0.
Proof.
  destruct (C6_confinement env0 request_passwd) as (_ & Hpath & Hconf).
  split; [|apply Hconf].
  rewrite Hpath; [by vm_compute|].
  repeat split; by vm_compute.
Defined.

(** C6 as stated fails: the destination path computed for the name [..]
    is the parent of the destination root. *)
Lemma C6_dotdot_leaves_root :
  basename ".." = ".." ∧
  uploadsDir_of env0 = ["app"; "public"; "uploads"] ∧
  finalFilePath_of env0 ".." = ["app"; "public"] ∧
  ¬ uploadsDir_of env0 `prefix_of` finalFilePath_of env0 "..".
Proof.
  split; [by vm_compute|]. split; [by vm_compute|]. split; [by vm_compute|].
  intros [k Hk]. vm_compute in Hk. discriminate.
Qed.

(** What the handler does with that path: the open fails while the first
    chunk is being read, when no listener is there yet; with every chunk
    in place the loop runs to its end and the wait for [finish] is never
    settled.  Nothing is written, nothing is deleted, and no response is
    sent.  With a chunk missing the loop throws before the wait, and the
    request ends in 500. *)
Example dotdot_scenario :
  (RouteTs.POST env0 request_dotdot staged0).1 = inl Unsettled ∧
  (Part001.POST env0 request_dotdot staged0).1 = inl Unsettled ∧
  files (RouteTs.POST env0 request_dotdot staged0).2 !! ["app"; "public"]
    = Some Dir ∧
  files (RouteTs.POST env0 request_dotdot staged0).2
    !! ["tmp"; "uploads"; "abc-1"; "chunk_0"]
    = Some (File [Byte.x41; Byte.x41; Byte.x41; Byte.x41]) ∧
  (RouteTs.POST env0 request_dotdot partly0).1
    = inr (json_error "Assembly failed" 500).
Proof. repeat split; by vm_compute. Qed.

(** An assembly error is reported as such whether or not the deletions
    that follow it fail. *)
Lemma finalize_missing_response c env request s n k :
  totalChunks request = Num n → 1 ≤ n ≤ MAX_CHUNKS → 0 ≤ k < n →
  is_Some (stat (files s) (tempDir_of env (uploadId request))) →
  files s !! (tempDir_of env (uploadId request) ++ [chunk_name k]) = None →
  apart env request →
  ∃ s', finalize_with c env request s =
          (inr (json_error "Assembly failed" 500), s').
Proof.
  intros Htotal Hn Hk Hstage Hnone [Hsep0 Hsep].
  unfold finalize_with. rewrite Htotal.
  rewrite (proj2 (accepted_Num n) Hn). unfold try_catch.
  set (T := tempDir_of env (uploadId request)) in *.
  destruct (mkdir_cases (uploadsDir_of env) s) as [Hmk|(fs1 & Hmk & Hmade)].
  - rewrite (assemble_mkdir_fails _ _ _ _ Hmk).
    destruct (handler_run T (json_error "Assembly failed" 500) s)
      as (s5 & -> & _). by eauto.
  - rewrite (assemble_open _ _ _ _ fs1 Hmk) by by eapply made_stays.
    fold T. rewrite Htotal.
    set (F := finalFilePath_of env (fileName request)) in *.
    set (ws := mkStream F (can_open fs1 F) false).
    set (s2 := if can_open fs1 F
               then mkDisk (<[F := File []]> fs1) (rm_faults s)
               else mkDisk fs1 (rm_faults s)).
    assert (F ≠ T ++ [chunk_name k]) as HF.
    { intros Heq. apply Hsep. rewrite Heq. by apply prefix_app_r. }
    destruct (work_throws T n ws k s2) as (e & s3 & Hwork & _).
    { done. } { done. }
    { assert (fs1 !! (T ++ [chunk_name k]) = None) as Hfs1.
      { rewrite (made_same _ _ _ _ Hmade); [done|].
        intros Hpre. apply Hsep0. by eapply prefix_app_l. }
      unfold s2. destruct (can_open fs1 F); cbn [files]; [|done].
      by rewrite lookup_insert_ne. }
    erewrite finish_run; [|exact Hwork|done].
    destruct (cleanup_shrinks c T s3) as (rc & s4 & -> & _ & [->| ->]).
    + destruct (handler_run T (json_error "Assembly failed" 500) s4)
        as (s5 & -> & _). by eauto.
    + destruct (handler_run T (json_error "Assembly failed" 500) s4)
        as (s5 & -> & _). by eauto.
Qed.

(** C3, on the code.  With every chunk of an accepted request in place
    and a destination that can be written, a failure of the deletion in
    the [finally] block makes route.ts answer 500 "Assembly failed"
    although the destination file is complete; part_001 answers 200 with
    the public path on the same input.  (An assembly error stays a 500 in
    both handlers whatever the deletions do: [finalize_missing_response].) *)
Theorem C3_cleanup_failure_masks_success env id name n
    (payload : Z → list Byte.byte) s fl :
  let request := mkFinalize id name (Num n) in
  1 ≤ n ≤ MAX_CHUNKS →
  creatable (files s) (uploadsDir_of env) →
  is_Some (stat (files s) (tempDir_of env id)) →
  writable env request (files s) →
  apart env request →
  (∀ j, 0 ≤ j < n →
     files s !! (tempDir_of env id ++ [chunk_name j]) = Some (File (payload j))) →
  rm_faults s = true :: fl →
  (∃ s', RouteTs.POST env request s
           = (inr (json_error "Assembly failed" 500), s') ∧
     files s' !! finalFilePath_of env name
       = Some (File (concat (payload <$> seqZ 0 n)))) ∧
  (∃ s', Part001.POST env request s = (inr (success_response request), s') ∧
     files s' !! finalFilePath_of env name
       = Some (File (concat (payload <$> seqZ 0 n)))).
Proof.
  intros request Hn Hfree Hstage Hwr Hsep Hchunks Hfault.
  rewrite RouteTs_POST_eq, Part001_POST_eq.
  apply (finalize_cleanup_fault env request s payload n fl); try done.
  - by apply accepted_Num.
  - lia.
  - intros j Hj. simpl. apply Z.ltb_lt. lia.
  - simpl. apply Z.ltb_irrefl.
Qed.

Lemma C3_cleanup_failure_masks_success_witness :
  (∃ s', RouteTs.POST env0 request0 faulty0
           = (inr (json_error "Assembly failed" 500), s') ∧
     files s' !! finalFilePath_of env0 "out.bin"
       = Some (File (concat (payload0 <$> seqZ 0 2)))) ∧
  (∃ s', Part001.POST env0 request0 faulty0
           = (inr (success_response request0), s') ∧
     files s' !! finalFilePath_of env0 "out.bin"
       = Some (File (concat (payload0 <$> seqZ 0 2)))).
Proof.
  apply (C3_cleanup_failure_masks_success env0 "abc-1" "out.bin" 2
           payload0 faulty0 []).
  - unfold MAX_CHUNKS. lia.
  - apply no_file_on_creatable. by vm_compute.
  - vm_compute. eauto.
  - split; [repeat split; by vm_compute|by vm_compute].
  - split; intros [k Hk]; vm_compute in Hk; discriminate.
  - intros j Hj. assert (j = 0 ∨ j = 1) as [-> | ->] by lia; by vm_compute.
  - done.
Defined.

(** C2, as amended.  For a session id with a character outside
    [A-Za-z0-9_-]: the receiver answers 400 ("Invalid uploadId", or
    "Missing fields" when the payload or the index is missing) and
    returns the disk it was given; the finalize handlers do not reject:
    they drop the characters outside the class and behave exactly as on
    the request that carries the stripped id. *)
Theorem C2_bad_session_id env id :
  all_chars is_id_char id = false →
  (∀ file idx s, ∃ msg,
     (msg = "Missing fields" ∨ msg = "Invalid uploadId") ∧
     UploadChunk.POST env
       (UploadChunk.mkForm file idx (UploadChunk.FString id)) s
     = (inr (json_error msg 400), s)) ∧
  (∀ name total,
     RouteTs.POST env (mkFinalize id name total)
       = RouteTs.POST env (mkFinalize (replace_outside is_id_char id) name total) ∧
     Part001.POST env (mkFinalize id name total)
       = Part001.POST env (mkFinalize (replace_outside is_id_char id) name total)).
Proof.
  intros Hbad. split.
  - intros file idx s. unfold UploadChunk.POST, try_catch.
    cbn [UploadChunk.file UploadChunk.chunkIndex UploadChunk.uploadId].
    destruct (negb (UploadChunk.truthy file) || negb (UploadChunk.truthy idx)
              || negb (UploadChunk.truthy (UploadChunk.FString id))) eqn:Hmiss.
    + exists "Missing fields". by split; [left|].
    + exists "Invalid uploadId". split; [by right|].
      rewrite bind_run. unfold UploadChunk.replace_in at 1, ret at 1.
      unfold UploadChunk.differs at 1.
      rewrite bool_decide_eq_true_2; [done|].
      intros Heq. apply replace_outside_fixed in Heq. congruence.
  - intros name total.
    unfold RouteTs.POST, Part001.POST. cbn [uploadId fileName totalChunks].
    by rewrite replace_outside_idemp.
Qed.

Lemma C2_bad_session_id_witness :
  (∀ file idx s, ∃ msg,
     (msg = "Missing fields" ∨ msg = "Invalid uploadId") ∧
     UploadChunk.POST env0
       (UploadChunk.mkForm file idx (UploadChunk.FString "abc-1!")) s
     = (inr (json_error msg 400), s)) ∧
  (∀ name total,
     RouteTs.POST env0 (mkFinalize "abc-1!" name total)
       = RouteTs.POST env0
           (mkFinalize (replace_outside is_id_char "abc-1!") name total) ∧
     Part001.POST env0 (mkFinalize "abc-1!" name total)
       = Part001.POST env0
           (mkFinalize (replace_outside is_id_char "abc-1!") name total)).
Proof. apply (C2_bad_session_id env0 "abc-1!"). by vm_compute. Defined.

(** C2 as stated fails for finalize: the id [abc-1!] is not rejected; the
    handler assembles session [abc-1], writes the destination file and
    deletes the staging directory. *)
Lemma C2_finalize_takes_bad_id :
  all_chars is_id_char (uploadId request_bad_id) = false ∧
  (RouteTs.POST env0 request_bad_id staged0).1
    = inr (mkResponse 200 (BSuccessPath "/uploads/out.bin")) ∧
  (Part001.POST env0 request_bad_id staged0).1
    = inr (mkResponse 200 (BSuccessPath "/uploads/out.bin")) ∧
  files staged0 !! ["app"; "public"; "uploads"; "out.bin"] = None ∧
  files (RouteTs.POST env0 request_bad_id staged0).2
    !! ["app"; "public"; "uploads"; "out.bin"]
    = Some (File [Byte.x41; Byte.x41; Byte.x41; Byte.x41; Byte.x42; Byte.x42]) ∧
  files staged0 !! ["tmp"; "uploads"; "abc-1"; "chunk_0"]
    = Some (File [Byte.x41; Byte.x41; Byte.x41; Byte.x41]) ∧
  files (RouteTs.POST env0 request_bad_id staged0).2
    !! ["tmp"; "uploads"; "abc-1"; "chunk_0"] = None.
Proof. repeat split; by vm_compute. Qed.

(** An id made only of characters outside the class strips to nothing:
    the staging directory is then the staging root, and the cleanup
    deletes every session's chunks. *)
Example stripped_to_nothing_scenario :
  tempDir_of env0 "!" = ["tmp"; "uploads"] ∧
  (RouteTs.POST env0 (mkFinalize "!" "out.bin" (Num 1)) staged0).1
    = inr (json_error "Assembly failed" 500) ∧
  files (RouteTs.POST env0 (mkFinalize "!" "out.bin" (Num 1)) staged0).2
    !! ["tmp"; "uploads"; "abc-1"; "chunk_0"] = None.
Proof. repeat split; by vm_compute. Qed.

(** C8, as amended.  The receiver's checks come before any write and in
    this order: a missing payload, index or session id (null or the empty
    string) gives 400 "Missing fields"; a session id with a character
    outside [A-Za-z0-9_-] gives 400 "Invalid uploadId"; an index with a
    character that is not a digit gives 400 "Invalid chunkIndex"; in each
    case the disk is returned as it was.  A payload that is present but
    has no bytes is not rejected: with a valid id and index it is stored
    as an empty chunk and the answer is 200. *)
Theorem C8_receiver_checks env form s :
  ((UploadChunk.truthy (UploadChunk.file form) = false ∨
    UploadChunk.truthy (UploadChunk.chunkIndex form) = false ∨
    UploadChunk.truthy (UploadChunk.uploadId form) = false) →
   UploadChunk.POST env form s = (inr (json_error "Missing fields" 400), s)) ∧
  (∀ id,
     UploadChunk.truthy (UploadChunk.file form) = true →
     UploadChunk.truthy (UploadChunk.chunkIndex form) = true →
     UploadChunk.uploadId form = UploadChunk.FString id →
     all_chars is_id_char id = false →
     UploadChunk.POST env form s = (inr (json_error "Invalid uploadId" 400), s)) ∧
  (∀ id idx,
     UploadChunk.truthy (UploadChunk.file form) = true →
     UploadChunk.uploadId form = UploadChunk.FString id →
     valid_id id →
     UploadChunk.chunkIndex form = UploadChunk.FString idx →
     all_chars is_digit_char idx = false →
     UploadChunk.POST env form s = (inr (json_error "Invalid chunkIndex" 400), s)) ∧
  (∀ id idx,
     UploadChunk.file form = UploadChunk.FFile [] →
     UploadChunk.uploadId form = UploadChunk.FString id →
     valid_id id →
     UploadChunk.chunkIndex form = UploadChunk.FString idx →
     all_chars is_digit_char idx = true → idx ≠ "" →
     creatable (files s) (tempDir_of env id) →
     files s !! (tempDir_of env id ++ ["chunk_" +:+ idx]) ≠ Some Dir →
     ∃ s', UploadChunk.POST env form s = (inr (mkResponse 200 BSuccess), s') ∧
       files s' !! (tempDir_of env id ++ ["chunk_" +:+ idx]) = Some (File [])).
Proof.
  destruct form as [file idx uid].
  cbn [UploadChunk.file UploadChunk.chunkIndex UploadChunk.uploadId].
  split; [|split; [|split]].
  - intros Hmiss. unfold UploadChunk.POST, try_catch.
    cbn [UploadChunk.file UploadChunk.chunkIndex UploadChunk.uploadId].
    assert (negb (UploadChunk.truthy file) || negb (UploadChunk.truthy idx)
            || negb (UploadChunk.truthy uid) = true) as ->; [|done].
    destruct Hmiss as [-> |[-> | ->]]; simpl; by rewrite ?orb_true_r.
  - intros id Hfile Hidx -> Hbad.
    assert (UploadChunk.truthy (UploadChunk.FString id) = true) as Hid
      by by destruct id.
    unfold UploadChunk.POST, try_catch.
    cbn [UploadChunk.file UploadChunk.chunkIndex UploadChunk.uploadId].
    rewrite Hfile, Hidx, Hid. cbn [negb orb].
    rewrite bind_run. unfold UploadChunk.replace_in at 1, ret at 1.
    unfold UploadChunk.differs at 1.
    rewrite bool_decide_eq_true_2; [done|].
    intros Heq. apply replace_outside_fixed in Heq. congruence.
  - intros id idx' Hfile -> [Hne Hid] -> Hbad.
    assert (UploadChunk.truthy (UploadChunk.FString id) = true) as Hidt
      by by destruct id.
    assert (UploadChunk.truthy (UploadChunk.FString idx') = true) as Hidx
      by by destruct idx'.
    unfold UploadChunk.POST, try_catch.
    cbn [UploadChunk.file UploadChunk.chunkIndex UploadChunk.uploadId].
    rewrite Hfile, Hidx, Hidt. cbn [negb orb].
    rewrite bind_run. unfold UploadChunk.replace_in at 1, ret at 1.
    unfold UploadChunk.differs at 1.
    rewrite (proj2 (replace_outside_fixed _ _) Hid).
    rewrite bool_decide_eq_false_2 by (by intros ?).
    rewrite bind_run. unfold UploadChunk.replace_in at 1, ret at 1.
    unfold UploadChunk.differs at 1.
    rewrite bool_decide_eq_true_2; [done|].
    intros Heq. apply replace_outside_fixed in Heq. congruence.
  - intros id idx' -> -> Hid -> Hdig Hne Hfree Hnodir.
    destruct (upload_run env id idx' [] s) as (fs1 & -> & _); try done.
    eexists. split; [done|]. cbn [files]. by rewrite lookup_insert_eq.
Qed.

Lemma C8_receiver_checks_witness :
  UploadChunk.POST env0 form_bad_id disk0
    = (inr (json_error "Invalid uploadId" 400), disk0) ∧
  ∃ s', UploadChunk.POST env0 form_empty_payload disk0
          = (inr (mkResponse 200 BSuccess), s') ∧
    files s' !! (tempDir_of env0 "abc-1" ++ ["chunk_" +:+ "0"]) = Some (File []).
Proof.
  split.
  - destruct (C8_receiver_checks env0 form_bad_id disk0) as (_ & Hid & _).
    apply (Hid "abc-1!"); by vm_compute.
  - destruct (C8_receiver_checks env0 form_empty_payload disk0)
      as (_ & _ & _ & Hempty).
    apply (Hempty "abc-1" "0"); done.
Defined.

(** C8 as stated fails: a payload that is present but has no bytes is
    accepted, and an empty chunk file is written. *)
Lemma C8_empty_payload_accepted :
  UploadChunk.file form_empty_payload = UploadChunk.FFile [] ∧
  (UploadChunk.POST env0 form_empty_payload disk0).1
    = inr (mkResponse 200 BSuccess) ∧
  files disk0 !! ["tmp"; "uploads"; "abc-1"; "chunk_0"] = None ∧
  files (UploadChunk.POST env0 form_empty_payload disk0).2
    !! ["tmp"; "uploads"; "abc-1"; "chunk_0"] = Some (File []).
Proof. repeat split; by vm_compute. Qed.

(** * Beyond the claims *)

(** ** More on the finalize handlers *)

Lemma mkdir_blocked p s (q : path) d :
  q `prefix_of` p → q ≠ [] → files s !! q = Some (File d) →
  mkdir p s = (inl (Error "ENOTDIR"), s).
Proof.
  intros Hpre Hne Hq.
  destruct (mkdir_cases p s) as [?|(fs' & _ & Hdirs & Hrest)]; [done|].
  exfalso. specialize (Hdirs q Hne Hpre).
  destruct (Hrest q) as [Heq|(Hnone & _)]; congruence.
Qed.

Lemma cleanup_done c (p : path) s s' :
  cleanup c p s = (inr (), s') →
  files s' = files s ∨
  files s' = filter (λ kv, ¬ p `prefix_of` kv.1) (files s).
Proof.
  destruct c; cbn [cleanup].
  - unfold rm. destruct (rm_faults s) as [|[] fl]; intros [= <-]; by right.
  - destruct (rm_quietly_cases p s) as (s'' & -> & Hfiles). by intros [= <-].
Qed.

(** The stream opens exactly when the destination can be written. *)
Lemma writable_opens env request fs fs1 :
  made (uploadsDir_of env) fs fs1 →
  writable env request fs →
  can_open fs1 (finalFilePath_of env (fileName request)) = true.
Proof.
  intros Hmade [Hplain Hnodir].
  pose proof (finalFilePath_of_plain env _ Hplain) as HF.
  rewrite HF. apply can_open_snoc.
  - apply uploadsDir_of_nonempty.
  - apply Hmade; [apply uploadsDir_of_nonempty|done].
  - rewrite <- HF. rewrite (made_same _ _ _ _ Hmade); [done|].
    rewrite HF. apply prefix_snoc_not.
Qed.

Lemma opened_writable env request fs fs1 :
  made (uploadsDir_of env) fs fs1 →
  can_open fs1 (finalFilePath_of env (fileName request)) = true →
  writable env request fs.
Proof.
  intros Hmade Hopen. split; [by eapply opened_plain|].
  intros Hdir. apply can_open_true in Hopen as (_ & _ & Hnot).
  apply Hnot. by eapply made_file.
Qed.

(** How a run of a finalize handler ends. *)
Lemma finalize_ends c env request s :
  finalize_outcome (finalize_with c env request) env request s.
Proof.
  unfold finalize_outcome, finalize_with, finalize_answer.
  destruct (accepted (totalChunks request)) eqn:Hacc; [|by eauto 10].
  unfold try_catch.
  set (T := tempDir_of env (uploadId request)) in *.
  assert (Hhandler : ∀ s4 : Disk, ∃ s5,
    (rm_quietly T;; ret (json_error "Assembly failed" 500)) s4
      = (inr (json_error "Assembly failed" 500), s5)).
  { intros s4.
    destruct (handler_run T (json_error "Assembly failed" 500) s4)
      as (s5 & -> & _). by eauto. }
  destruct (mkdir_cases (uploadsDir_of env) s) as [Hmk|(fs1 & Hmk & Hmade)].
  { rewrite (assemble_mkdir_fails _ _ _ _ Hmk).
    destruct (Hhandler s) as [s5 ->]. by eauto 10. }
  destruct (stat fs1 T) as [x|] eqn:Hst; cycle 1.
  { rewrite (assemble_not_found _ _ _ _ fs1 Hmk) by done. by eauto 10. }
  rewrite (assemble_open _ _ _ _ fs1 Hmk) by (fold T; rewrite Hst; eauto).
  fold T.
  set (F := finalFilePath_of env (fileName request)) in *.
  set (ws := mkStream F (can_open fs1 F) false).
  set (s2 := if can_open fs1 F
             then mkDisk (<[F := File []]> fs1) (rm_faults s)
             else mkDisk fs1 (rm_faults s)).
  destruct (work_frame T (totalChunks request) ws s2)
    as (r & s3 & Hwork & Hout & _ & _ & Hcl3 & _); [done|].
  destruct (cleanup_shrinks c T s3) as (rc & s4 & Hrc & _ & Hrcs).
  destruct Hout as [->|[[msg ->]|(-> & Hop & Hlt & Hchunks)]].
  - erewrite finish_run; [|exact Hwork|done]. rewrite Hrc.
    destruct Hrcs as [->| ->]; [by eauto 10|].
    destruct (Hhandler s4) as [s5 ->]. by eauto 10.
  - erewrite finish_run; [|exact Hwork|done]. rewrite Hrc.
    destruct Hrcs as [->| ->];
      destruct (Hhandler s4) as [s5 ->]; by eauto 10.
  - rewrite (finish_unsettled _ _ _ _ _ _ _ Hwork).
    exists (inl Unsettled), s3. split; [done|]. right. split; [done|].
    cbn [ws_opened ws] in Hop.
    assert (s3 = mkDisk fs1 (rm_faults s)) as ->.
    { rewrite Hcl3 by done. unfold s2. by rewrite Hop. }
    assert (Hfs1 : ∀ q d, fs1 !! q = Some (File d) →
                          files s !! q = Some (File d)).
    { intros q d Hq. destruct (proj2 Hmade q) as [<-|(_ & ? & _)]; congruence. }
    split; [|split].
    + destruct (totalChunks request) as [n|] eqn:Htotal; [|done].
      exists n. split; [done|]. apply accepted_Num in Hacc.
      split; [done|]. intros j Hj.
      destruct (Hchunks j) as [d Hd]; [lia|simpl; apply Z.ltb_lt; lia|].
      exists d. apply Hfs1. unfold s2 in Hd. by rewrite Hop in Hd.
    + intros Hwr. pose proof (writable_opens _ _ _ _ Hmade Hwr) as Hopen.
      fold F in Hopen. congruence.
    + intros q y Hq. cbn [files]. by eapply made_file.
Qed.

(** With a destination that can be written, the handler answers. *)
Lemma finalize_settles c env request s :
  writable env request (files s) →
  answers (finalize_with c env request) s.
Proof.
  intros Hwr.
  destruct (finalize_ends c env request s)
    as (r & s' & Hrun & [(resp & -> & _)|(_ & _ & Hnot & _)]); [|done].
  by exists resp, s'.
Qed.

(** Whatever the answer, an accepted request on an existing session ends
    with the staging directory deleted, when the deletion does not fail. *)
Lemma finalize_consumes c env request s r s' :
  accepted (totalChunks request) = true →
  is_Some (stat (files s) (tempDir_of env (uploadId request))) →
  first_rm_ok s →
  finalize_with c env request s = (inr r, s') →
  r ≠ json_error "Upload session not found" 404 ∧
  gone (tempDir_of env (uploadId request)) (files s').
Proof.
  intros Hacc Hstage Hrm. unfold finalize_with. rewrite Hacc. unfold try_catch.
  set (T := tempDir_of env (uploadId request)) in *.
  destruct (mkdir_cases (uploadsDir_of env) s) as [Hmk|(fs1 & Hmk & Hmade)].
  - rewrite (assemble_mkdir_fails _ _ _ _ Hmk).
    rewrite bind_run, rm_quietly_ok by done.
    intros [= <- <-]. split; [done|]. apply removed_gone.
  - rewrite (assemble_open _ _ _ _ fs1 Hmk) by by eapply made_stays.
    fold T.
    set (F := finalFilePath_of env (fileName request)) in *.
    set (ws := mkStream F (can_open fs1 F) false).
    set (s2 := if can_open fs1 F
               then mkDisk (<[F := File []]> fs1) (rm_faults s)
               else mkDisk fs1 (rm_faults s)).
    assert (rm_faults s2 = rm_faults s) as Hf2
      by (unfold s2; by destruct (can_open fs1 F)).
    destruct (work_frame T (totalChunks request) ws s2)
      as (rw & s3 & Hwork & Hout & Hf3 & _); [done|].
    destruct Hout as [->|[[msg ->]|(-> & _)]].
    + erewrite finish_run; [|exact Hwork|done].
      rewrite cleanup_ok by (unfold first_rm_ok; by rewrite Hf3, Hf2).
      intros [= <- <-]. split; [done|]. apply removed_gone.
    + erewrite finish_run; [|exact Hwork|done].
      rewrite cleanup_ok by (unfold first_rm_ok; by rewrite Hf3, Hf2).
      destruct (handler_run T (json_error "Assembly failed" 500)
                  (mkDisk (filter (λ kv, ¬ T `prefix_of` kv.1) (files s3))
                          (tail (rm_faults s3))))
        as (s5 & -> & Hfiles).
      intros [= <- <-]. split; [done|]. cbn [files] in Hfiles.
      destruct Hfiles as [->| ->]; [|rewrite removed_twice]; apply removed_gone.
    + by rewrite (finish_unsettled _ _ _ _ _ _ _ Hwork).
Qed.

Lemma finalize_absent c env request s :
  accepted (totalChunks request) = true →
  stat (files s) (tempDir_of env (uploadId request)) = None →
  ¬ tempDir_of env (uploadId request) `prefix_of` uploadsDir_of env →
  creatable (files s) (uploadsDir_of env) →
  ∃ fs1, finalize_with c env request s =
           (inr (json_error "Upload session not found" 404),
            mkDisk fs1 (rm_faults s)).
Proof.
  intros Hacc Hstage Hsep Hfree.
  unfold finalize_with. rewrite Hacc. unfold try_catch.
  destruct (mkdir_ok _ _ Hfree) as (fs1 & Hmk & Hmade).
  rewrite (assemble_not_found _ _ _ _ fs1 Hmk); [by eauto|].
  rewrite stat_nonempty in * by apply tempDir_of_nonempty.
  by rewrite (made_same _ _ _ _ Hmade).
Qed.

Lemma finalize_twice c c' env request name' total' s r s1 :
  accepted (totalChunks request) = true →
  accepted total' = true →
  is_Some (stat (files s) (tempDir_of env (uploadId request))) →
  creatable (files s) (uploadsDir_of env) →
  ¬ tempDir_of env (uploadId request) `prefix_of` uploadsDir_of env →
  first_rm_ok s →
  finalize_with c env request s = (inr r, s1) →
  r ≠ json_error "Upload session not found" 404 ∧
  ∃ s2, finalize_with c' env (mkFinalize (uploadId request) name' total') s1
          = (inr (json_error "Upload session not found" 404), s2).
Proof.
  intros Hacc Hacc' Hstage Hfree Hsep Hrm Hrun.
  destruct (finalize_consumes c env request s r s1) as [Hr Hgone]; try done.
  split; [done|].
  pose proof (finalize_confined c env request s) as Hconf.
  unfold confined in Hconf. rewrite Hrun in Hconf. cbn [snd] in Hconf.
  destruct (finalize_absent c' env
              (mkFinalize (uploadId request) name' total') s1) as [fs2 Hsecond].
  - done.
  - cbn [uploadId]. rewrite stat_nonempty by apply tempDir_of_nonempty.
    by apply Hgone.
  - done.
  - intros q d Hq Hfile. destruct (Hconf q d Hfile) as [Hold|[-> _]].
    + by apply (Hfree q d).
    + by apply prefix_snoc_not in Hq.
  - by eauto.
Qed.

(** X1.  A session is finalized at most once.  Take an accepted request
    whose staging directory exists, a destination root that can be made
    and a deletion that does not fail.  Whenever a handler answers such a
    request, the answer is not 404, and every further accepted attempt
    on the same session id is answered 404 "Upload session not found",
    whether the first one succeeded or not.  And the handler does answer
    when the destination can be written.  Both handlers. *)
Theorem X1_finalize_only_once env request name' total' s :
  accepted (totalChunks request) = true →
  accepted total' = true →
  is_Some (stat (files s) (tempDir_of env (uploadId request))) →
  creatable (files s) (uploadsDir_of env) →
  ¬ tempDir_of env (uploadId request) `prefix_of` uploadsDir_of env →
  first_rm_ok s →
  (∀ r s1, RouteTs.POST env request s = (inr r, s1) →
     r ≠ json_error "Upload session not found" 404 ∧
     ∃ s2, RouteTs.POST env (mkFinalize (uploadId request) name' total') s1
             = (inr (json_error "Upload session not found" 404), s2)) ∧
  (∀ r s1, Part001.POST env request s = (inr r, s1) →
     r ≠ json_error "Upload session not found" 404 ∧
     ∃ s2, Part001.POST env (mkFinalize (uploadId request) name' total') s1
             = (inr (json_error "Upload session not found" 404), s2)) ∧
  (writable env request (files s) →
     answers (RouteTs.POST env request) s ∧
     answers (Part001.POST env request) s).
Proof.
  intros. rewrite !RouteTs_POST_eq, !Part001_POST_eq.
  split; [|split].
  - intros r s1 Hrun. by eapply finalize_twice.
  - intros r s1 Hrun. by eapply finalize_twice.
  - intros Hwr. split; by apply finalize_settles.
Qed.

Lemma X1_finalize_only_once_witness :
  (∃ r s1, RouteTs.POST env0 request0 staged0 = (inr r, s1) ∧
     r ≠ json_error "Upload session not found" 404 ∧
     ∃ s2, RouteTs.POST env0 (mkFinalize (uploadId request0) "again.bin" (Num 2)) s1
             = (inr (json_error "Upload session not found" 404), s2)) ∧
  (∃ r s1, Part001.POST env0 request0 staged0 = (inr r, s1) ∧
     r ≠ json_error "Upload session not found" 404 ∧
     ∃ s2, Part001.POST env0 (mkFinalize (uploadId request0) "again.bin" (Num 2)) s1
             = (inr (json_error "Upload session not found" 404), s2)).
Proof.
  destruct (X1_finalize_only_once env0 request0 "again.bin" (Num 2) staged0)
    as (Hroute & Hpart & Hanswers).
  - by vm_compute.
  - by vm_compute.
  - vm_compute. eauto.
  - apply no_file_on_creatable. by vm_compute.
  - intros [k Hk]; vm_compute in Hk; discriminate.
  - by vm_compute.
  - destruct Hanswers as [(r & s1 & Hrun) (r' & s1' & Hrun')].
    { split; [repeat split; by vm_compute|by vm_compute]. }
    split.
    + exists r, s1. split; [done|]. by apply Hroute.
    + exists r', s1'. split; [done|]. by apply Hpart.
Defined.

(** X2.  When a regular file sits on the way to the destination root, an
    accepted request ends in 500 "Assembly failed" and, the deletion not
    failing, the handler's one effect is that everything at and below the
    session's staging directory is removed: the chunks are lost although
    nothing was assembled.  Both handlers. *)
Theorem X2_destination_root_blocked env request s (q : path) d :
  accepted (totalChunks request) = true →
  q `prefix_of` uploadsDir_of env → q ≠ [] →
  files s !! q = Some (File d) →
  first_rm_ok s →
  let s' := mkDisk (filter (λ kv, ¬ tempDir_of env (uploadId request)
                                    `prefix_of` kv.1) (files s))
                   (tail (rm_faults s)) in
  RouteTs.POST env request s = (inr (json_error "Assembly failed" 500), s') ∧
  Part001.POST env request s = (inr (json_error "Assembly failed" 500), s') ∧
  gone (tempDir_of env (uploadId request)) (files s') ∧
  (∀ p, ¬ tempDir_of env (uploadId request) `prefix_of` p →
        files s' !! p = files s !! p).
Proof.
  intros Hacc Hpre Hne Hq Hrm s'.
  pose proof (mkdir_blocked _ _ _ _ Hpre Hne Hq) as Hmk.
  assert (∀ c, finalize_with c env request s
               = (inr (json_error "Assembly failed" 500), s')) as Hrun.
  { intros c. unfold finalize_with. rewrite Hacc. unfold try_catch.
    rewrite (assemble_mkdir_fails _ _ _ _ Hmk).
    by rewrite bind_run, rm_quietly_ok. }
  rewrite RouteTs_POST_eq, Part001_POST_eq.
  split; [apply Hrun|]. split; [apply Hrun|]. split.
  - apply removed_gone.
  - intros p Hp. unfold s'. cbn [files]. rewrite removed_lookup.
    by rewrite decide_False.
Qed.

Lemma X2_destination_root_blocked_witness :
  let s' := mkDisk (filter (λ kv, ¬ tempDir_of env0 (uploadId request0)
                                    `prefix_of` kv.1) (files blocked0))
                   (tail (rm_faults blocked0)) in
  RouteTs.POST env0 request0 blocked0
    = (inr (json_error "Assembly failed" 500), s') ∧
  Part001.POST env0 request0 blocked0
    = (inr (json_error "Assembly failed" 500), s') ∧
  gone (tempDir_of env0 (uploadId request0)) (files s') ∧
  (∀ p, ¬ tempDir_of env0 (uploadId request0) `prefix_of` p →
        files s' !! p = files blocked0 !! p).
Proof.
  apply (X2_destination_root_blocked env0 request0 blocked0 ["app"; "public"] []).
  - by vm_compute.
  - exists ["uploads"]. by vm_compute.
  - done.
  - by vm_compute.
  - by vm_compute.
Defined.

(** X3.  A session id without a single character of [A-Za-z0-9_-] (the
    empty id among them) strips to nothing, so the staging directory of
    the request is the staging root [tmpdir/uploads] itself.  When that
    root exists and the deletion does not fail, every answer to an
    accepted finalize request with such an id comes with the root
    removed, and with it the chunks of every session; and the handler
    does answer when the destination can be written.  Both handlers. *)
Theorem X3_empty_id_wipes_staging env id name total s :
  replace_outside is_id_char id = "" →
  accepted total = true →
  is_Some (stat (files s) (os_tmpdir env ++ ["uploads"])) →
  first_rm_ok s →
  tempDir_of env id = os_tmpdir env ++ ["uploads"] ∧
  (∀ r s', RouteTs.POST env (mkFinalize id name total) s = (inr r, s') →
     gone (os_tmpdir env ++ ["uploads"]) (files s')) ∧
  (∀ r s', Part001.POST env (mkFinalize id name total) s = (inr r, s') →
     gone (os_tmpdir env ++ ["uploads"]) (files s')) ∧
  (writable env (mkFinalize id name total) (files s) →
     answers (RouteTs.POST env (mkFinalize id name total)) s ∧
     answers (Part001.POST env (mkFinalize id name total)) s).
Proof.
  intros Hstrip Hacc Hstage Hrm.
  assert (tempDir_of env id = os_tmpdir env ++ ["uploads"]) as HT.
  { rewrite tempDir_of_eq, Hstrip. by rewrite decide_True. }
  split; [done|]. rewrite RouteTs_POST_eq, Part001_POST_eq.
  assert (∀ c r s', finalize_with c env (mkFinalize id name total) s
                      = (inr r, s') →
                    gone (os_tmpdir env ++ ["uploads"]) (files s')) as Hgone.
  { intros c r s' Hrun.
    destruct (finalize_consumes c env (mkFinalize id name total) s r s')
      as [_ Hgone]; try done.
    { cbn [uploadId]. by rewrite HT. }
    cbn [uploadId] in Hgone. by rewrite <- HT. }
  split; [apply Hgone|]. split; [apply Hgone|].
  intros Hwr. split; by apply finalize_settles.
Qed.

Lemma X3_empty_id_wipes_staging_witness :
  tempDir_of env0 "" = os_tmpdir env0 ++ ["uploads"] ∧
  (∃ r s', RouteTs.POST env0 (mkFinalize "" "out.bin" (Num 1)) staged0
             = (inr r, s') ∧
     gone (os_tmpdir env0 ++ ["uploads"]) (files s')) ∧
  (∃ r s', Part001.POST env0 (mkFinalize "" "out.bin" (Num 1)) staged0
             = (inr r, s') ∧
     gone (os_tmpdir env0 ++ ["uploads"]) (files s')).
Proof.
  destruct (X3_empty_id_wipes_staging env0 "" "out.bin" (Num 1) staged0)
    as (HT & Hroute & Hpart & Hanswers).
  - done.
  - by vm_compute.
  - vm_compute. eauto.
  - by vm_compute.
  - destruct Hanswers as [(r & s1 & Hrun) (r' & s1' & Hrun')].
    { split; [repeat split; by vm_compute|by vm_compute]. }
    split; [done|]. split.
    + exists r, s1. split; [done|]. by eapply Hroute.
    + exists r', s1'. split; [done|]. by eapply Hpart.
Defined.

(** X4.  How a finalize request ends.  Either the handler answers, and
    then with one of four responses: 200 with the public path
    [/uploads/<basename of fileName>], 400 "Invalid totalChunks", 404
    "Upload session not found" or 500 "Assembly failed"; or it never
    answers: the wait for [finish] is not settled.  The second happens
    only when the total is a number between 1 and [MAX_CHUNKS], every
    chunk below it is a regular file in the staging directory and the
    destination cannot be written; every entry of the disk, the staged
    chunks among them, is then left where it was.  No exception leaves a
    handler, whatever the request and the disk. *)
Theorem X4_finalize_answers env request s :
  finalize_outcome (RouteTs.POST env request) env request s ∧
  finalize_outcome (Part001.POST env request) env request s.
Proof.
  rewrite RouteTs_POST_eq, Part001_POST_eq. split; apply finalize_ends.
Qed.

(** X14.  The request that is never answered.  Take a total [n] between
    1 and [MAX_CHUNKS], a destination root that can be made, an existing
    staging directory holding every chunk [0 .. n-1] as a regular file,
    and a destination that cannot be written (the file name ends in no
    ordinary segment, or a directory sits at the destination path).  The
    stream fails to open, its [error] goes unheard while the loop reads
    the chunks, and the wait for [finish] is never settled: neither
    handler answers, and the disk stays as the making of the destination
    root left it, with nothing deleted and the staged chunks in place. *)
Theorem X14_failed_open_never_answers env request s n :
  totalChunks request = Num n → 1 ≤ n ≤ MAX_CHUNKS →
  creatable (files s) (uploadsDir_of env) →
  is_Some (stat (files s) (tempDir_of env (uploadId request))) →
  ¬ writable env request (files s) →
  (∀ j, 0 ≤ j < n →
     ∃ d, files s !! (tempDir_of env (uploadId request) ++ [chunk_name j])
            = Some (File d)) →
  ∃ fs1, made (uploadsDir_of env) (files s) fs1 ∧
    (∀ q x, files s !! q = Some x → fs1 !! q = Some x) ∧
    RouteTs.POST env request s = (inl Unsettled, mkDisk fs1 (rm_faults s)) ∧
    Part001.POST env request s = (inl Unsettled, mkDisk fs1 (rm_faults s)).
Proof.
  intros Htotal Hn Hfree Hstage Hnot Hchunks.
  destruct (mkdir_ok _ _ Hfree) as (fs1 & Hmk & Hmade).
  exists fs1. split; [done|]. split.
  { intros q x Hq. by eapply made_file. }
  rewrite RouteTs_POST_eq, Part001_POST_eq.
  assert (∀ c, finalize_with c env request s
               = (inl Unsettled, mkDisk fs1 (rm_faults s))) as Hrun;
    [|by rewrite !Hrun].
  intros c. unfold finalize_with. rewrite Htotal.
  rewrite (proj2 (accepted_Num n) Hn). unfold try_catch.
  rewrite (assemble_open _ _ _ _ fs1 Hmk) by by eapply made_stays.
  rewrite Htotal.
  set (T := tempDir_of env (uploadId request)) in *.
  set (F := finalFilePath_of env (fileName request)) in *.
  assert (can_open fs1 F = false) as ->.
  { destruct (can_open fs1 F) eqn:Hopen; [|done].
    exfalso. apply Hnot. by eapply opened_writable. }
  rewrite (finish_unsettled _ _ _ _ _ _ (mkDisk fs1 (rm_faults s))); [done|].
  rewrite bind_run.
  rewrite (for_chunks_closed_run T n (Z.to_nat (n - 0))); [|done|done|done|].
  - rewrite (proj2 (Z.ltb_lt 0 n)) by lia. done.
  - intros j Hj. destruct (Hchunks j Hj) as [d Hd].
    exists d. cbn [files]. by eapply made_file.
Qed.

Lemma X14_failed_open_never_answers_witness :
  ∃ fs1, made (uploadsDir_of env0) (files staged0) fs1 ∧
    (∀ q x, files staged0 !! q = Some x → fs1 !! q = Some x) ∧
    RouteTs.POST env0 request_dotdot staged0
      = (inl Unsettled, mkDisk fs1 (rm_faults staged0)) ∧
    Part001.POST env0 request_dotdot staged0
      = (inl Unsettled, mkDisk fs1 (rm_faults staged0)).
Proof.
  apply (X14_failed_open_never_answers env0 request_dotdot staged0 2).
  - done.
  - unfold MAX_CHUNKS. lia.
  - apply no_file_on_creatable. by vm_compute.
  - vm_compute. eauto.
  - intros [(_ & _ & _ & Hdots) _]. apply Hdots. by vm_compute.
  - intros j Hj. assert (j = 0 ∨ j = 1) as [-> | ->] by lia;
      vm_compute; eauto.
Defined.

(** The same with an empty file name: its last segment is empty, the
    destination path is the destination root itself, and with both chunks
    staged the request is never answered and the chunks stay.  With a
    total that reads as [NaN] the loop makes no round, the listener is
    there before the open fails, and the request ends in 500 with the
    staging directory deleted. *)
Example empty_name_scenario :
  finalFilePath_of env0 "" = uploadsDir_of env0 ∧
  (RouteTs.POST env0 (mkFinalize "abc-1" "" (Num 2)) staged0).1
    = inl Unsettled ∧
  (Part001.POST env0 (mkFinalize "abc-1" "" (Num 2)) staged0).1
    = inl Unsettled ∧
  files (RouteTs.POST env0 (mkFinalize "abc-1" "" (Num 2)) staged0).2
    !! ["tmp"; "uploads"; "abc-1"; "chunk_1"]
    = Some (File [Byte.x42; Byte.x42]) ∧
  (RouteTs.POST env0 (mkFinalize "abc-1" "" NaN) staged0).1
    = inr (json_error "Assembly failed" 500) ∧
  files (RouteTs.POST env0 (mkFinalize "abc-1" "" NaN) staged0).2
    !! ["tmp"; "uploads"; "abc-1"; "chunk_1"] = None.
Proof. repeat split; by vm_compute. Qed.

(** X5.  The two finalize handlers part ways in one situation only: on
    every request and every disk on which part_001 does not answer 200,
    route.ts returns the same response and leaves the same disk, also
    when deletions fail. *)
Theorem X5_handlers_differ_only_on_success env request s :
  (Part001.POST env request s).1 ≠ inr (success_response request) →
  RouteTs.POST env request s = Part001.POST env request s.
Proof.
  rewrite RouteTs_POST_eq, Part001_POST_eq. intros Hnot.
  destruct (decide (first_rm_ok s)) as [Hok|Hfault].
  { by apply finalize_agree. }
  assert (∃ fl, rm_faults s = true :: fl) as [fl Hfl].
  { unfold first_rm_ok in Hfault. destruct (rm_faults s) as [|[] fl]; eauto;
      exfalso; apply Hfault; done. }
  unfold finalize_with in *. destruct (accepted _); [|done].
  unfold try_catch in *.
  destruct (mkdir_cases (uploadsDir_of env) s) as [Hmk|(fs1 & Hmk & Hmade)].
  { by rewrite !(assemble_mkdir_fails _ _ _ _ Hmk). }
  destruct (stat fs1 (tempDir_of env (uploadId request))) as [x|] eqn:Hst.
  - rewrite !(assemble_open _ _ _ _ fs1 Hmk) in * by (rewrite Hst; eauto).
    set (T := tempDir_of env (uploadId request)) in *.
    set (F := finalFilePath_of env (fileName request)) in *.
    set (ws := mkStream F (can_open fs1 F) false) in *.
    set (s2 := if can_open fs1 F
               then mkDisk (<[F := File []]> fs1) (rm_faults s)
               else mkDisk fs1 (rm_faults s)) in *.
    assert (rm_faults s2 = true :: fl) as Hf2
      by (unfold s2; by destruct (can_open fs1 F)).
    destruct (work_frame T (totalChunks request) ws s2)
      as (r & s3 & Hwork & Hout & Hf3 & _); [done|].
    assert (Hrm : rm T s3 = (inl (Error "rm failed"), mkDisk (files s3) fl))
      by (apply rm_fault; congruence).
    destruct Hout as [->|[[msg ->]|(-> & _)]].
    + exfalso. apply Hnot.
      erewrite finish_run; [|exact Hwork|done].
      cbn [cleanup]. unfold rm_quietly, try_catch. by rewrite Hrm.
    + erewrite !finish_run; [|exact Hwork|done|exact Hwork|done].
      cbn [cleanup]. unfold rm_quietly at 2. unfold try_catch.
      by rewrite Hrm.
    + by rewrite !(finish_unsettled _ _ _ _ _ _ _ Hwork).
  - by rewrite !(assemble_not_found _ _ _ _ fs1 Hmk).
Qed.

Lemma X5_handlers_differ_only_on_success_witness :
  RouteTs.POST env0 request0 (mkDisk (files partly0) [true; true])
  = Part001.POST env0 request0 (mkDisk (files partly0) [true; true]).
Proof.
  apply X5_handlers_differ_only_on_success.
  intros H. vm_compute in H. discriminate.
Defined.

(** The loop came to its end: every chunk it asked for was a regular
    file, and the stream's file got their bytes, in order. *)
Lemma for_chunks_completed tempDir n p : ∀ k i s ws' s' old,
  k = Z.to_nat (n - i) → 0 ≤ i →
  ¬ tempDir `prefix_of` p →
  for_chunks tempDir (Num n) (mkStream p true false) i s = (inr ws', s') →
  files s !! p = Some (File old) →
  (∀ j, i ≤ j < n →
     ∃ d, files s !! (tempDir ++ [chunk_name j]) = Some (File d)) ∧
  files s' !! p
    = Some (File (old ++ concat (chunk_data (files s) tempDir <$> seqZ i (n - i)))) ∧
  rm_faults s' = rm_faults s.
Proof.
  induction k as [|k IH]; intros i s ws' s' old Hk Hi Hsep Hrun Hp.
  - rewrite for_chunks_done in Hrun by (simpl; apply Z.ltb_ge; lia).
    injection Hrun as _ <-. split; [intros j Hj; lia|]. split; [|done].
    rewrite Hp. unfold seqZ. rewrite <- Hk.
    simpl. by rewrite app_nil_r.
  - assert (js_lt (Num i) (Num n) = true) as Hlt
      by (simpl; apply Z.ltb_lt; lia).
    destruct (files s !! (tempDir ++ [chunk_name i])) as [[|d]|] eqn:Hc.
    + by rewrite for_chunks_directory in Hrun.
    + rewrite (for_chunks_step _ _ _ _ _ d) in Hrun by done.
      rewrite ws_after_await_open in Hrun by done.
      destruct (ws_write_run (mkStream p true false) d s)
        as (s1 & Hw & Hf1 & Hq1 & _ & Hw1 & _).
      rewrite Hw in Hrun. cbn [snd ws_path ws_opened] in *.
      assert (Hcp : ∀ j, tempDir ++ [chunk_name j] ≠ p).
      { intros j <-. apply Hsep. by apply prefix_app_r. }
      destruct (IH (i + 1) s1 ws' s' (old ++ d)) as (Hchunks & Hcontent & Hf);
        [lia|lia|done|done|by apply Hw1|].
      split; [|split; [|congruence]].
      * intros j Hj. destruct (decide (j = i)) as [->|Hne]; [by eauto|].
        destruct (Hchunks j) as [x Hx]; [lia|].
        rewrite Hq1 in Hx by done. by eauto.
      * rewrite Hcontent. do 2 f_equal.
        rewrite (seqZ_cons i) by lia. cbn [fmap list_fmap concat].
        rewrite <- app_assoc.
        replace (Z.succ i) with (i + 1) by lia.
        replace (Z.pred (n - i)) with (n - (i + 1)) by lia.
        assert (chunk_data (files s) tempDir i = d) as ->
          by (unfold chunk_data; by rewrite Hc).
        do 3 f_equal. apply list_fmap_ext. intros _ j _.
        unfold chunk_data. by rewrite Hq1.
    + by rewrite for_chunks_missing in Hrun.
Qed.

(** The same from the start of the loop, for every total: a total that
    reads as [NaN] asks for no chunk. *)
Lemma for_chunks_asked tempDir total p s ws' s' :
  ¬ tempDir `prefix_of` p →
  for_chunks tempDir total (mkStream p true false) 0 s = (inr ws', s') →
  files s !! p = Some (File []) →
  (∀ j, 0 ≤ j < asked total →
     ∃ d, files s !! (tempDir ++ [chunk_name j]) = Some (File d)) ∧
  files s' !! p
    = Some (File (concat (chunk_data (files s) tempDir
                          <$> seqZ 0 (asked total)))).
Proof.
  intros Hsep Hrun Hp. destruct total as [n|]; cbn [asked].
  - destruct (for_chunks_completed tempDir n p (Z.to_nat (n - 0)) 0 s ws' s' [])
      as (Hchunks & Hcontent & _); [done|lia|done|done|done|].
    split; [done|]. rewrite Hcontent. by rewrite Z.sub_0_r.
  - rewrite for_chunks_done in Hrun by done. injection Hrun as _ <-.
    split; [intros j Hj; lia|done].
Qed.

(** On a stream that failed to open, the wait for [finish] does not
    succeed. *)
Lemma work_closed tempDir total ws s s' :
  ws_opened ws = false →
  (ws' ← for_chunks tempDir total ws 0; ws_end_and_wait ws') s ≠ (inr (), s').
Proof.
  intros Hop.
  destruct (trips_exists total 0) as [n Hn].
  destruct (for_chunks_frame tempDir total ws n 0 s)
    as (r & s1 & Hrun & Hout & _); [done|done|].
  rewrite bind_run, Hrun. destruct Hout as [[msg ->]| ->]; [done|].
  unfold ws_end_and_wait.
  assert (ws_opened (if js_lt (Num 0) total then ws_after_await ws else ws)
          = false) as ->.
  { destruct (js_lt _ _); by rewrite ?ws_after_await_opened. }
  by destruct (ws_unheard _).
Qed.

Lemma finalize_sound c env request s s' :
  apart env request →
  finalize_with c env request s = (inr (success_response request), s') →
  accepted (totalChunks request) = true ∧
  plain (basename (fileName request)) ∧
  (∀ j, 0 ≤ j < asked (totalChunks request) →
     ∃ d, files s !! (tempDir_of env (uploadId request) ++ [chunk_name j])
            = Some (File d)) ∧
  files s' !! finalFilePath_of env (fileName request)
    = Some (File (concat (chunk_data (files s) (tempDir_of env (uploadId request))
                            <$> seqZ 0 (asked (totalChunks request))))).
Proof.
  intros [Hsep0 Hsep] Hrun.
  unfold finalize_with in Hrun.
  destruct (accepted (totalChunks request)) eqn:Hacc; [|done].
  split; [done|].
  unfold try_catch in Hrun.
  set (T := tempDir_of env (uploadId request)) in *.
  set (F := finalFilePath_of env (fileName request)) in *.
  assert (Hhandler : ∀ s4 : Disk,
    (rm_quietly T;; ret (json_error "Assembly failed" 500)) s4
      ≠ (inr (success_response request), s')).
  { intros s4.
    destruct (handler_run T (json_error "Assembly failed" 500) s4)
      as (s5 & -> & _). done. }
  destruct (mkdir_cases (uploadsDir_of env) s) as [Hmk|(fs1 & Hmk & Hmade)].
  { rewrite (assemble_mkdir_fails _ _ _ _ Hmk) in Hrun. by apply Hhandler in Hrun. }
  destruct (stat fs1 T) as [x|] eqn:Hst; cycle 1.
  { by rewrite (assemble_not_found _ _ _ _ fs1 Hmk) in Hrun. }
  rewrite (assemble_open _ _ _ _ fs1 Hmk) in Hrun by (fold T; rewrite Hst; eauto).
  fold T F in Hrun.
  set (ws := mkStream F (can_open fs1 F) false) in *.
  set (s2 := if can_open fs1 F
             then mkDisk (<[F := File []]> fs1) (rm_faults s)
             else mkDisk fs1 (rm_faults s)) in *.
  destruct (work_frame T (totalChunks request) ws s2)
    as (rw & s3 & Hwork & Hout & _); [done|].
  destruct (cleanup c T s3) as [rc s4] eqn:Hclean.
  destruct (cleanup_shrinks c T s3) as (rc' & s4' & Hrc & _ & Hrcs).
  rewrite Hclean in Hrc. injection Hrc as <- <-.
  destruct Hout as [->|[[msg ->]|(-> & _)]]; cycle 1.
  { erewrite finish_run in Hrun; [|exact Hwork|done]. rewrite Hclean in Hrun.
    destruct Hrcs as [->| ->]; by apply Hhandler in Hrun. }
  { by rewrite (finish_unsettled _ _ _ _ _ _ _ Hwork) in Hrun. }
  erewrite finish_run in Hrun; [|exact Hwork|done]. rewrite Hclean in Hrun.
  destruct Hrcs as [->| ->]; [|by apply Hhandler in Hrun].
  injection Hrun as ->.
  destruct (can_open fs1 F) eqn:Hopen; cycle 1.
  { exfalso. by eapply work_closed, Hwork. }
  pose proof (opened_plain _ _ _ _ Hmade Hopen) as Hplain.
  split; [done|].
  rewrite bind_run in Hwork.
  destruct (for_chunks T (totalChunks request) ws 0 s2)
    as [[e|ws'] s3'] eqn:Hloop; [done|].
  assert (s3' = s3) as ->.
  { destruct (trips_exists (totalChunks request) 0) as [n Hn].
    destruct (for_chunks_frame T (totalChunks request) ws n 0 s2)
      as (r & s1 & Hrun & Hout & _); [done|done|].
    rewrite Hloop in Hrun. injection Hrun as <- <-.
    destruct Hout as [[msg [=]]|[= ->]].
    unfold ws_end_and_wait in Hwork.
    match type of Hwork with
    | (if ws_opened ?w then _ else _) _ = _ =>
        assert (ws_opened w = true) as Hop
          by (destruct (totalChunks request) as [y|];
              [destruct (0 <? y)|]; done)
    end.
    rewrite Hop in Hwork. by injection Hwork. }
  destruct (for_chunks_asked T (totalChunks request) F s2 ws' s3)
    as (Hchunks & Hcontent); [done|done| |].
  { unfold s2. cbn [files]. by rewrite lookup_insert_eq. }
  assert (Hsame : ∀ j, files s2 !! (T ++ [chunk_name j])
                       = files s !! (T ++ [chunk_name j])).
  { intros j. unfold s2. cbn [files]. rewrite lookup_insert_ne.
    - apply (made_same _ _ _ _ Hmade). intros Hpre. apply Hsep0.
      by eapply prefix_app_l.
    - intros Heq. apply Hsep. rewrite Heq. by apply prefix_app_r. }
  split.
  - intros j Hj. destruct (Hchunks j) as [d Hd]; [lia|].
    rewrite Hsame in Hd. by eauto.
  - assert (files s' !! F = files s3 !! F) as ->.
    { destruct (cleanup_done _ _ _ _ Hclean) as [->| ->]; [done|].
      rewrite removed_lookup. by rewrite decide_False. }
    rewrite Hcontent. do 3 f_equal.
    apply list_fmap_ext. intros _ j _. unfold chunk_data. by rewrite Hsame.
Qed.

(** X6.  What a 200 stands for.  Whenever a finalize handler answers 200
    (the staging directory apart from the destination), the total was
    accepted, the file name ends in an ordinary segment, every chunk the
    loop asks for was a regular file in the staging directory, and the
    destination file holds exactly the bytes of those chunks in index
    order.  The loop asks for chunks [0 .. n-1] when the total is the
    number [n], which then lies between 1 and [MAX_CHUNKS]: with a
    numeric total, success is not reported on an incomplete session.  It
    asks for no chunk when the total reads as [NaN]: the 200 then comes
    with an empty destination file, whatever was staged.  Both handlers,
    deletions failing or not. *)
Theorem X6_success_is_sound env request s :
  apart env request →
  ∀ s', RouteTs.POST env request s = (inr (success_response request), s') ∨
        Part001.POST env request s = (inr (success_response request), s') →
    accepted (totalChunks request) = true ∧
    plain (basename (fileName request)) ∧
    (∀ j, 0 ≤ j < asked (totalChunks request) →
       ∃ d, files s !! (tempDir_of env (uploadId request) ++ [chunk_name j])
              = Some (File d)) ∧
    files s' !! finalFilePath_of env (fileName request)
      = Some (File (concat (chunk_data (files s)
                              (tempDir_of env (uploadId request))
                            <$> seqZ 0 (asked (totalChunks request))))) ∧
    (∀ n, totalChunks request = Num n → 1 ≤ n ≤ MAX_CHUNKS) ∧
    (totalChunks request = NaN →
     files s' !! finalFilePath_of env (fileName request) = Some (File [])).
Proof.
  intros Hsep s' Hrun.
  rewrite RouteTs_POST_eq, Part001_POST_eq in Hrun.
  assert (∃ c, finalize_with c env request s
               = (inr (success_response request), s')) as [c Hc]
    by (destruct Hrun; eauto).
  destruct (finalize_sound c env request s s' Hsep Hc)
    as (Hacc & Hplain & Hchunks & Hcontent).
  split; [done|]. split; [done|]. split; [done|]. split; [done|]. split.
  - intros n Hn. rewrite Hn in Hacc. by apply accepted_Num.
  - intros Hnan. rewrite Hcontent, Hnan. done.
Qed.

Lemma X6_success_is_sound_witness :
  (∀ j, 0 ≤ j < 2 →
     ∃ d, files staged0 !! (tempDir_of env0 (uploadId request0) ++ [chunk_name j])
            = Some (File d)) ∧
  files (RouteTs.POST env0 request0 staged0).2
    !! finalFilePath_of env0 (fileName request0)
    = Some (File (concat (chunk_data (files staged0)
                            (tempDir_of env0 (uploadId request0))
                          <$> seqZ 0 2))) ∧
  files (Part001.POST env0 (mkFinalize "abc-1" "out.bin" NaN) staged0).2
    !! finalFilePath_of env0 "out.bin" = Some (File []).
Proof.
  split; [|split].
  - apply (X6_success_is_sound env0 request0 staged0)
      with (s' := (RouteTs.POST env0 request0 staged0).2).
    + split; intros [k Hk]; vm_compute in Hk; discriminate.
    + left. by vm_compute.
  - apply (X6_success_is_sound env0 request0 staged0).
    + split; intros [k Hk]; vm_compute in Hk; discriminate.
    + left. by vm_compute.
  - apply (X6_success_is_sound env0 (mkFinalize "abc-1" "out.bin" NaN) staged0).
    + split; intros [k Hk]; vm_compute in Hk; discriminate.
    + right. by vm_compute.
    + done.
Defined.

(** ** More on the chunk receiver *)

(** X7.  The receiver always answers, never deletes anything and never
    touches a file other than the chunk file it is asked to write: after
    a receive every path holds what it held before, except that
    directories may have been made on the way to the session's staging
    directory, and that a successful receive (200) has put the payload
    at [staging/chunk_<index>], where no directory was. *)
Theorem X7_receive_frame env form s :
  ∃ r s', UploadChunk.POST env form s = (inr r, s') ∧
    rm_faults s' = rm_faults s ∧
    ∀ q,
      files s' !! q = files s !! q ∨
      (files s !! q = None ∧ files s' !! q = Some Dir ∧
       ∃ id, UploadChunk.uploadId form = UploadChunk.FString id ∧
             q `prefix_of` tempDir_of env id) ∨
      (∃ id idx b,
         UploadChunk.uploadId form = UploadChunk.FString id ∧
         UploadChunk.chunkIndex form = UploadChunk.FString idx ∧
         UploadChunk.file form = UploadChunk.FFile b ∧
         q = tempDir_of env id ++ ["chunk_" +:+ idx] ∧
         files s' !! q = Some (File b) ∧
         files s !! q ≠ Some Dir ∧
         r = mkResponse 200 BSuccess).
Proof.
  destruct form as [file idx uid].
  unfold UploadChunk.POST, try_catch.
  cbn [UploadChunk.file UploadChunk.chunkIndex UploadChunk.uploadId].
  destruct (negb (UploadChunk.truthy file) || negb (UploadChunk.truthy idx)
            || negb (UploadChunk.truthy uid)); [by eauto 10|].
  rewrite bind_run.
  destruct uid as [|id|?]; cbn [UploadChunk.replace_in]; [by eauto 10| |by eauto 10].
  unfold ret at 1. unfold UploadChunk.differs at 1.
  destruct (bool_decide (replace_outside is_id_char id ≠ id)) eqn:Hid;
    [by eauto 10|].
  apply bool_decide_eq_false in Hid. apply dec_stable in Hid.
  rewrite bind_run.
  destruct idx as [|ix|?]; cbn [UploadChunk.replace_in]; [by eauto 10| |by eauto 10].
  unfold ret at 1. unfold UploadChunk.differs at 1.
  destruct (bool_decide (replace_outside is_digit_char ix ≠ ix)) eqn:Hix;
    [by eauto 10|].
  apply bool_decide_eq_false in Hix. apply dec_stable in Hix.
  rewrite bind_run.
  destruct file as [|?|b]; cbn [UploadChunk.arrayBuffer]; [by eauto 10..|].
  unfold ret at 1.
  change (path_join (os_tmpdir env) ["uploads"; replace_outside is_id_char id])
    with (tempDir_of env id).
  rewrite Hix.
  rewrite (path_join_plain _ ["chunk_" +:+ ix]); cycle 1.
  { constructor; [|constructor]. apply chunk_prefix_plain.
    by apply replace_outside_fixed. }
  set (T := tempDir_of env id).
  rewrite bind_run.
  destruct (mkdir_cases T s) as [->|(fs1 & -> & Hdirs & Hrest)]; [by eauto 10|].
  rewrite bind_run. unfold writeFile at 1. cbn [files rm_faults].
  destruct (can_open fs1 (T ++ ["chunk_" +:+ ix])) eqn:Hopen.
  - eexists _, _. split; [done|]. split; [done|]. cbn [files].
    intros q. destruct (decide (q = T ++ ["chunk_" +:+ ix])) as [->|Hne].
    + right. right. exists id, ix, b. rewrite lookup_insert_eq.
      repeat split; try done.
      apply can_open_true in Hopen as (_ & _ & Hnd).
      destruct (Hrest (T ++ ["chunk_" +:+ ix])) as [<-|(_ & _ & Habs & _)];
        [done|]. by apply prefix_snoc_not in Habs.
    + rewrite lookup_insert_ne by done.
      destruct (Hrest q) as [?|(? & ? & ? & ?)]; [by left|].
      right. left. by eauto 10.
  - eexists _, _. split; [done|]. split; [done|]. cbn [files].
    intros q. destruct (Hrest q) as [?|(? & ? & ? & ?)]; [by left|].
    right. left. by eauto 10.
Qed.

Lemma upload_seq_run env id : ∀ ups s,
  valid_id id →
  (∀ j, j ∈ ups.*1 → 0 ≤ j) →
  staging_ready env id ups.*1 (files s) →
  ∃ s1,
    upload_seq env id ups s
      = (replicate (length ups) (inr (mkResponse 200 BSuccess)), s1) ∧
    rm_faults s1 = rm_faults s ∧
    (∀ j, files s1 !! (tempDir_of env id ++ [chunk_name j])
          = match latest ups j with
            | Some b => Some (File b)
            | None => files s !! (tempDir_of env id ++ [chunk_name j])
            end) ∧
    (∀ q, (∀ j, j ∈ ups.*1 → q ≠ tempDir_of env id ++ [chunk_name j]) →
          files s1 !! q = files s !! q ∨
          (files s !! q = None ∧ files s1 !! q = Some Dir ∧
           q `prefix_of` tempDir_of env id)) ∧
    (ups ≠ [] → files s1 !! tempDir_of env id = Some Dir).
Proof.
  unfold staging_ready. set (T := tempDir_of env id).
  induction ups as [|[i b] rest IH]; intros s Hid Hpos [Hfree Hnodir].
  - exists s. cbn. split; [done|]. split; [done|]. split; [done|].
    split; [by left|done].
  - assert (0 ≤ i) as Hi by (apply Hpos; cbn; left).
    destruct (chunk_form_run env id i b s) as (fs1 & Hrun & Hmade);
      [done|done|done|apply Hnodir; cbn; left|].
    fold T in Hrun, Hmade.
    set (s' := mkDisk (<[T ++ [chunk_name i] := File b]> fs1) (rm_faults s)) in *.
    assert (Hs' : ∀ q, q ≠ T ++ [chunk_name i] →
              files s' !! q = files s !! q ∨
              (files s !! q = None ∧ files s' !! q = Some Dir ∧ q `prefix_of` T)).
    { intros q Hq. unfold s'. cbn [files]. rewrite lookup_insert_ne by done.
      destruct (proj2 Hmade q) as [?|(? & ? & ? & _)]; eauto. }
    assert (Hcp : ∀ j, ¬ T ++ [chunk_name j] `prefix_of` T)
      by (intros j; apply prefix_snoc_not).
    destruct (IH s') as (s1 & Hrest & Hf & Hchunks & Hframe & _).
    { done. } { intros j Hj. apply Hpos. cbn. by right. }
    { split.
      - intros q d Hq. destruct (Hs' q) as [->|(_ & -> & _)]; [|by apply Hfree|done].
        intros ->. by apply Hcp in Hq.
      - intros j Hj. destruct (decide (chunk_name j = chunk_name i)) as [->|Hne].
        + unfold s'. cbn [files]. by rewrite lookup_insert_eq.
        + destruct (Hs' (T ++ [chunk_name j])) as [->|(_ & _ & Habs)].
          * intros Heq. by apply app_inj_tail in Heq as [_ ?].
          * apply Hnodir. cbn. by right.
          * by apply Hcp in Habs. }
    exists s1. cbn [upload_seq]. rewrite Hrun. fold s'. rewrite Hrest.
    split; [done|]. split; [done|]. split; [|split].
    + intros j. rewrite Hchunks. cbn [latest].
      destruct (latest rest j) as [b'|]; [done|].
      destruct (decide (i = j)) as [->|Hne].
      * unfold s'. cbn [files]. by rewrite lookup_insert_eq.
      * destruct (Hs' (T ++ [chunk_name j])) as [?|(_ & _ & Habs)]; [|done|].
        -- intros Heq. apply app_inj_tail in Heq as [_ Heq].
           by apply chunk_name_inj in Heq.
        -- by apply Hcp in Habs.
    + intros q Hq.
      destruct (Hs' q) as [Heq|(Hnone & Hd & Hpre)]; [apply Hq; cbn; left| |].
      * destruct (Hframe q) as [?|(? & ? & ?)].
        { intros j Hj. apply Hq. cbn. by right. }
        { left. congruence. }
        { right. split; [congruence|]. done. }
      * destruct (Hframe q) as [?|(? & ? & ?)].
        { intros j Hj. apply Hq. cbn. by right. }
        { right. split; [done|]. split; [congruence|done]. }
        { congruence. }
    + intros _.
      assert (∀ j, T ≠ T ++ [chunk_name j]) as HT.
      { intros j Heq. apply (f_equal length) in Heq.
        rewrite length_app in Heq. simpl in Heq. lia. }
      assert (files s' !! T = Some Dir) as Hd.
      { unfold s'. cbn [files]. rewrite lookup_insert_ne by (intros ?; by eapply HT).
        apply Hmade; [apply tempDir_of_nonempty|done]. }
      destruct (Hframe T) as [?|(? & ? & ?)]; [intros j _; apply HT|congruence..].
Qed.

(** X8.  The last writer wins: after a run of receives for one valid
    session (indices sent as decimal numerals, in any order, possibly
    more than once and with different bytes) on a disk whose staging area
    is usable, every receive answered 200, the chunk file of every index
    sent holds the payload sent last for it, and the chunk files of the
    indices not sent are as they were. *)
Theorem X8_last_writer_wins env id ups s :
  valid_id id →
  (∀ j, j ∈ ups.*1 → 0 ≤ j) →
  staging_ready env id ups.*1 (files s) →
  ∃ s1,
    upload_seq env id ups s
      = (replicate (length ups) (inr (mkResponse 200 BSuccess)), s1) ∧
    ∀ j, files s1 !! (tempDir_of env id ++ [chunk_name j])
         = match latest ups j with
           | Some b => Some (File b)
           | None => files s !! (tempDir_of env id ++ [chunk_name j])
           end.
Proof.
  intros Hid Hpos Hstage.
  destruct (upload_seq_run env id ups s) as (s1 & Hrun & _ & Hchunks & _);
    try done.
  by exists s1.
Qed.

Lemma X8_last_writer_wins_witness :
  ∃ s1,
    upload_seq env0 "abc-1" resent0 disk0
      = (replicate 3 (inr (mkResponse 200 BSuccess)), s1) ∧
    ∀ j, files s1 !! (tempDir_of env0 "abc-1" ++ [chunk_name j])
         = match latest resent0 j with
           | Some b => Some (File b)
           | None => files disk0 !! (tempDir_of env0 "abc-1" ++ [chunk_name j])
           end.
Proof.
  apply (X8_last_writer_wins env0 "abc-1" resent0 disk0).
  - split; [done|by vm_compute].
  - intros j Hj. cbn in Hj.
    repeat (apply elem_of_cons in Hj as [->|Hj]; [lia|]).
    by apply elem_of_nil in Hj.
  - split; [apply no_file_on_creatable; by vm_compute|].
    intros j _. simpl. by rewrite lookup_empty.
Defined.

Example last_writer_wins_scenario :
  latest resent0 0 = Some [Byte.x41; Byte.x41; Byte.x41; Byte.x41] ∧
  files (upload_seq env0 "abc-1" resent0 disk0).2
    !! ["tmp"; "uploads"; "abc-1"; "chunk_0"]
    = Some (File [Byte.x41; Byte.x41; Byte.x41; Byte.x41]).
Proof. split; by vm_compute. Qed.

(** X9.  Re-sent chunks and finalize: after such a run of receives in
    which every index below [n] was sent at least once, finalize with
    total [n] (usable destination, no failing deletion) answers 200 and
    the destination file holds, for each index in order, the payload sent
    last for it; earlier payloads of a re-sent index leave no trace.
    Both handlers. *)
Theorem X9_finalize_uses_latest env id name n ups s0 :
  let request := mkFinalize id name (Num n) in
  valid_id id →
  1 ≤ n ≤ MAX_CHUNKS →
  (∀ j, j ∈ ups.*1 → 0 ≤ j) →
  (∀ j, 0 ≤ j < n → is_Some (latest ups j)) →
  staging_ready env id ups.*1 (files s0) →
  destination_ready env request (files s0) →
  apart env request →
  first_rm_ok s0 →
  ∃ s1,
    upload_seq env id ups s0
      = (replicate (length ups) (inr (mkResponse 200 BSuccess)), s1) ∧
    assembled (RouteTs.POST env request) env request
      (concat ((λ j, default [] (latest ups j)) <$> seqZ 0 n)) s1 ∧
    assembled (Part001.POST env request) env request
      (concat ((λ j, default [] (latest ups j)) <$> seqZ 0 n)) s1.
Proof.
  intros request Hid Hn Hpos Hall Hstage (Hroot & [Hplain Hfile] & Hsep')
    [Hsep0 Hsep] Hrm.
  subst request. cbn [uploadId fileName] in *.
  set (request := mkFinalize id name (Num n)).
  destruct (upload_seq_run env id ups s0)
    as (s1 & Hup & Hf & Hchunks & Hframe & Hdir); try done.
  exists s1. split; [done|].
  set (T := tempDir_of env id) in *.
  assert (ups ≠ []) as Hne.
  { intros ->. destruct (Hall 0) as [? ?]; [lia|done]. }
  assert (Hcases : ∀ q,
            (∃ j, q = T ++ [chunk_name j]) ∨
            files s1 !! q = files s0 !! q ∨
            (files s0 !! q = None ∧ files s1 !! q = Some Dir ∧ q `prefix_of` T)).
  { intros q.
    destruct (decide (q ∈ (λ j, T ++ [chunk_name j]) <$> ups.*1)) as [Hin|Hnin].
    - left. apply list_elem_of_fmap in Hin as (j & -> & _). by eauto.
    - right. apply Hframe. intros j Hj ->. apply Hnin.
      apply list_elem_of_fmap. by eauto. }
  assert (∀ c, ∃ s', finalize_with c env request s1 =
                       (inr (success_response request), s') ∧
            files s' !! finalFilePath_of env (fileName request)
              = Some (File (concat ((λ j, default [] (latest ups j))
                                      <$> seqZ 0 n))) ∧
            gone (tempDir_of env (uploadId request)) (files s')) as Hfin.
  { intros c. apply finalize_success.
    - by apply accepted_Num.
    - lia.
    - intros j Hj. simpl. apply Z.ltb_lt. lia.
    - simpl. apply Z.ltb_irrefl.
    - intros q d Hq Hfile1.
      destruct (Hcases q) as [[j ->]|[Heq|(_ & Hd & _)]].
      + apply Hsep0. by eapply prefix_app_l.
      + rewrite Heq in Hfile1. by apply (Hroot q d).
      + congruence.
    - rewrite stat_nonempty by apply tempDir_of_nonempty.
      unfold request. cbn [uploadId]. fold T. rewrite (Hdir Hne). eauto.
    - split; [done|]. unfold request. cbn [fileName].
      destruct (Hcases (finalFilePath_of env name)) as [[j Hj]|[Heq|(_ & _ & Hp)]].
      + exfalso. apply Hsep. rewrite Hj. by apply prefix_app_r.
      + by rewrite Heq.
      + by exfalso.
    - done.
    - intros j Hj. unfold request. cbn [uploadId]. fold T. rewrite Hchunks.
      destruct (Hall j Hj) as [b ->]. done.
    - unfold first_rm_ok. by rewrite Hf. }
  unfold assembled. rewrite RouteTs_POST_eq, Part001_POST_eq.
  split.
  - destruct (Hfin Bare) as (s' & ? & ? & ?). exists s'. repeat split; try done.
    eapply gone_absent; [apply tempDir_of_nonempty|done..].
  - destruct (Hfin Guarded) as (s' & ? & ? & ?). exists s'. repeat split; try done.
    eapply gone_absent; [apply tempDir_of_nonempty|done..].
Qed.

Lemma X9_finalize_uses_latest_witness :
  ∃ s1,
    upload_seq env0 "abc-1" resent0 disk0
      = (replicate 3 (inr (mkResponse 200 BSuccess)), s1) ∧
    assembled (RouteTs.POST env0 request0) env0 request0
      (concat ((λ j, default [] (latest resent0 j)) <$> seqZ 0 2)) s1 ∧
    assembled (Part001.POST env0 request0) env0 request0
      (concat ((λ j, default [] (latest resent0 j)) <$> seqZ 0 2)) s1.
Proof.
  apply (X9_finalize_uses_latest env0 "abc-1" "out.bin" 2 resent0 disk0).
  - split; [done|by vm_compute].
  - unfold MAX_CHUNKS. lia.
  - intros j Hj. cbn in Hj.
    repeat (apply elem_of_cons in Hj as [->|Hj]; [lia|]).
    by apply elem_of_nil in Hj.
  - intros j Hj. assert (j = 0 ∨ j = 1) as [-> | ->] by lia; vm_compute; eauto.
  - split; [apply no_file_on_creatable; by vm_compute|].
    intros j _. simpl. by rewrite lookup_empty.
  - split; [apply no_file_on_creatable; by vm_compute|]. split.
    + split; [repeat split; by vm_compute|by vm_compute].
    + intros [k Hk]; vm_compute in Hk; discriminate.
  - split; intros [k Hk]; vm_compute in Hk; discriminate.
  - by vm_compute.
Defined.

(** A well-formed form reaches the two storage calls. *)
Lemma upload_reaches_storage env id idx b s :
  valid_id id → all_chars is_digit_char idx = true → idx ≠ "" →
  UploadChunk.POST env
    (UploadChunk.mkForm (UploadChunk.FFile b) (UploadChunk.FString idx)
                        (UploadChunk.FString id)) s
  = match mkdir (tempDir_of env id) s with
    | (inl _, s1) => (inr (json_error "Upload failed" 500), s1)
    | (inr _, s1) =>
        match writeFile (tempDir_of env id ++ ["chunk_" +:+ idx]) b s1 with
        | (inl _, s2) => (inr (json_error "Upload failed" 500), s2)
        | (inr _, s2) => (inr (mkResponse 200 BSuccess), s2)
        end
    end.
Proof.
  intros [Hne Hid] Hdig Hidx.
  unfold UploadChunk.POST, try_catch. cbn [UploadChunk.file
    UploadChunk.chunkIndex UploadChunk.uploadId].
  change (UploadChunk.truthy (UploadChunk.FFile b)) with true.
  assert (UploadChunk.truthy (UploadChunk.FString idx) = true) as ->
    by by destruct idx.
  assert (UploadChunk.truthy (UploadChunk.FString id) = true) as ->
    by by destruct id.
  cbn [negb orb]. rewrite bind_run.
  unfold UploadChunk.replace_in at 1, ret at 1.
  unfold UploadChunk.differs at 1.
  rewrite (proj2 (replace_outside_fixed _ _) Hid).
  rewrite bool_decide_eq_false_2 by (by intros ?).
  rewrite bind_run. unfold UploadChunk.replace_in at 1, ret at 1.
  unfold UploadChunk.differs at 1.
  rewrite (proj2 (replace_outside_fixed _ _) Hdig).
  rewrite bool_decide_eq_false_2 by (by intros ?).
  rewrite bind_run. unfold UploadChunk.arrayBuffer at 1, ret at 1.
  assert (path_join (os_tmpdir env) ["uploads"; id] = tempDir_of env id) as ->.
  { unfold tempDir_of. by rewrite (proj2 (replace_outside_fixed _ _) Hid). }
  rewrite path_join_plain
    by (constructor; [by apply chunk_prefix_plain|constructor]).
  rewrite bind_run.
  destruct (mkdir_cases (tempDir_of env id) s) as [->|(fs' & -> & _)]; [done|].
  rewrite bind_run. unfold writeFile. cbn [files].
  by destruct (can_open fs' _).
Qed.

(** X10.  Storage failures of the receiver, for a well-formed form.  When
    a regular file sits on the way to the session's staging directory,
    the answer is 500 "Upload failed" and the disk is returned as it was.
    When a directory sits where the chunk file goes, the answer is 500
    "Upload failed" as well; the staging directory has been made, the
    payload is written nowhere and the directory stays. *)
Theorem X10_receive_storage_failure env id idx b s :
  valid_id id → all_chars is_digit_char idx = true → idx ≠ "" →
  let form := UploadChunk.mkForm (UploadChunk.FFile b) (UploadChunk.FString idx)
                                 (UploadChunk.FString id) in
  (∀ (q : path) d,
     q `prefix_of` tempDir_of env id → q ≠ [] →
     files s !! q = Some (File d) →
     UploadChunk.POST env form s = (inr (json_error "Upload failed" 500), s)) ∧
  (creatable (files s) (tempDir_of env id) →
   files s !! (tempDir_of env id ++ ["chunk_" +:+ idx]) = Some Dir →
   ∃ fs1,
     UploadChunk.POST env form s
       = (inr (json_error "Upload failed" 500), mkDisk fs1 (rm_faults s)) ∧
     made (tempDir_of env id) (files s) fs1 ∧
     fs1 !! (tempDir_of env id ++ ["chunk_" +:+ idx]) = Some Dir ∧
     ∀ p x, fs1 !! p = Some (File x) → files s !! p = Some (File x)).
Proof.
  intros Hid Hdig Hidx form. unfold form. split.
  - intros q d Hpre Hne Hq.
    rewrite upload_reaches_storage by done.
    by rewrite (mkdir_blocked _ _ _ _ Hpre Hne Hq).
  - intros Hfree Hdir.
    rewrite upload_reaches_storage by done.
    destruct (mkdir_ok _ _ Hfree) as (fs1 & -> & Hmade).
    assert (fs1 !! (tempDir_of env id ++ ["chunk_" +:+ idx]) = Some Dir) as Hd
      by by eapply made_file.
    unfold writeFile. cbn [files rm_faults].
    rewrite can_open_dir by done.
    exists fs1. repeat split; try done; try apply Hmade.
    intros p x Hp. destruct (proj2 Hmade p) as [<-|(_ & ? & _)]; congruence.
Qed.

Lemma X10_receive_storage_failure_witness :
  UploadChunk.POST env0 (chunk_form "abc-1" 0 [Byte.x41]) notmp0
    = (inr (json_error "Upload failed" 500), notmp0) ∧
  ∃ fs1,
    UploadChunk.POST env0 (chunk_form "abc-1" 0 [Byte.x41]) chunkdir0
      = (inr (json_error "Upload failed" 500), mkDisk fs1 (rm_faults chunkdir0)) ∧
    made (tempDir_of env0 "abc-1") (files chunkdir0) fs1 ∧
    fs1 !! (tempDir_of env0 "abc-1" ++ ["chunk_" +:+ "0"]) = Some Dir ∧
    ∀ p x, fs1 !! p = Some (File x) → files chunkdir0 !! p = Some (File x).
Proof.
  split.
  - destruct (X10_receive_storage_failure env0 "abc-1" "0" [Byte.x41] notmp0)
      as [Hblocked _]; [split; [done|by vm_compute]|done|done|].
    apply (Hblocked ["tmp"] []); [|done|by vm_compute].
    exists ["uploads"; "abc-1"]. by vm_compute.
  - destruct (X10_receive_storage_failure env0 "abc-1" "0" [Byte.x41] chunkdir0)
      as [_ Hdir]; [split; [done|by vm_compute]|done|done|].
    apply Hdir; [|by vm_compute].
    apply no_file_on_creatable. by vm_compute.
Defined.

(** A decimal numeral has no leading zero, apart from [0] itself. *)
Lemma pretty_N_go_head x s :
  (0 < x)%N → ∃ c r, pretty_N_go x s = String c r ∧ c ≠ "0"%char.
Proof.
  revert s. induction (N.lt_wf_0 x) as [x _ IH]; intros s Hx.
  rewrite pretty_N_go_step by done.
  destruct (decide (x < 10)%N) as [Hlt|Hge].
  - rewrite N.div_small, pretty_N_go_0 by done.
    rewrite N.mod_small by done. eexists _, _. split; [done|].
    unfold pretty_N_char. repeat case_match; (done || lia).
  - apply IH.
    + apply N.div_lt; lia.
    + apply N.div_str_pos. lia.
Qed.

Lemma pretty_Z_no_leading_zero (j : Z) r :
  0 ≤ j → pretty j = String "0" r → r = "".
Proof.
  intros Hj Heq. destruct j as [|p|p]; [by injection Heq|exfalso|lia].
  change (pretty (Z.pos p)) with (pretty_N_go (N.pos p) "") in Heq.
  destruct (pretty_N_go_head (N.pos p) "") as (c & r' & Hgo & Hc); [lia|].
  rewrite Hgo in Heq. by injection Heq as -> _.
Qed.

(** X11.  The receiver files a chunk under the index exactly as it was
    sent, while finalize reads the chunk of [j] under the decimal numeral
    of [j]: a digits-only index with a leading zero (["01"], ["007"]) is
    accepted with 200 and stored, but under a name finalize never reads,
    so the chunk file of every index [j] is after the receive what it was
    before. *)
Theorem X11_leading_zero_index env id rest b s :
  valid_id id →
  all_chars is_digit_char rest = true → rest ≠ "" →
  creatable (files s) (tempDir_of env id) →
  files s !! (tempDir_of env id ++ ["chunk_" +:+ String "0" rest]) ≠ Some Dir →
  ∃ s',
    UploadChunk.POST env
      (UploadChunk.mkForm (UploadChunk.FFile b)
         (UploadChunk.FString (String "0" rest)) (UploadChunk.FString id)) s
    = (inr (mkResponse 200 BSuccess), s') ∧
    files s' !! (tempDir_of env id ++ ["chunk_" +:+ String "0" rest])
      = Some (File b) ∧
    ∀ j, 0 ≤ j →
      files s' !! (tempDir_of env id ++ [chunk_name j])
      = files s !! (tempDir_of env id ++ [chunk_name j]).
Proof.
  intros Hid Hdig Hrest Hfree Hnodir.
  destruct (upload_run env id (String "0" rest) b s) as (fs1 & Hrun & Hmade);
    try done.
  eexists. split; [exact Hrun|]. cbn [files]. split.
  - by rewrite lookup_insert_eq.
  - intros j Hj. rewrite lookup_insert_ne.
    + apply (made_same _ _ _ _ Hmade). apply prefix_snoc_not.
    + intros Heq. apply app_inj_tail in Heq as [_ Heq].
      unfold chunk_name in Heq. simpl in Heq. injection Heq as Heq.
      symmetry in Heq. by apply pretty_Z_no_leading_zero in Heq.
Qed.

Lemma X11_leading_zero_index_witness :
  ∃ s',
    UploadChunk.POST env0
      (UploadChunk.mkForm (UploadChunk.FFile [Byte.x42])
         (UploadChunk.FString (String "0" "1")) (UploadChunk.FString "abc-1"))
      partly0
    = (inr (mkResponse 200 BSuccess), s') ∧
    files s' !! (tempDir_of env0 "abc-1" ++ ["chunk_" +:+ String "0" "1"])
      = Some (File [Byte.x42]) ∧
    ∀ j, 0 ≤ j →
      files s' !! (tempDir_of env0 "abc-1" ++ [chunk_name j])
      = files partly0 !! (tempDir_of env0 "abc-1" ++ [chunk_name j]).
Proof.
  apply (X11_leading_zero_index env0 "abc-1" "1" [Byte.x42] partly0).
  - split; [done|by vm_compute].
  - by vm_compute.
  - done.
  - apply no_file_on_creatable. by vm_compute.
  - by vm_compute.
Defined.

(** The consequence for a client that pads its indices: chunk 0 sent as
    ["0"] and chunk 1 sent as ["01"] leave finalize with total 2 without
    its chunk 1. *)
Example padded_index_scenario :
  (UploadChunk.POST env0
     (UploadChunk.mkForm (UploadChunk.FFile [Byte.x42])
        (UploadChunk.FString "01") (UploadChunk.FString "abc-1")) partly0).1
    = inr (mkResponse 200 BSuccess) ∧
  (RouteTs.POST env0 request0
     (UploadChunk.POST env0
        (UploadChunk.mkForm (UploadChunk.FFile [Byte.x42])
           (UploadChunk.FString "01") (UploadChunk.FString "abc-1")) partly0).2).1
    = inr (json_error "Assembly failed" 500).
Proof. split; by vm_compute. Qed.

(** X12.  All three handlers keep the file system well-formed: started on
    a disk where every entry sits in a directory, each of them, whatever
    the request and whatever its outcome, ends on such a disk. *)
Theorem X12_handlers_keep_disk_well_formed env s :
  well_formed (files s) →
  (∀ form, well_formed (files (UploadChunk.POST env form s).2)) ∧
  (∀ request, well_formed (files (RouteTs.POST env request s).2)) ∧
  (∀ request, well_formed (files (Part001.POST env request s).2)).
Proof.
  intros Hwf. destruct (handlers_keep_well_formed env) as (H1 & H2 & H3).
  split; [|split].
  - intros form. by apply H1.
  - intros request. by apply H2.
  - intros request. by apply H3.
Qed.

Lemma X12_handlers_keep_disk_well_formed_witness :
  (∀ form, well_formed (files (UploadChunk.POST env0 form staged0).2)) ∧
  (∀ request, well_formed (files (RouteTs.POST env0 request staged0).2)) ∧
  (∀ request, well_formed (files (Part001.POST env0 request staged0).2)).
Proof.
  apply X12_handlers_keep_disk_well_formed.
  apply upload_each_well_formed.
  intros p [x Hx]. simpl in Hx. by rewrite lookup_empty in Hx.
Defined.

(** ** What the finalize handlers leave alone *)

Lemma cleanup_cases c (p : path) s :
  ∃ r s', cleanup c p s = (r, s') ∧
    (files s' = files s ∨
     files s' = filter (λ kv, ¬ p `prefix_of` kv.1) (files s)).
Proof.
  destruct c; cbn [cleanup].
  - unfold rm. destruct (rm_faults s) as [|[] fl]; eauto.
  - destruct (rm_quietly_cases p s) as (s' & -> & ?). eauto.
Qed.

Lemma finalize_frame c env request s :
  framed (finalize_with c env request) env request s.
Proof.
  unfold framed, finalize_with. destruct (accepted _); [|by eauto 10].
  unfold try_catch.
  set (T := tempDir_of env (uploadId request)).
  set (F := finalFilePath_of env (fileName request)).
  set (P := λ fs : gmap path node,
         ∀ q, ¬ T `prefix_of` q → q ≠ F →
              fs !! q = files s !! q ∨
              (files s !! q = None ∧ fs !! q = Some Dir ∧
               q `prefix_of` uploadsDir_of env)).
  change (P (files (let (r, s') := assemble c env request s in
                    match r with
                    | inl Unsettled => (inl Unsettled, s')
                    | inl (Error msg) =>
                        (rm_quietly T;; ret (json_error "Assembly failed" 500)) s'
                    | inr a => (inr a, s')
                    end).2)).
  assert (Hrm : ∀ fs fs', P fs →
            fs' = fs ∨ fs' = filter (λ kv, ¬ T `prefix_of` kv.1) fs → P fs').
  { intros fs fs' HP [->| ->]; [done|]. intros q HT HF.
    rewrite removed_lookup, decide_False by done. by apply HP. }
  assert (Hhandler : ∀ s4, P (files s4) →
    P (files ((rm_quietly T;; ret (json_error "Assembly failed" 500)) s4).2)).
  { intros s4 H4.
    destruct (handler_run T (json_error "Assembly failed" 500) s4)
      as (s5 & -> & Hfiles). eauto. }
  destruct (mkdir_cases (uploadsDir_of env) s) as [Hmk|(fs1 & Hmk & Hmade)].
  { rewrite (assemble_mkdir_fails _ _ _ _ Hmk). apply Hhandler.
    intros q _ _. by left. }
  assert (P fs1) as H1.
  { intros q _ _. destruct (proj2 Hmade q) as [?|(? & ? & ? & _)]; eauto. }
  destruct (stat fs1 T) as [x|] eqn:Hst; cycle 1.
  { by rewrite (assemble_not_found _ _ _ _ fs1 Hmk) by done. }
  rewrite (assemble_open _ _ _ _ fs1 Hmk) by (fold T; rewrite Hst; eauto).
  fold T F.
  set (ws := mkStream F (can_open fs1 F) false).
  set (s2 := if can_open fs1 F
             then mkDisk (<[F := File []]> fs1) (rm_faults s)
             else mkDisk fs1 (rm_faults s)).
  destruct (work_frame T (totalChunks request) ws s2)
    as (r & s3 & Hwork & Hout & _ & Hq3 & _); [done|].
  assert (P (files s3)) as H3.
  { intros q HT HF. rewrite Hq3 by done.
    unfold s2. destruct (can_open fs1 F); cbn [files].
    - rewrite lookup_insert_ne by done. by apply H1.
    - by apply H1. }
  destruct (cleanup_cases c T s3) as (rc & s4 & Hrc & Hfiles).
  destruct (cleanup_shrinks c T s3) as (rc' & s4' & Hrc' & _ & Hrcs).
  rewrite Hrc in Hrc'. injection Hrc' as <- <-.
  assert (P (files s4)) as H4 by by eapply Hrm.
  destruct Hout as [->|[[msg ->]|(-> & _)]].
  - erewrite finish_run; [|exact Hwork|done]. rewrite Hrc.
    destruct Hrcs as [->| ->]; [done|by apply Hhandler].
  - erewrite finish_run; [|exact Hwork|done]. rewrite Hrc.
    destruct Hrcs as [->| ->]; by apply Hhandler.
  - by rewrite (finish_unsettled _ _ _ _ _ _ _ Hwork).
Qed.

Lemma staging_dirs_apart env (id id' : string) (q : path) :
  id ≠ "" → id ≠ id' →
  os_tmpdir env ++ ["uploads"; id'] `prefix_of` q →
  ¬ os_tmpdir env ++ ["uploads"; id] `prefix_of` q.
Proof.
  intros Hne Hdiff H' H.
  destruct (prefix_weak_total _ _ _ H H') as [[k Hk]|[k Hk]].
  - rewrite <- app_assoc in Hk. apply app_inv_head in Hk.
    simpl in Hk. by simplify_eq.
  - rewrite <- app_assoc in Hk. apply app_inv_head in Hk.
    simpl in Hk. by simplify_eq.
Qed.

(** X13.  What finalize leaves alone.  Whatever the request and the disk,
    and whether or not the handler comes to answer, the disk a finalize
    handler leaves differs from the one it found nowhere outside the
    staging directory of the (stripped) session id and the destination
    file, except for directories made on the way to the destination
    root.  In particular, when the stripped id is not empty, whatever
    another session with a valid id has staged is still there afterwards,
    unchanged.  Both handlers. *)
Theorem X13_finalize_frame env request s :
  framed (RouteTs.POST env request) env request s ∧
  framed (Part001.POST env request) env request s ∧
  (∀ id' q x,
     valid_id id' →
     replace_outside is_id_char (uploadId request) ≠ "" →
     replace_outside is_id_char (uploadId request) ≠ id' →
     tempDir_of env id' `prefix_of` q →
     q ≠ finalFilePath_of env (fileName request) →
     files s !! q = Some x →
     files (RouteTs.POST env request s).2 !! q = Some x ∧
     files (Part001.POST env request s).2 !! q = Some x).
Proof.
  assert (Hother : ∀ run,
    framed run env request s →
    ∀ id' q x,
      valid_id id' →
      replace_outside is_id_char (uploadId request) ≠ "" →
      replace_outside is_id_char (uploadId request) ≠ id' →
      tempDir_of env id' `prefix_of` q →
      q ≠ finalFilePath_of env (fileName request) →
      files s !! q = Some x → files (run s).2 !! q = Some x).
  { intros run Hframe id' q x Hid' Hne Hdiff Hpre HF Hq.
    destruct (Hframe q) as [->|(? & _)]; [|done|done|congruence].
    rewrite tempDir_of_valid in Hpre by done.
    rewrite tempDir_of_eq. rewrite decide_False by done.
    by eapply staging_dirs_apart. }
  rewrite RouteTs_POST_eq, Part001_POST_eq.
  pose proof (finalize_frame Bare env request s) as Hroute.
  pose proof (finalize_frame Guarded env request s) as Hpart.
  split; [done|]. split; [done|].
  intros id' q x Hid' Hne Hdiff Hpre HF Hq.
  split; by eapply Hother.
Qed.

Lemma X13_finalize_frame_witness :
  files (RouteTs.POST env0 (mkFinalize "other" "x.bin" (Num 1)) staged0).2
    !! ["tmp"; "uploads"; "abc-1"; "chunk_1"]
    = Some (File [Byte.x42; Byte.x42]) ∧
  files (Part001.POST env0 (mkFinalize "other" "x.bin" (Num 1)) staged0).2
    !! ["tmp"; "uploads"; "abc-1"; "chunk_1"]
    = Some (File [Byte.x42; Byte.x42]).
Proof.
  destruct (X13_finalize_frame env0 (mkFinalize "other" "x.bin" (Num 1)) staged0)
    as (_ & _ & Hother).
  apply (Hother "abc-1").
  - split; [done|by vm_compute].
  - by vm_compute.
  - by vm_compute.
  - exists ["chunk_1"]. by vm_compute.
  - by vm_compute.
  - by vm_compute.
Defined.
